(** * Baidu face identification for Home Assistant: a shallow embedding

    The development follows the two source files of the integration:
    [__init__.py] (the [BaiduFace] API client: [get_token], [call_api],
    [update_store], and [async_setup]) and [image_processing.py] (the
    [BaiduFaceIdentifyEntity] with [async_process_image]).

    Python values decoded from JSON are a small inductive type, the
    dictionaries of the client are finite maps, and every coroutine is a
    function in a state-and-exception monad over one [world] record that
    holds the shared client object, the module-level [ATTR_LIST] and the
    trace of the effects the code performs on its host. *)

From Stdlib Require Import ZArith QArith String Ascii List Decimal DecimalString.
From stdpp Require Import gmap strings list fin_maps.

Set Warnings "-register-all,-clear-no-such-hyp".
Local Open Scope Z_scope.
Local Open Scope string_scope.
Local Open Scope list_scope.

(** ** Python values *)

(** What [json.loads] produces.  Integers and floats are kept apart, as
    Python does; a finite float is represented by its exact rational
    value.  An object is the list of its items in insertion order, with
    pairwise distinct keys. *)
Inductive json : Type :=
| JNull
| JBool (b : bool)
| JInt (z : Z)
| JFloat (q : Q)
| JStr (s : string)
| JList (l : list json)
| JObj (items : list (string * json)).

(** The exceptions the two files raise, catch or let through. *)
Inductive exn : Type :=
| ClientError                      (* aiohttp.ClientError *)
| TimeoutError                     (* asyncio.TimeoutError *)
| HomeAssistantError (msg : json)
| KeyError (key : string)
| IndexError
| TypeError
| UnboundLocalError (var : string)
| NonStringKey                     (* a dictionary key outside [str]: not modelled *)
| OSError (reason : string).       (* and its subclasses, [FileNotFoundError] among them *)

Inductive result (A : Type) : Type :=
| Ok (a : A)
| Raise (e : exn).
Arguments Ok {A} a.
Arguments Raise {A} e.

Definition is_raise {A} (r : result A) : bool :=
  match r with Ok _ => false | Raise _ => true end.

(** [bool(x)] *)
Definition truthy (j : json) : bool :=
  match j with
  | JNull => false
  | JBool b => b
  | JInt z => negb (Z.eqb z 0)
  | JFloat q => negb (Qeq_bool q 0)
  | JStr s => negb (String.eqb s "")
  | JList l => match l with [] => false | _ => true end
  | JObj items => match items with [] => false | _ => true end
  end.

(** Lookup in a dictionary that keeps insertion order. *)
Fixpoint dict_get {V} (d : list (string * V)) (key : string) : option V :=
  match d with
  | [] => None
  | (k, v) :: d' => if String.eqb k key then Some v else dict_get d' key
  end.

(** [d[key] = v]: an existing key keeps its position, a new one goes last. *)
Fixpoint dict_set {V} (d : list (string * V)) (key : string) (v : V)
  : list (string * V) :=
  match d with
  | [] => [(key, v)]
  | (k, v0) :: d' =>
      if String.eqb k key then (k, v) :: d' else (k, v0) :: dict_set d' key v
  end.

Definition dict_keys {V} (d : list (string * V)) : list string := map fst d.

(** [x[key]] for a string key. *)
Definition getitem (x : json) (key : string) : result json :=
  match x with
  | JObj items =>
      match dict_get items key with
      | Some v => Ok v
      | None => Raise (KeyError key)
      end
  | _ => Raise TypeError
  end.

Definition str_of_ascii (c : ascii) : string := String c EmptyString.

(** [x[0]] *)
Definition getitem0 (x : json) : result json :=
  match x with
  | JList (v :: _) => Ok v
  | JList [] => Raise IndexError
  | JStr (String c _) => Ok (JStr (str_of_ascii c))
  | JStr EmptyString => Raise IndexError
  | JObj _ => Raise (KeyError "0")
  | _ => Raise TypeError
  end.

(** [sub in s] for two strings. *)
Fixpoint is_substring (sub s : string) : bool :=
  String.prefix sub s ||
  match s with
  | EmptyString => false
  | String _ s' => is_substring sub s'
  end.

Definition json_is_str (key : string) (j : json) : bool :=
  match j with JStr s => String.eqb s key | _ => false end.

(** [key in x] for a string key. *)
Definition contains (key : string) (x : json) : result bool :=
  match x with
  | JObj items => Ok (match dict_get items key with Some _ => true | None => false end)
  | JList l => Ok (existsb (json_is_str key) l)
  | JStr s => Ok (is_substring key s)
  | _ => Raise TypeError
  end.

(** The items a [for] loop visits. *)
Definition iterate (x : json) : result (list json) :=
  match x with
  | JList l => Ok l
  | JObj items => Ok (map JStr (dict_keys items))
  | JStr s => Ok (map (fun c => JStr (str_of_ascii c)) (list_ascii_of_string s))
  | _ => Raise TypeError
  end.

(** A value used as a dictionary key.  Lists and objects are unhashable;
    the store is modelled for string identifiers, which is what the API
    reports. *)
Definition as_key (x : json) : result string :=
  match x with
  | JStr s => Ok s
  | JList _ | JObj _ => Raise TypeError
  | _ => Raise NonStringKey
  end.

Definition Qlt_bool (a b : Q) : bool := negb (Qle_bool b a).

(** [x > threshold] against a float. *)
Definition gt_float (x : json) (threshold : Q) : result bool :=
  match x with
  | JInt z => Ok (Qlt_bool threshold (inject_Z z))
  | JFloat q => Ok (Qlt_bool threshold q)
  | JBool b => Ok (Qlt_bool threshold (inject_Z (if b then 1 else 0)))
  | _ => Raise TypeError
  end.

Definition str_of_Z (z : Z) : string := NilZero.string_of_int (Z.to_int z).

(** The runtime's own error-free plumbing on [result]. *)
Definition result_bind {A B} (r : result A) (f : A -> result B) : result B :=
  match r with
  | Ok a => f a
  | Raise e => Raise e
  end.

(** [base64.b64encode], standard alphabet with [=] padding. *)
Definition b64_alphabet : string :=
  "ABCDEFGHIJKLMNOPQRSTUVWXYZabcdefghijklmnopqrstuvwxyz0123456789+/".

Definition b64_char (n : N) : ascii :=
  match String.get (N.to_nat n) b64_alphabet with
  | Some c => c
  | None => "="%char
  end.

Fixpoint b64encode (bs : list Byte.byte) : string :=
  match bs with
  | [] => ""
  | [a] =>
      let x := Byte.to_N a in
      String (b64_char (x / 4)) (String (b64_char ((x mod 4) * 16)) "==")
  | [a; b] =>
      let x := Byte.to_N a in
      let y := Byte.to_N b in
      String (b64_char (x / 4))
        (String (b64_char ((x mod 4) * 16 + y / 16))
           (String (b64_char ((y mod 16) * 4)) "="))
  | a :: b :: c :: rest =>
      let x := Byte.to_N a in
      let y := Byte.to_N b in
      let z := Byte.to_N c in
      String (b64_char (x / 4))
        (String (b64_char ((x mod 4) * 16 + y / 16))
           (String (b64_char ((y mod 16) * 4 + z / 64))
              (String (b64_char (z mod 64)) (b64encode rest))))
  end%N.

(** [datetime.now()], and its [strftime("%Y%m%d_%H%M%S")]. *)
Record datetime : Type := {
  year : Z; month : Z; day : Z; hour : Z; minute : Z; second : Z
}.

Definition pad2 (n : Z) : string :=
  if Z.ltb n 10 then "0" +:+ str_of_Z n else str_of_Z n.

Definition strftime_Ymd_HMS (d : datetime) : string :=
  str_of_Z (year d) +:+ pad2 (month d) +:+ pad2 (day d) +:+ "_" +:+
  pad2 (hour d) +:+ pad2 (minute d) +:+ pad2 (second d).

(** ** The host: network, log, files, entity state *)

Record request : Type := {
  req_method : string;
  req_url : string;
  req_headers : list (string * string);
  req_params : option (list (string * string));
  req_data : option (list (string * string))
}.

(** An [aiohttp] response: its status, its URL, and what awaiting
    [response.json()] gives. *)
Record response : Type := {
  status : Z;
  url : string;
  json_body : result json
}.

(** What awaiting a request gives: a response, or the exception raised
    inside the [with async_timeout.timeout(...)] block. *)
Definition network : Type := request -> result response.

(** One entry of [known_faces]: [{ATTR_NAME: ..., ATTR_CONFIDENCE: ...}]. *)
Record detection : Type := {
  det_name : json;
  det_confidence : json
}.

(** What the [with open(path, "wb") as fp: fp.write(content)] statement
    meets on the disk of the host: the file is opened, written and
    closed; or [open] raises, and no file is created; or the file is
    created and the write (or the flush when it is closed) raises,
    leaving [kept] in the file. *)
Inductive write_outcome : Type :=
| Written
| OpenFailed (e : exn)
| WriteFailed (e : exn) (kept : list Byte.byte).

(** The disk of the host: what becomes of writing [content] at [path]. *)
Definition filesystem : Type := string -> list Byte.byte -> write_outcome.

(** The effects the code has on its host, in the order they happen:
    a request sent, a line logged, a file created or truncated by
    [open(path, "wb")] and left holding [content] when the [with]
    statement ends, a call of [async_process_faces], and [asyncio.wait]
    over the state refreshes of the listed groups. *)
Inductive event : Type :=
| Request (r : request)
| Log (level : string) (format : string)
| WriteFile (path : string) (content : list Byte.byte)
| ProcessFaces (faces : list detection) (total : nat)
| UpdateHaState (groups : list string).

Record BaiduFaceGroupEntity : Type := {
  _id : string;
  _name : string
}.

Record BaiduFace : Type := {
  _api_key : string;
  _secret_key : string;
  _store : gmap string (gmap string string);
  _entities : gmap string BaiduFaceGroupEntity;
  timeout : Z;
  _token : json
}.

Record world : Type := {
  api : BaiduFace;
  ATTR_LIST : list (string * json);
  trace : list event
}.

(** ** Coroutines: state and exceptions *)

Definition M (A : Type) : Type := world -> result A * world.

#[global] Instance M_ret : MRet M := fun A a w => (Ok a, w).

#[global] Instance M_bind : MBind M := fun A B f m w =>
  match m w with
  | (Ok a, w') => f a w'
  | (Raise e, w') => (Raise e, w')
  end.

Definition raise {A} (e : exn) : M A := fun w => (Raise e, w).

Definition lift {A} (r : result A) : M A := fun w => (r, w).

(** [try: body except ...: handler]; the handler re-raises what no
    clause matches. *)
Definition try_except {A} (body : M A) (handler : exn -> M A) : M A :=
  fun w =>
    match body w with
    | (Ok a, w') => (Ok a, w')
    | (Raise e, w') => handler e w'
    end.

Definition emit (e : event) : M unit := fun w =>
  (Ok tt, {| api := api w; ATTR_LIST := ATTR_LIST w; trace := trace w ++ [e] |}).

Definition log (level format : string) : M unit := emit (Log level format).

Definition get_api : M BaiduFace := fun w => (Ok (api w), w).

Definition modify_api (f : BaiduFace -> BaiduFace) : M unit := fun w =>
  (Ok tt, {| api := f (api w); ATTR_LIST := ATTR_LIST w; trace := trace w |}).

Definition get_attrs : M (list (string * json)) := fun w => (Ok (ATTR_LIST w), w).

Definition put_attrs (d : list (string * json)) : M unit := fun w =>
  (Ok tt, {| api := api w; ATTR_LIST := d; trace := trace w |}).

(** [for x in xs: body(x)] *)
Fixpoint for_each {A} (xs : list A) (body : A -> M unit) : M unit :=
  match xs with
  | [] => mret tt
  | x :: xs' => body x ;; for_each xs' body
  end.

(** [with open(path, "wb") as fp: fp.write(content)] *)
Definition write_file (disk : filesystem) (path : string)
    (content : list Byte.byte) : M unit :=
  match disk path content with
  | Written => emit (WriteFile path content)
  | OpenFailed e => raise e
  | WriteFailed e kept => emit (WriteFile path kept) ;; raise e
  end.

(** Awaiting a request, then awaiting the body of its response. *)
Definition await_request (net : network) (r : request) : M response :=
  emit (Request r) ;; lift (net r).

Definition await_json (r : response) : M json := lift (json_body r).

(** ** [__init__.py] *)

Definition CONF_API_KEY : string := "client_id".
Definition CONF_SECRET_KEY : string := "client_secret".
Definition CONF_GRANT_TYPE : string := "grant_type".
Definition DEFAULT_TIMEOUT : Z := 10.
Definition BAIDU_TOKEN_API_URL : string := "https://aip.baidubce.com/oauth/2.0/token".

Definition BaiduFace_init (api_key secret_key : string)
    (entities : gmap string BaiduFaceGroupEntity) : BaiduFace :=
  {| _api_key := api_key;
     _secret_key := secret_key;
     _store := ∅;
     _entities := entities;
     timeout := DEFAULT_TIMEOUT;
     _token := JStr "" |}.

Definition set_token (a : BaiduFace) (t : json) : BaiduFace :=
  {| _api_key := _api_key a; _secret_key := _secret_key a; _store := _store a;
     _entities := _entities a; timeout := timeout a; _token := t |}.

Definition set_store (a : BaiduFace) (s : gmap string (gmap string string)) : BaiduFace :=
  {| _api_key := _api_key a; _secret_key := _secret_key a; _store := s;
     _entities := _entities a; timeout := timeout a; _token := _token a |}.

Definition set_entities (a : BaiduFace) (es : gmap string BaiduFaceGroupEntity) : BaiduFace :=
  {| _api_key := _api_key a; _secret_key := _secret_key a; _store := _store a;
     _entities := es; timeout := timeout a; _token := _token a |}.

Definition json_headers : list (string * string) :=
  [("Content-Type", "application/json")].

(** [answer["error"]["message"]] *)
Definition error_message (answer : json) : result json :=
  result_bind (getitem answer "error") (fun e => getitem e "message").

Section Runtime.

(** [str()] of floats, lists and dictionaries is the interpreter's
    (shortest round-trip float printing, container [repr]) and is taken
    as given. *)
Variable py_repr : json -> string.

(** [str(x)], as an f-string or [str.format] applies it. *)
Definition py_str (x : json) : string :=
  match x with
  | JStr s => s
  | JInt z => str_of_Z z
  | JNull => "None"
  | JBool true => "True"
  | JBool false => "False"
  | _ => py_repr x
  end.

(** [BAIDU_FACE_API_URL.format(function, token)] *)
Definition BAIDU_FACE_API_URL (function : string) (token : json) : string :=
  "https://aip.baidubce.com/rest/2.0/face/v3/" +:+ function +:+
  "?access_token=" +:+ py_str token.

(** The [except] clauses of [get_token] and what follows them.
    [response] is the local variable of that name: [None] while the
    request has not returned. *)
Definition get_token_except {A} (response : option response) (e : exn) : M A :=
  match e with
  | ClientError => log "warning" "Can't connect to baidu token api"
  | TimeoutError =>
      match response with
      | Some _ => log "warning" "Timeout from baidu token api %s"
      | None => raise (UnboundLocalError "response")
      end
  | _ => raise e
  end ;;
  raise (HomeAssistantError (JStr "Network error on baidu token api.")).

Definition get_token (net : network) : M unit :=
  self ← get_api;
  let headers := json_headers in
  let params := [(CONF_API_KEY, _api_key self);
                 (CONF_SECRET_KEY, _secret_key self);
                 (CONF_GRANT_TYPE, "client_credentials")] in
  response ← try_except
    (await_request net {| req_method := "get"; req_url := BAIDU_TOKEN_API_URL;
                          req_headers := headers; req_params := Some params;
                          req_data := None |})
    (get_token_except None);
  try_except
    (answer ← await_json response;
     log "debug" "Read from baidu token api: %s" ;;
     ok ← (if Z.ltb (status response) 300
           then lift (contains "access_token" answer)
           else mret false);
     if (ok : bool) then
       token ← lift (getitem answer "access_token");
       modify_api (fun a => set_token a token) ;;
       log "debug" "Baidu token is %s"
     else
       log "warning" "Error %d baidu token api %s" ;;
       msg ← lift (error_message answer);
       raise (HomeAssistantError msg))
    (get_token_except (Some response)).

(** The [except] clauses of [call_api] and what follows them. *)
Definition call_api_except {A} (response : option response) (e : exn) : M A :=
  match e with
  | ClientError => log "warning" "Can't connect to baidu face api"
  | TimeoutError =>
      match response with
      | Some _ => log "warning" "Timeout from baidu face api %s"
      | None => raise (UnboundLocalError "response")
      end
  | _ => raise e
  end ;;
  raise (HomeAssistantError (JStr "Network error on baidu face api.")).

Definition call_api (net : network) (method function : string)
    (params data : option (list (string * string))) : M json :=
  self ← get_api;
  let headers := json_headers in
  let url := BAIDU_FACE_API_URL function (_token self) in
  response ← try_except
    (await_request net {| req_method := method; req_url := url;
                          req_headers := headers; req_params := params;
                          req_data := data |})
    (call_api_except None);
  try_except
    (answer ← await_json response;
     log "debug" "Read from baidu face api: %s\n%s\n%s\n" ;;
     if Z.ltb (status response) 300 then mret answer
     else
       log "warning" "Error %d baidu face api %s" ;;
       msg ← lift (error_message answer);
       raise (HomeAssistantError msg))
    (call_api_except (Some response)).

(** [self._store[group] = {}] *)
Definition store_new_group (group : string) : M unit :=
  modify_api (fun a => set_store a (<[group := ∅]> (_store a))).

(** [self._entities[group] = BaiduFaceGroupEntity(self.hass, self, group, group)] *)
Definition entities_new_group (group : string) : M unit :=
  modify_api (fun a =>
    set_entities a (<[group := {| _id := group; _name := group |}]> (_entities a))).

(** [self._store[group][person] = person] *)
Definition store_add_person (group person : string) : M unit :=
  self ← get_api;
  match _store self !! group with
  | Some persons =>
      modify_api (fun a => set_store a (<[group := <[person := person]> persons]> (_store a)))
  | None => raise (KeyError group)
  end.

(** The body of [for group in groups["group_id_list"]]; [tasks] holds
    the groups whose state refresh has been queued. *)
Definition update_group (net : network) (group : json) (tasks : list string)
  : M (list string) :=
  g ← lift (as_key group);
  store_new_group g ;;
  entities_new_group g ;;
  let data := [("group_id", g)] in
  answer ← call_api net "get" "faceset/group/getusers" (Some data) None;
  persons ← lift (getitem answer "result");
  if truthy persons then
    ids ← lift (result_bind (getitem persons "user_id_list") iterate);
    for_each ids (fun person =>
      p ← lift (as_key person);
      store_add_person g p) ;;
    mret (tasks ++ [g])
  else mret tasks.

Fixpoint update_groups (net : network) (groups : list json) (tasks : list string)
  : M (list string) :=
  match groups with
  | [] => mret tasks
  | group :: rest =>
      tasks' ← update_group net group tasks;
      update_groups net rest tasks'
  end.

Definition update_store (net : network) : M unit :=
  answer ← call_api net "post" "faceset/group/getlist" None None;
  groups ← lift (getitem answer "result");
  if truthy groups then
    ids ← lift (result_bind (getitem groups "group_id_list") iterate);
    tasks ← update_groups net ids [];
    match tasks with
    | [] => mret tt
    | _ => emit (UpdateHaState tasks)
    end
  else mret tt.

(** [async_setup]: a fresh client, then token and store; the result is
    whether the integration loaded. *)
Definition async_setup (net : network) (api_key secret_key : string) : M bool :=
  modify_api (fun _ => BaiduFace_init api_key secret_key ∅) ;;
  try_except
    (get_token net ;; update_store net ;; mret true)
    (fun err =>
       match err with
       | HomeAssistantError _ =>
           log "error" "Can't load data from face api: %s" ;; mret false
       | _ => raise err
       end).

(** ** [image_processing.py] *)

Definition ATTR_GROUP_ID : string := "group_id".
Definition ATTR_SCORE : string := "score".
Definition ATTR_UID : string := "user_id".
Definition ATTR_USER_INFO : string := "user_info".

(** The module-level dictionary as the module body leaves it. *)
Definition ATTR_LIST_init : list (string * json) :=
  [(ATTR_GROUP_ID, JStr "null");
   (ATTR_SCORE, JStr "null");
   (ATTR_UID, JStr "null");
   (ATTR_USER_INFO, JStr "null")].

Record BaiduFaceIdentifyEntity : Type := {
  _camera : string;
  _confidence : Q;
  _face_group : string;
  _save_path : string
}.

(** [ATTR_LIST[key] = v] and [ATTR_LIST[key]] *)
Definition attr_set (key : string) (v : json) : M unit :=
  d ← get_attrs; put_attrs (dict_set d key v).

Definition attr_get (key : string) : M json :=
  d ← get_attrs;
  match dict_get d key with
  | Some v => mret v
  | None => raise (KeyError key)
  end.

(** [ret_json["user_list"][0]] *)
Definition first_user (ret_json : json) : result json :=
  result_bind (getitem ret_json "user_list") getitem0.

(** The part of [async_process_image] below [# Parse data], reached
    when the [try] statement has bound [ret_json]. *)
Definition parse_data (disk : filesystem) (self : BaiduFaceIdentifyEntity)
    (now : datetime) (image : list Byte.byte) (ret_json : json) : M unit :=
  d ← get_attrs;
  for_each (dict_keys d) (fun key => attr_set key (JStr "null")) ;;
  known_faces ←
    (if truthy ret_json then
       confidence ← lift (result_bind (first_user ret_json)
                            (fun u => getitem u ATTR_SCORE));
       d ← get_attrs;
       for_each (dict_keys d) (fun key =>
         v ← lift (result_bind (first_user ret_json) (fun u => getitem u key));
         attr_set key v) ;;
       above ← lift (gt_float confidence (_confidence self));
       (if (above : bool) then
          uid ← attr_get ATTR_UID;
          let save_path :=
            _save_path self +:+ py_str uid +:+ "_" +:+
            strftime_Ymd_HMS now +:+ "_" +:+ py_str confidence +:+ ".jpg" in
          write_file disk save_path image
        else mret tt) ;;
       uid ← attr_get ATTR_UID;
       mret [ {| det_name := uid; det_confidence := confidence |} ]
     else mret []);
  emit (ProcessFaces known_faces (length known_faces)).

Definition async_process_image (net : network) (disk : filesystem)
    (self : BaiduFaceIdentifyEntity) (now : datetime) (image : list Byte.byte)
  : M unit :=
  r ← try_except
    (let params := [("image_type", "BASE64");
                    ("group_id_list", _face_group self)] in
     let data := [("image", b64encode image)] in
     answer ← call_api net "post" "search" (Some params) (Some data);
     ret_json ← lift (getitem answer "result");
     mret (Some ret_json))
    (fun err =>
       match err with
       | HomeAssistantError _ =>
           log "error" "Can't process image on Baidu face: %s" ;; mret None
       | _ => raise err
       end);
  match r with
  | None => mret tt
  | Some ret_json => parse_data disk self now image ret_json
  end.

End Runtime.

(** ** Reading a run *)

(** The files created or truncated, each with what it holds once the
    [with] statement has ended. *)
Definition files_written (t : list event) : list (string * list Byte.byte) :=
  omap (fun e => match e with WriteFile p c => Some (p, c) | _ => None end) t.

(** The detection lists handed to [async_process_faces]. *)
Definition reported (t : list event) : list (list detection) :=
  omap (fun e => match e with ProcessFaces fs _ => Some fs | _ => None end) t.

Definition requests (t : list event) : list request :=
  omap (fun e => match e with Request r => Some r | _ => None end) t.

Definition logged (t : list event) : list (string * string) :=
  omap (fun e => match e with Log l f => Some (l, f) | _ => None end) t.

(** A world with more events at the end of its trace. *)
Definition with_trace (w : world) (evs : list event) : world :=
  {| api := api w; ATTR_LIST := ATTR_LIST w; trace := trace w ++ evs |}.

(** The request [call_api] sends for a client holding [token]. *)
Definition api_request (py_repr : json -> string) (token : json)
    (method function : string) (params data : option (list (string * string)))
  : request :=
  {| req_method := method;
     req_url := BAIDU_FACE_API_URL py_repr function token;
     req_headers := json_headers;
     req_params := params;
     req_data := data |}.

(** The request [get_token] sends. *)
Definition token_request (a : BaiduFace) : request :=
  {| req_method := "get";
     req_url := BAIDU_TOKEN_API_URL;
     req_headers := json_headers;
     req_params := Some [(CONF_API_KEY, _api_key a);
                         (CONF_SECRET_KEY, _secret_key a);
                         (CONF_GRANT_TYPE, "client_credentials")];
     req_data := None |}.

(** The keys of the module-level dictionary never change. *)
Definition attrs_wf (w : world) : Prop :=
  dict_keys (ATTR_LIST w) = dict_keys ATTR_LIST_init.

(** Events that touch neither files nor entity state. *)
Definition quiet (evs : list event) : Prop :=
  files_written evs = [] ∧ reported evs = [] ∧
  Forall (fun e => match e with UpdateHaState _ => False | _ => True end) evs.

(** The search call of [async_process_image]. *)
Definition search_call (py_repr : json -> string) (net : network)
    (self : BaiduFaceIdentifyEntity) (image : list Byte.byte) : M json :=
  call_api py_repr net "post" "search"
    (Some [("image_type", "BASE64"); ("group_id_list", _face_group self)])
    (Some [("image", b64encode image)]).

(** The search call succeeds and its answer holds [ret_json] under
    ["result"]. *)
Definition search_returns (py_repr : json -> string) (net : network)
    (self : BaiduFaceIdentifyEntity) (image : list Byte.byte) (w : world)
    (ret_json : json) : Prop :=
  ∃ answer,
    fst (search_call py_repr net self image w) = Ok answer ∧
    getitem answer "result" = Ok ret_json.

(** The result carries a top match: the first entry of its user list
    holds the four attributes. *)
Definition is_match (ret_json uid score : json) : Prop :=
  ∃ u,
    first_user ret_json = Ok u ∧
    getitem u ATTR_UID = Ok uid ∧
    getitem u ATTR_SCORE = Ok score ∧
    is_raise (getitem u ATTR_GROUP_ID) = false ∧
    is_raise (getitem u ATTR_USER_INFO) = false.

(** The number a score stands for in a comparison. *)
Definition number_value (x : json) : option Q :=
  match x with
  | JInt z => Some (inject_Z z)
  | JFloat q => Some q
  | JBool b => Some (inject_Z (if b then 1 else 0))
  | _ => None
  end.

(** The path of the file saved for a match. *)
Definition save_file_name (py_repr : json -> string)
    (self : BaiduFaceIdentifyEntity) (uid : json) (now : datetime)
    (confidence : json) : string :=
  _save_path self +:+ py_str py_repr uid +:+ "_" +:+
  strftime_Ymd_HMS now +:+ "_" +:+ py_str py_repr confidence +:+ ".jpg".

(** What the write of [content] at [path] adds to the trace, and how
    it ends. *)
Definition write_events (disk : filesystem) (path : string)
    (content : list Byte.byte) : list event :=
  match disk path content with
  | Written => [WriteFile path content]
  | OpenFailed _ => []
  | WriteFailed _ kept => [WriteFile path kept]
  end.

Definition write_result (disk : filesystem) (path : string)
    (content : list Byte.byte) : result unit :=
  match disk path content with
  | Written => Ok tt
  | OpenFailed e | WriteFailed e _ => Raise e
  end.

(** ["/" in s] *)
Fixpoint has_slash (s : string) : bool :=
  match s with
  | EmptyString => false
  | String c s' => Ascii.eqb c "/" || has_slash s'
  end.

(** The directory a path names a file in: the path up to and including
    its last ["/"]. *)
Fixpoint directory_of (path : string) : string :=
  match path with
  | EmptyString => EmptyString
  | String c rest =>
      if has_slash path then String c (directory_of rest) else EmptyString
  end.

(** Log lines and nothing else. *)
Definition only_logs (evs : list event) : Prop :=
  Forall (fun e => match e with Log _ _ => True | _ => False end) evs.

(** The request of the search call. *)
Definition search_request (py_repr : json -> string) (token : json)
    (self : BaiduFaceIdentifyEntity) (image : list Byte.byte) : request :=
  api_request py_repr token "post" "search"
    (Some [("image_type", "BASE64"); ("group_id_list", _face_group self)])
    (Some [("image", b64encode image)]).

(** The two calls of [update_store]. *)
Definition groups_call (py_repr : json -> string) (net : network) : M json :=
  call_api py_repr net "post" "faceset/group/getlist" None None.

Definition persons_call (py_repr : json -> string) (net : network)
    (group : string) : M json :=
  call_api py_repr net "get" "faceset/group/getusers"
    (Some [("group_id", group)]) None.

Definition groups_request (py_repr : json -> string) (token : json) : request :=
  api_request py_repr token "post" "faceset/group/getlist" None None.

Definition persons_request (py_repr : json -> string) (token : json)
    (group : string) : request :=
  api_request py_repr token "get" "faceset/group/getusers"
    (Some [("group_id", group)]) None.

(** The list-groups call succeeds and reports [G] as [group_id_list]. *)
Definition lists_groups (py_repr : json -> string) (net : network) (w : world)
    (G : list string) : Prop :=
  ∃ answer groups,
    fst (groups_call py_repr net w) = Ok answer ∧
    getitem answer "result" = Ok groups ∧
    getitem groups "group_id_list" = Ok (JList (map JStr G)).

(** The list-persons call for [group] succeeds and reports [P] as
    [user_id_list]. *)
Definition lists_persons (py_repr : json -> string) (net : network) (w : world)
    (group : string) (P : list string) : Prop :=
  ∃ answer persons,
    fst (persons_call py_repr net group w) = Ok answer ∧
    getitem answer "result" = Ok persons ∧
    getitem persons "user_id_list" = Ok (JList (map JStr P)).

(** The dictionary [self._store[group]] ends up as, from [m], once the
    persons [P] are inserted; and the store once the groups [G] are. *)
Definition add_persons (m : gmap string string) (P : list string)
  : gmap string string :=
  foldl (fun m p => <[p := p]> m) m P.

Definition add_groups (U : string -> list string)
    (s : gmap string (gmap string string)) (G : list string)
  : gmap string (gmap string string) :=
  foldl (fun s g => <[g := add_persons ∅ (U g)]> s) s G.

Definition add_entities (es : gmap string BaiduFaceGroupEntity) (G : list string)
  : gmap string BaiduFaceGroupEntity :=
  foldl (fun es g => <[g := {| _id := g; _name := g |}]> es) es G.

(** A world whose client has another store and other entities. *)
Definition with_store (w : world) (s : gmap string (gmap string string))
    (es : gmap string BaiduFaceGroupEntity) (evs : list event) : world :=
  {| api := set_entities (set_store (api w) s) es;
     ATTR_LIST := ATTR_LIST w;
     trace := trace w ++ evs |}.

(** A coroutine that leaves the client object as it found it, whatever
    its outcome. *)
Definition keeps_api {A} (m : M A) : Prop :=
  ∀ w, api (snd (m w)) = api w.

(** A coroutine that leaves the keys of [ATTR_LIST] as they are,
    whatever its outcome. *)
Definition keeps_keys {A} (m : M A) : Prop :=
  ∀ w, attrs_wf w -> attrs_wf (snd (m w)).

(** ** Scenarios

    Concrete hosts and frames on which the statements below are run. *)

(** A stand-in for the interpreter's [str()] of floats and containers. *)
Definition no_repr : json -> string := fun _ => "<repr>".

Definition fresh_world : world :=
  {| api := BaiduFace_init "key" "secret" ∅;
     ATTR_LIST := ATTR_LIST_init;
     trace := [] |}.

(** The scratch dictionary as an earlier match left it. *)
Definition stale_world : world :=
  {| api := BaiduFace_init "key" "secret" ∅;
     ATTR_LIST := [(ATTR_GROUP_ID, JStr "g1"); (ATTR_SCORE, JInt 92);
                   (ATTR_UID, JStr "u1"); (ATTR_USER_INFO, JStr "x")];
     trace := [] |}.

(** A server that answers every request with one status and payload. *)
Definition respond (st : Z) (payload : json) : network :=
  fun r => Ok {| status := st; url := req_url r; json_body := Ok payload |}.

(** A network on which every request times out, or fails to connect. *)
Definition timing_out : network := fun _ => Raise TimeoutError.
Definition unreachable : network := fun _ => Raise ClientError.

Definition door_camera : BaiduFaceIdentifyEntity :=
  {| _camera := "camera.door";
     _confidence := 80;
     _face_group := "g1";
     _save_path := "/config/www/face/" |}.

Definition morning : datetime :=
  {| year := 2024; month := 1; day := 31; hour := 9; minute := 5; second := 59 |}.

Definition frame : list Byte.byte := [Byte.x4d; Byte.x61; Byte.x6e].

(** A disk on which the save directory of [door_camera] exists and no
    directory below it: a file can be written directly in it, and
    [open] raises [FileNotFoundError] anywhere else. *)
Definition face_disk : filesystem := fun path _ =>
  if String.eqb (directory_of path) "/config/www/face/" then Written
  else OpenFailed (OSError "No such file or directory").

(** The same disk with no space left: the file is created and stays
    empty. *)
Definition full_disk : filesystem := fun path _ =>
  if String.eqb (directory_of path) "/config/www/face/"
  then WriteFailed (OSError "No space left on device") []
  else OpenFailed (OSError "No such file or directory").

(** A search answer whose top match is [u1] with the given score. *)
Definition one_match (score : json) : json :=
  JObj [("score", score); ("user_id", JStr "u1");
        ("group_id", JStr "g1"); ("user_info", JStr "x")].

Definition search_answer (score : json) : json :=
  JObj [("result", JObj [("user_list", JList [one_match score])])].

(** A search answer whose top match is a user registered as [a/b]. *)
Definition slash_match : json :=
  JObj [("score", JInt 92); ("user_id", JStr "a/b");
        ("group_id", JStr "g1"); ("user_info", JStr "x")].

Definition slash_match_answer : json :=
  JObj [("result", JObj [("user_list", JList [slash_match])])].

Definition no_match_answer : json := JObj [("result", JNull)].

Definition empty_list_answer : json :=
  JObj [("result", JObj [("user_list", JList [])])].

Definition result_of (fields : list (string * json)) : json :=
  JObj [("result", JObj fields)].

(** A server with one group [g1] holding one person [p1]. *)
Definition one_group_server : network := fun r =>
  match req_params r with
  | None => respond 200 (result_of [("group_id_list", JList [JStr "g1"])]) r
  | Some _ => respond 200 (result_of [("user_id_list", JList [JStr "p1"])]) r
  end.

(** A server with three groups whose person list cannot be fetched for
    the second one. *)
Definition broken_group_server : network := fun r =>
  match req_params r with
  | None =>
      respond 200
        (result_of [("group_id_list", JList [JStr "g1"; JStr "g2"; JStr "g3"])]) r
  | Some params =>
      match dict_get params "group_id" with
      | Some "g2" => Raise ClientError
      | _ => respond 200 (result_of [("user_id_list", JList [JStr "p1"])]) r
      end
  end.

(** ** The rest of [__init__.py]: the group entities *)

Definition DOMAIN : string := "baidu_face_identify".

(** [BaiduFaceGroupEntity.entity_id] *)
Definition entity_id (e : BaiduFaceGroupEntity) : string :=
  DOMAIN +:+ "." +:+ _id e.

(** [BaiduFaceGroupEntity.state]: [len(self._api.store[self._id])] *)
Definition state (a : BaiduFace) (e : BaiduFaceGroupEntity) : result nat :=
  match _store a !! _id e with
  | Some persons => Ok (size persons)
  | None => Raise (KeyError (_id e))
  end.

(** [BaiduFaceGroupEntity.device_state_attributes]: a new dictionary
    filled from the items of [self._api.store[self._id]]. *)
Definition device_state_attributes (a : BaiduFace) (e : BaiduFaceGroupEntity)
  : result (gmap string string) :=
  match _store a !! _id e with
  | Some persons =>
      Ok (map_fold (fun name p_id attr => <[name := p_id]> attr) ∅ persons)
  | None => Raise (KeyError (_id e))
  end.

(** ** The rest of [image_processing.py]: setting up the platform *)

(** [s.endswith("/")] *)
Fixpoint endswith_slash (s : string) : bool :=
  match s with
  | EmptyString => false
  | String c EmptyString => Ascii.eqb c "/"
  | String _ s' => endswith_slash s'
  end.

(** [s.replace(old, new)] for a non-empty [old]: occurrences are
    replaced from the left and do not overlap.  [skip] counts the
    characters of the occurrence just replaced that are still to be
    passed over. *)
Fixpoint replace_from (old new : string) (skip : nat) (s : string) : string :=
  match s with
  | EmptyString => EmptyString
  | String c s' =>
      match skip with
      | S k => replace_from old new k s'
      | O =>
          if String.prefix old s
          then new +:+ replace_from old new (String.length old - 1) s'
          else String c (replace_from old new 0 s')
      end
  end.

Definition str_replace (old new s : string) : string := replace_from old new 0 s.

(** One entry of [config[CONF_SOURCE]]. *)
Record camera_source : Type := {
  source_entity_id : string;
  source_name : option string
}.

(** The [_save_path] that [BaiduFaceIdentifyEntity.__init__] computes
    from the configuration directory and [local_path]. *)
Definition save_path_of (config_dir local_path : string) : string :=
  config_dir +:+ str_replace "local" "www" local_path.

(** The fields [BaiduFaceIdentifyEntity.__init__] sets from its
    arguments.  The display name, which needs the host's
    [split_entity_id], and the creation of the save directory are left
    out. *)
Definition BaiduFaceIdentifyEntity_init (config_dir camera_entity face_group
    local_path : string) (confidence : Q) : BaiduFaceIdentifyEntity :=
  {| _camera := camera_entity;
     _confidence := confidence;
     _face_group := face_group;
     _save_path := save_path_of config_dir local_path |}.

(** [async_setup_platform]: the entities handed to
    [async_add_entities], one per configured camera.  The values read
    from [config] and the configuration directory of the host are its
    arguments. *)
Definition async_setup_platform (config_dir face_group : string) (confidence : Q)
    (local_path : string) (sources : list camera_source)
  : list BaiduFaceIdentifyEntity :=
  let local_path :=
    if endswith_slash local_path then local_path else local_path +:+ "/" in
  map (fun camera =>
         BaiduFaceIdentifyEntity_init config_dir (source_entity_id camera)
           face_group local_path confidence)
      sources.

(** ** More ways to read a run *)

(** The groups whose state refresh was awaited, per [asyncio.wait]. *)
Definition refreshed (t : list event) : list (list string) :=
  omap (fun e => match e with UpdateHaState gs => Some gs | _ => None end) t.

(** A relation between the world before and the world after that a
    coroutine respects whatever its outcome. *)
Definition steps (R : world -> world -> Prop) {A} (m : M A) : Prop :=
  ∀ w, R w (snd (m w)).

(** Every group entity is filed under its own identifier and has an
    entry in the store. *)
Definition backed (a : BaiduFace) : Prop :=
  ∀ g e, _entities a !! g = Some e -> _id e = g ∧ is_Some (_store a !! g).

(** A step that may change the scratch dictionary and nothing else. *)
Definition scratch_only (w w' : world) : Prop :=
  api w' = api w ∧ trace w' = trace w.

(** The events a frame can add once its search call has returned:
    nothing (and then it ended by an exception), a report of no face,
    a report of one face, one file holding the image followed by a
    report of one face, or a file that could not be written to its end
    (and then it ended by the exception of the write). *)
Definition frame_events (image : list Byte.byte) (r : result unit)
    (evs : list event) : Prop :=
  (is_raise r = true ∧ evs = []) ∨
  (r = Ok tt ∧ evs = [ProcessFaces [] 0]) ∨
  (r = Ok tt ∧ ∃ d, evs = [ProcessFaces [d] 1]) ∨
  (r = Ok tt ∧ ∃ path d, evs = [WriteFile path image; ProcessFaces [d] 1]) ∨
  (is_raise r = true ∧ ∃ path kept, evs = [WriteFile path kept]).

(** The list-persons call for [group] succeeds with a null or empty
    result. *)
Definition no_persons (py_repr : json -> string) (net : network) (w : world)
    (group : string) : Prop :=
  ∃ answer persons,
    fst (persons_call py_repr net group w) = Ok answer ∧
    getitem answer "result" = Ok persons ∧
    truthy persons = false.

Definition keeps_backed (w w' : world) : Prop := backed (api w) -> backed (api w').

(** What neither [get_token] nor [update_store] may touch: the
    credentials, the scratch dictionary, files and detections. *)
Definition client_frame (w w' : world) : Prop :=
  _api_key (api w') = _api_key (api w) ∧
  _secret_key (api w') = _secret_key (api w) ∧
  ATTR_LIST w' = ATTR_LIST w ∧
  ∃ evs, trace w' = trace w ++ evs ∧ files_written evs = [] ∧ reported evs = [].

(** [update_store] moreover leaves the token alone. *)
Definition sync_frame (w w' : world) : Prop :=
  _token (api w') = _token (api w) ∧ client_frame w w'.

(** A server that answers the token request with a token and the two
    listing calls as [one_group_server] does. *)
Definition token_then_one_group : network := fun r =>
  if String.eqb (req_url r) BAIDU_TOKEN_API_URL
  then respond 200 (JObj [("access_token", JStr "T1")]) r
  else one_group_server r.

(** A server with two groups, the second of which has a null person
    list. *)
Definition empty_group_server : network := fun r =>
  match req_params r with
  | None =>
      respond 200 (result_of [("group_id_list", JList [JStr "g1"; JStr "g2"])]) r
  | Some params =>
      match dict_get params "group_id" with
      | Some "g2" => respond 200 (JObj [("result", JNull)]) r
      | _ => respond 200 (result_of [("user_id_list", JList [JStr "p1"; JStr "p2"])]) r
      end
  end.

(** A fresh client that holds the token [T1]. *)
Definition tokened_world : world :=
  {| api := set_token (BaiduFace_init "key" "secret" ∅) (JStr "T1");
     ATTR_LIST := ATTR_LIST_init;
     trace := [] |}.

(** A client with two groups, both empty. *)
Definition two_group_client : BaiduFace :=
  let new_group g a :=
    set_entities (set_store a (<[g := ∅]> (_store a)))
      (<[g := {| _id := g; _name := g |}]> (_entities a)) in
  new_group "g2" (new_group "g1" (BaiduFace_init "key" "secret" ∅)).

(** A search answer whose top match has a name and a score only. *)
Definition partial_match : json :=
  JObj [("score", JInt 92); ("user_id", JStr "u1")].

Definition partial_match_answer : json :=
  JObj [("result", JObj [("user_list", JList [partial_match])])].

(** A search answer that reports an error and has no [result]. *)
Definition error_only_answer : json :=
  JObj [("error_code", JInt 222207); ("error_msg", JStr "match user is not found")].

(** A server that sends a status and headers, then drops the
    connection while the body is read. *)
Definition dropping_body : network :=
  fun r => Ok {| status := 200; url := req_url r; json_body := Raise ClientError |}.

(** A network on which the token endpoint cannot be reached while the
    face API answers. *)
Definition token_endpoint_down : network := fun r =>
  if String.eqb (req_url r) BAIDU_TOKEN_API_URL then Raise ClientError
  else respond 200 (JObj [("result", JNull)]) r.

(** A token endpoint that rejects in the way of an OAuth server: the
    [error] field is a string. *)
Definition oauth_rejection : json :=
  JObj [("error", JStr "invalid_client");
        ("error_description", JStr "unknown client id")].


(** * Properties *)

Ltac unfold_m :=
  unfold mbind, M_bind, mret, M_ret, try_except, lift, raise, log, emit,
    get_api, modify_api, get_attrs, put_attrs, await_request, await_json in *.

Lemma with_trace_app w evs evs' :
  with_trace (with_trace w evs) evs' = with_trace w (evs ++ evs').
Proof. unfold with_trace; simpl. by rewrite <- app_assoc. Qed.

(** Closes a goal [∃ r evs, run1 = (r, _ ++ evs) ∧ run2 = (r, _ ++ evs) ∧ ...]
    once both runs are evaluated. *)
Ltac close_local :=
  eexists _, _; rewrite <- ?app_assoc; simpl;
  repeat split; repeat constructor.

(** Running a bind whose first part is known. *)
Lemma bind_run {A B} (m : M A) (f : A -> M B) w a w' :
  m w = (Ok a, w') -> (m ≫= f) w = f a w'.
Proof. intros H. unfold mbind, M_bind. by rewrite H. Qed.

Lemma bind_run_raise {A B} (m : M A) (f : A -> M B) w e w' :
  m w = (Raise e, w') -> (m ≫= f) w = (Raise e, w').
Proof. intros H. unfold mbind, M_bind. by rewrite H. Qed.

Section Properties.

Variable py_repr : json -> string.

(** [call_api] sends exactly one request, touches only the trace, and
    its outcome depends on the world through the token alone. *)
Lemma call_api_local net method function params data w1 w2 :
  _token (api w1) = _token (api w2) ->
  ∃ r evs,
    call_api py_repr net method function params data w1 = (r, with_trace w1 evs) ∧
    call_api py_repr net method function params data w2 = (r, with_trace w2 evs) ∧
    requests evs =
      [api_request py_repr (_token (api w1)) method function params data] ∧
    quiet evs.
Proof.
  intros Htok. unfold call_api, call_api_except, with_trace, quiet. unfold_m. simpl.
  rewrite <- Htok.
  fold (api_request py_repr (_token (api w1)) method function params data).
  destruct (net _) as [resp | e].
  - destruct (json_body resp) as [answer | e]; simpl.
    + destruct (Z.ltb (status resp) 300); simpl.
      * close_local.
      * destruct (error_message answer) as [msg | e]; simpl;
          [| destruct e; simpl]; close_local.
    + destruct e; simpl; close_local.
  - destruct e; simpl; close_local.
Qed.

Lemma call_api_frame net method function params data w :
  ∃ r evs,
    call_api py_repr net method function params data w = (r, with_trace w evs) ∧
    requests evs =
      [api_request py_repr (_token (api w)) method function params data] ∧
    quiet evs.
Proof.
  destruct (call_api_local net method function params data w w eq_refl)
    as (r & evs & H & _ & ?). eauto.
Qed.

(** ** The scratch dictionary *)

Lemma attrs_wf_inv w :
  attrs_wf w ->
  ∃ v1 v2 v3 v4,
    ATTR_LIST w = [(ATTR_GROUP_ID, v1); (ATTR_SCORE, v2);
                   (ATTR_UID, v3); (ATTR_USER_INFO, v4)].
Proof.
  unfold attrs_wf. destruct (ATTR_LIST w) as [|[k1 v1] [|[k2 v2] [|[k3 v3] [|[k4 v4] [|]]]]];
    simpl; try discriminate.
  intros [= -> -> -> ->]. eauto.
Qed.

Lemma reset_run w :
  attrs_wf w ->
  for_each (dict_keys (ATTR_LIST w)) (fun key => attr_set key (JStr "null")) w =
  (Ok tt, {| api := api w; ATTR_LIST := ATTR_LIST_init; trace := trace w |}).
Proof.
  intros (v1 & v2 & v3 & v4 & H)%attrs_wf_inv.
  destruct w as [a d t]. simpl in *. subst d. reflexivity.
Qed.

Lemma fill_run ret_json u gid score uid info w :
  attrs_wf w ->
  first_user ret_json = Ok u ->
  getitem u ATTR_GROUP_ID = Ok gid ->
  getitem u ATTR_SCORE = Ok score ->
  getitem u ATTR_UID = Ok uid ->
  getitem u ATTR_USER_INFO = Ok info ->
  for_each (dict_keys (ATTR_LIST w))
    (fun key =>
       v ← lift (result_bind (first_user ret_json) (fun u => getitem u key));
       attr_set key v) w =
  (Ok tt,
   {| api := api w;
      ATTR_LIST := [(ATTR_GROUP_ID, gid); (ATTR_SCORE, score);
                    (ATTR_UID, uid); (ATTR_USER_INFO, info)];
      trace := trace w |}).
Proof.
  intros (v1 & v2 & v3 & v4 & H)%attrs_wf_inv Hu Hg Hs Hi Hinfo.
  destruct w as [a d t]. simpl in *. subst d.
  unfold attr_set. unfold_m. simpl. rewrite Hu. simpl.
  unfold ATTR_GROUP_ID, ATTR_SCORE, ATTR_UID, ATTR_USER_INFO in *.
  rewrite Hg. simpl. rewrite Hs. simpl. rewrite Hi. simpl. rewrite Hinfo. reflexivity.
Qed.

Lemma first_user_truthy ret_json u :
  first_user ret_json = Ok u -> truthy ret_json = true.
Proof.
  unfold first_user, getitem. destruct ret_json as [| | | | | |[|]]; simpl; try discriminate.
  reflexivity.
Qed.

Lemma gt_float_value x q threshold :
  number_value x = Some q ->
  gt_float x threshold = Ok (Qlt_bool threshold q).
Proof. destruct x; simpl; intros [= <-]; reflexivity. Qed.

Lemma Qlt_bool_true a b : (a < b)%Q -> Qlt_bool a b = true.
Proof.
  intros H. unfold Qlt_bool. destruct (Qle_bool b a) eqn:E; [|reflexivity].
  apply Qle_bool_iff in E. exfalso. exact (Qlt_not_le _ _ H E).
Qed.

Lemma Qlt_bool_false a b : (b <= a)%Q -> Qlt_bool a b = false.
Proof.
  intros H. unfold Qlt_bool. apply Qle_bool_iff in H. by rewrite H.
Qed.

(** ** Frame processing, piece by piece *)

Lemma parse_no_match disk self now image ret_json w :
  attrs_wf w ->
  truthy ret_json = false ->
  parse_data py_repr disk self now image ret_json w =
  (Ok tt, {| api := api w; ATTR_LIST := ATTR_LIST_init;
             trace := trace w ++ [ProcessFaces [] 0] |}).
Proof.
  intros Hwf Hno. unfold parse_data.
  rewrite (bind_run get_attrs _ w _ w eq_refl).
  rewrite (bind_run _ _ _ _ _ (reset_run w Hwf)), Hno.
  reflexivity.
Qed.

Lemma write_file_run disk path content w :
  write_file disk path content w =
  (write_result disk path content, with_trace w (write_events disk path content)).
Proof.
  unfold write_file, write_result, write_events, with_trace.
  destruct (disk path content); unfold_m; simpl; try reflexivity.
  destruct w; simpl. by rewrite app_nil_r.
Qed.

(** A match: the dictionary is filled, the frame is saved when the
    score is above the threshold, and the match is reported unless the
    write raised. *)
Lemma parse_match disk self now image ret_json u gid score uid info above w :
  attrs_wf w ->
  first_user ret_json = Ok u ->
  getitem u ATTR_GROUP_ID = Ok gid ->
  getitem u ATTR_SCORE = Ok score ->
  getitem u ATTR_UID = Ok uid ->
  getitem u ATTR_USER_INFO = Ok info ->
  gt_float score (_confidence self) = Ok above ->
  let path := save_file_name py_repr self uid now score in
  let saved := if above then write_result disk path image else Ok tt in
  parse_data py_repr disk self now image ret_json w =
  (saved,
   {| api := api w;
      ATTR_LIST := [(ATTR_GROUP_ID, gid); (ATTR_SCORE, score);
                    (ATTR_UID, uid); (ATTR_USER_INFO, info)];
      trace := trace w ++
        (if above then write_events disk path image else []) ++
        (if is_raise saved then []
         else [ProcessFaces [ {| det_name := uid; det_confidence := score |} ] 1]) |}).
Proof.
  intros Hwf Hu Hg Hs Hi Hinfo Habove path saved. unfold parse_data.
  rewrite (bind_run get_attrs _ w _ w eq_refl).
  rewrite (bind_run _ _ _ _ _ (reset_run w Hwf)), (first_user_truthy _ _ Hu).
  set (w1 := {| api := api w; ATTR_LIST := ATTR_LIST_init; trace := trace w |}).
  assert (Hwf1 : attrs_wf w1) by reflexivity.
  assert (Hc : result_bind (first_user ret_json) (fun u => getitem u ATTR_SCORE)
               = Ok score) by (rewrite Hu; exact Hs).
  rewrite Hc.
  match goal with
  | |- (?known ≫= _) w1 = _ =>
      assert (Hk : known w1 =
        (match saved with
         | Ok _ => Ok [ {| det_name := uid; det_confidence := score |} ]
         | Raise e => Raise e
         end,
         {| api := api w;
            ATTR_LIST := [(ATTR_GROUP_ID, gid); (ATTR_SCORE, score);
                          (ATTR_UID, uid); (ATTR_USER_INFO, info)];
            trace := trace w ++
              (if above then write_events disk path image else []) |}))
  end.
  { rewrite (bind_run (lift (Ok score)) _ w1 _ w1 eq_refl). cbv beta.
    rewrite (bind_run get_attrs _ w1 _ w1 eq_refl). cbv beta.
    rewrite (bind_run _ _ _ _ _
               (fill_run ret_json u gid score uid info w1 Hwf1 Hu Hg Hs Hi Hinfo)).
    rewrite Habove.
    rewrite (bind_run (lift (Ok above)) _ _ _ _ eq_refl).
    set (w2 := {| api := api w1;
                  ATTR_LIST := [(ATTR_GROUP_ID, gid); (ATTR_SCORE, score);
                                (ATTR_UID, uid); (ATTR_USER_INFO, info)];
                  trace := trace w1 |}).
    assert (Hget0 : attr_get ATTR_UID w2 = (Ok uid, w2)) by reflexivity.
    assert (Hget : ∀ evs, attr_get ATTR_UID (with_trace w2 evs)
                          = (Ok uid, with_trace w2 evs)) by reflexivity.
    subst saved. destruct above.
    - match goal with
      | |- ((?m ≫= _) w2 = _) =>
          assert (Hsave : m w2 = (write_result disk path image,
                                  with_trace w2 (write_events disk path image)))
      end.
      { rewrite (bind_run _ _ _ _ _ Hget0). apply write_file_run. }
      destruct (write_result disk path image) as [[]|e] eqn:Eres.
      + rewrite (bind_run _ _ _ _ _ Hsave).
        rewrite (bind_run _ _ _ _ _ (Hget _)). reflexivity.
      + rewrite (bind_run_raise _ _ _ _ _ Hsave). reflexivity.
    - unfold_m; simpl; rewrite ?app_nil_r; reflexivity. }
  clearbody saved. destruct saved as [[]|e].
  - rewrite (bind_run _ _ _ _ _ Hk). unfold_m. simpl. by rewrite <- app_assoc.
  - rewrite (bind_run_raise _ _ _ _ _ Hk). simpl. by rewrite app_nil_r.
Qed.


Lemma quiet_app evs evs' : quiet evs -> quiet evs' -> quiet (evs ++ evs').
Proof.
  unfold quiet, files_written, reported. intros (Hf & Hr & Hu) (Hf' & Hr' & Hu').
  rewrite !omap_app, Hf, Hr, Hf', Hr'. repeat split; [done..|]. by apply Forall_app.
Qed.

(** The search call returned: the frame goes on to [parse_data]. *)
Lemma process_search_ok net disk self now image w ret_json :
  search_returns py_repr net self image w ret_json ->
  ∃ evs, quiet evs ∧
    async_process_image py_repr net disk self now image w =
    parse_data py_repr disk self now image ret_json (with_trace w evs).
Proof.
  intros (answer & Hcall & Hres). unfold search_call in Hcall.
  destruct (call_api_frame net "post" "search"
              (Some [("image_type", "BASE64"); ("group_id_list", _face_group self)])
              (Some [("image", b64encode image)]) w) as (r & evs & Hrun & _ & Hq).
  rewrite Hrun in Hcall. simpl in Hcall. subst r.
  exists evs. split; [done|].
  unfold async_process_image, try_except.
  unfold mbind at 1, M_bind at 1.
  rewrite (bind_run _ _ _ _ _ Hrun).
  rewrite (bind_run (lift (getitem answer "result")) _ _ ret_json (with_trace w evs))
    by (unfold lift; by rewrite Hres).
  reflexivity.
Qed.

(** The search call raised [HomeAssistantError]: logged, and the frame
    ends without a call to [async_process_faces]. *)
Lemma process_search_caught net disk self now image w msg :
  fst (search_call py_repr net self image w) = Raise (HomeAssistantError msg) ->
  ∃ evs, quiet evs ∧
    async_process_image py_repr net disk self now image w =
    (Ok tt, with_trace w (evs ++ [Log "error" "Can't process image on Baidu face: %s"])).
Proof.
  intros Hcall. unfold search_call in Hcall.
  destruct (call_api_frame net "post" "search"
              (Some [("image_type", "BASE64"); ("group_id_list", _face_group self)])
              (Some [("image", b64encode image)]) w) as (r & evs & Hrun & _ & Hq).
  rewrite Hrun in Hcall. simpl in Hcall. subst r.
  exists evs. split; [done|].
  unfold async_process_image, try_except.
  unfold mbind at 1, M_bind at 1.
  rewrite (bind_run_raise _ _ _ _ _ Hrun).
  unfold_m. simpl. unfold with_trace. simpl. by rewrite <- app_assoc.
Qed.

(** The search call raised anything else: the [except] clause does not
    match and the exception leaves [async_process_image]. *)
Lemma process_search_uncaught net disk self now image w e :
  fst (search_call py_repr net self image w) = Raise e ->
  (∀ msg, e ≠ HomeAssistantError msg) ->
  ∃ evs, quiet evs ∧
    async_process_image py_repr net disk self now image w = (Raise e, with_trace w evs).
Proof.
  intros Hcall Hne. unfold search_call in Hcall.
  destruct (call_api_frame net "post" "search"
              (Some [("image_type", "BASE64"); ("group_id_list", _face_group self)])
              (Some [("image", b64encode image)]) w) as (r & evs & Hrun & _ & Hq).
  rewrite Hrun in Hcall. simpl in Hcall. subst r.
  exists evs. split; [done|].
  unfold async_process_image, try_except.
  unfold mbind at 1, M_bind at 1.
  rewrite (bind_run_raise _ _ _ _ _ Hrun).
  destruct e; try reflexivity. by destruct (Hne msg).
Qed.

(** A timeout while the request is awaited leaves [response] unbound
    in the handler that logs [response.url]. *)
Lemma call_api_request_timeout net method function params data w :
  net (api_request py_repr (_token (api w)) method function params data)
    = Raise TimeoutError ->
  call_api py_repr net method function params data w =
  (Raise (UnboundLocalError "response"),
   with_trace w [Request (api_request py_repr (_token (api w)) method function
                            params data)]).
Proof.
  intros H. unfold call_api, call_api_except. unfold_m. simpl.
  fold (api_request py_repr (_token (api w)) method function params data).
  by rewrite H.
Qed.

(** A status below 300 with a JSON body: the body is the answer; a
    status of 300 or more whose body reports [error.message]: that
    message is raised. *)
Lemma call_api_accepts net method function params data w resp answer :
  net (api_request py_repr (_token (api w)) method function params data) = Ok resp ->
  json_body resp = Ok answer ->
  status resp < 300 ->
  fst (call_api py_repr net method function params data w) = Ok answer.
Proof.
  intros Hnet Hbody Hst. unfold call_api, call_api_except. unfold_m. simpl.
  fold (api_request py_repr (_token (api w)) method function params data).
  rewrite Hnet. simpl. rewrite Hbody. simpl.
  apply Z.ltb_lt in Hst. by rewrite Hst.
Qed.

Lemma call_api_rejects net method function params data w resp answer msg :
  net (api_request py_repr (_token (api w)) method function params data) = Ok resp ->
  json_body resp = Ok answer ->
  300 <= status resp ->
  error_message answer = Ok msg ->
  fst (call_api py_repr net method function params data w)
    = Raise (HomeAssistantError msg).
Proof.
  intros Hnet Hbody Hst Hmsg. unfold call_api, call_api_except. unfold_m. simpl.
  fold (api_request py_repr (_token (api w)) method function params data).
  rewrite Hnet. simpl. rewrite Hbody. simpl.
  apply Z.ltb_ge in Hst. rewrite Hst. simpl. by rewrite Hmsg.
Qed.

(** A transport failure, at the request or while the body is read,
    becomes the generic network error. *)
Lemma call_api_client_error net method function params data w :
  (net (api_request py_repr (_token (api w)) method function params data)
     = Raise ClientError ∨
   ∃ resp, net (api_request py_repr (_token (api w)) method function params data)
             = Ok resp ∧ json_body resp = Raise ClientError) ->
  fst (call_api py_repr net method function params data w) =
  Raise (HomeAssistantError (JStr "Network error on baidu face api.")).
Proof.
  intros H. unfold call_api, call_api_except. unfold_m. simpl.
  fold (api_request py_repr (_token (api w)) method function params data).
  destruct H as [-> | (resp & -> & Hb)]; simpl; [done|]. by rewrite Hb.
Qed.

(** ** Whole frames *)

Lemma process_no_match net disk self now image w ret_json :
  attrs_wf w ->
  search_returns py_repr net self image w ret_json ->
  truthy ret_json = false ->
  ∃ w' (evs : list event),
    async_process_image py_repr net disk self now image w = (Ok tt, w') ∧
    api w' = api w ∧
    ATTR_LIST w' = ATTR_LIST_init ∧
    trace w' = trace w ++ evs ∧
    files_written evs = [] ∧
    reported evs = [[]].
Proof.
  intros Hwf Hret Hno.
  destruct (process_search_ok net disk self now image w ret_json Hret)
    as (evs & (Hf & Hr & _) & ->).
  rewrite parse_no_match by done.
  eexists _, (evs ++ [ProcessFaces [] 0]). simpl.
  repeat split; [by rewrite app_assoc|..].
  - unfold files_written in *. by rewrite omap_app, Hf.
  - unfold reported in *. by rewrite omap_app, Hr.
Qed.

Lemma process_match net disk self now image w ret_json uid score above :
  attrs_wf w ->
  search_returns py_repr net self image w ret_json ->
  is_match ret_json uid score ->
  gt_float score (_confidence self) = Ok above ->
  let path := save_file_name py_repr self uid now score in
  let saved := if above then write_result disk path image else Ok tt in
  ∃ w' (evs : list event),
    async_process_image py_repr net disk self now image w = (saved, w') ∧
    api w' = api w ∧
    dict_get (ATTR_LIST w') ATTR_UID = Some uid ∧
    trace w' = trace w ++ evs ∧
    files_written evs =
      (if above then files_written (write_events disk path image) else []) ∧
    reported evs =
      (if is_raise saved then []
       else [[ {| det_name := uid; det_confidence := score |} ]]).
Proof.
  intros Hwf Hret (u & Hu & Hi & Hs & Hg & Hinfo) Habove path saved.
  destruct (process_search_ok net disk self now image w ret_json Hret)
    as (evs & (Hf & Hr & _) & ->).
  destruct (getitem u ATTR_GROUP_ID) as [gid|] eqn:Eg; [|done].
  destruct (getitem u ATTR_USER_INFO) as [info|] eqn:Einfo; [|done].
  rewrite (parse_match disk self now image ret_json u gid score uid info above) by done.
  fold path. fold saved.
  eexists _, (evs ++
    (if above then write_events disk path image else []) ++
    (if is_raise saved then []
     else [ProcessFaces [ {| det_name := uid; det_confidence := score |} ] 1])).
  simpl. split; [reflexivity|]. repeat split; [by rewrite <- app_assoc|..].
  - unfold files_written in *. rewrite !omap_app, Hf. simpl.
    destruct (is_raise saved); destruct above; simpl; by rewrite ?app_nil_r.
  - unfold reported in *. rewrite !omap_app, Hr. subst saved. simpl.
    unfold write_result, write_events.
    destruct above; [destruct (disk path image)|]; reflexivity.
Qed.

(** ** Where the file goes *)

Lemma prefix_append (s t : string) : String.prefix s (s +:+ t) = true.
Proof.
  induction s as [|c s IH]; simpl; [by destruct t|].
  destruct (Ascii.ascii_dec c c); [exact IH | done].
Qed.

Lemma has_slash_append s t : has_slash (s +:+ t) = has_slash s || has_slash t.
Proof.
  induction s as [|c s IH]; simpl; [done|]. rewrite IH. by rewrite orb_assoc.
Qed.

Lemma endswith_has_slash s : endswith_slash s = true -> has_slash s = true.
Proof.
  induction s as [|c s IH]; [done|]. destruct s as [|c' s'].
  - simpl. intros ->. reflexivity.
  - intros H. change (has_slash (String c (String c' s')))
      with (Ascii.eqb c "/" || has_slash (String c' s')).
    rewrite IH; [by rewrite orb_true_r | exact H].
Qed.

Lemma directory_of_name n : has_slash n = false -> directory_of n = EmptyString.
Proof. destruct n as [|c n]; [done|]. intros H. cbn [directory_of]. by rewrite H. Qed.

(** A name without separator, appended to a directory that ends with
    one, names a file of that directory. *)
Lemma directory_of_append d n :
  endswith_slash d = true -> has_slash n = false -> directory_of (d +:+ n) = d.
Proof.
  intros Hd Hn. induction d as [|c d IH]; [done|].
  change (String c d +:+ n) with (String c (d +:+ n)). cbn [directory_of].
  assert (Hs : has_slash (String c (d +:+ n)) = true).
  { change (String c (d +:+ n)) with (String c d +:+ n).
    by rewrite has_slash_append, (endswith_has_slash _ Hd). }
  rewrite Hs. f_equal. destruct d as [|c' d'].
  - simpl. by apply directory_of_name.
  - apply IH. exact Hd.
Qed.

Lemma string_of_uint_no_slash d : has_slash (NilEmpty.string_of_uint d) = false.
Proof. induction d; simpl; done. Qed.

Lemma str_of_Z_no_slash z : has_slash (str_of_Z z) = false.
Proof.
  unfold str_of_Z, NilZero.string_of_int, NilZero.string_of_uint.
  destruct (Z.to_int z) as [d | d]; destruct d; simpl;
    try reflexivity; apply string_of_uint_no_slash.
Qed.

Lemma strftime_no_slash now : has_slash (strftime_Ymd_HMS now) = false.
Proof.
  assert (Hpad : ∀ n, has_slash (pad2 n) = false).
  { intros n. unfold pad2. destruct (Z.ltb n 10); [|apply str_of_Z_no_slash].
    rewrite has_slash_append. simpl. apply str_of_Z_no_slash. }
  unfold strftime_Ymd_HMS.
  rewrite !has_slash_append, !Hpad, str_of_Z_no_slash. reflexivity.
Qed.

(** C1 (amended): when the search call succeeds and returns a match
    whose confidence is strictly above the configured threshold, the
    frame writes at [{save_path}{userId}_{timestamp}_{confidence}.jpg].
    If the disk takes the file, exactly that one file is written,
    holding the image, and exactly one detection (name = matched user
    id, confidence = matched score) is handed to the host.  If [open]
    raises, or the write does, the frame ends by that exception and
    hands no detection to the host; the file then does not exist, or
    holds what the failed write left.  The file lies in the save
    directory itself when the save path ends with a separator and
    neither the user id nor the printed confidence holds one. *)
Theorem process_above_threshold net disk self now image w ret_json uid score q :
  attrs_wf w ->
  search_returns py_repr net self image w ret_json ->
  is_match ret_json uid score ->
  number_value score = Some q ->
  (_confidence self < q)%Q ->
  let path := save_file_name py_repr self uid now score in
  let run := async_process_image py_repr net disk self now image w in
  ∃ evs : list event,
    trace (snd run) = trace w ++ evs ∧
    match disk path image with
    | Written =>
        fst run = Ok tt ∧
        files_written evs = [(path, image)] ∧
        reported evs = [[ {| det_name := uid; det_confidence := score |} ]]
    | OpenFailed e =>
        fst run = Raise e ∧
        files_written evs = [] ∧
        reported evs = []
    | WriteFailed e kept =>
        fst run = Raise e ∧
        files_written evs = [(path, kept)] ∧
        reported evs = []
    end ∧
    (endswith_slash (_save_path self) = true ->
     has_slash (py_str py_repr uid) = false ->
     has_slash (py_str py_repr score) = false ->
     directory_of path = _save_path self).
Proof.
  intros Hwf Hret Hm Hq Hlt path run.
  destruct (process_match net disk self now image w ret_json uid score true Hwf Hret Hm)
    as (w' & evs & Hrun & _ & _ & Ht & Hf & Hr).
  { rewrite (gt_float_value _ _ _ Hq). f_equal. by apply Qlt_bool_true. }
  fold path in Hrun, Hf, Hr. fold run in Hrun.
  exists evs. rewrite Hrun. split; [exact Ht|]. split.
  - unfold write_result, write_events in *. simpl.
    destruct (disk path image); simpl in *; by repeat split.
  - intros Hend Huid Hscore. unfold path, save_file_name.
    apply directory_of_append; [exact Hend|].
    by rewrite !has_slash_append, Huid, Hscore, strftime_no_slash.
Qed.

(** C6: a frame with no returned match reports an empty detection list
    and writes no file; a frame whose match has a confidence below the
    threshold reports exactly one detection and writes no file. *)
Theorem process_writes_no_file net disk self now image w ret_json :
  attrs_wf w ->
  search_returns py_repr net self image w ret_json ->
  (truthy ret_json = false ->
   ∃ w' (evs : list event),
     async_process_image py_repr net disk self now image w = (Ok tt, w') ∧
     trace w' = trace w ++ evs ∧
     reported evs = [[]] ∧
     files_written evs = []) ∧
  (∀ uid score q,
     is_match ret_json uid score ->
     number_value score = Some q ->
     (q < _confidence self)%Q ->
     ∃ w' (evs : list event),
       async_process_image py_repr net disk self now image w = (Ok tt, w') ∧
       trace w' = trace w ++ evs ∧
       reported evs = [[ {| det_name := uid; det_confidence := score |} ]] ∧
       files_written evs = []).
Proof.
  intros Hwf Hret. split.
  - intros Hno.
    destruct (process_no_match net disk self now image w ret_json Hwf Hret Hno)
      as (w' & evs & ? & _ & _ & ? & ? & ?).
    by exists w', evs.
  - intros uid score q Hm Hq Hlt.
    destruct (process_match net disk self now image w ret_json uid score false Hwf Hret Hm)
      as (w' & evs & ? & _ & _ & ? & ? & ?).
    { rewrite (gt_float_value _ _ _ Hq). f_equal.
      apply Qlt_bool_false. by apply Qlt_le_weak. }
    by exists w', evs.
Qed.

(** ** The client object is read, never written, by a frame *)

Lemma keeps_ret {A} (a : A) : keeps_api (mret a).
Proof. by intros w. Qed.

Lemma keeps_raise {A} e : keeps_api (@raise A e).
Proof. by intros w. Qed.

Lemma keeps_lift {A} (r : result A) : keeps_api (lift r).
Proof. by intros w. Qed.

Lemma keeps_emit e : keeps_api (emit e).
Proof. by intros w. Qed.

Lemma keeps_get_attrs : keeps_api get_attrs.
Proof. by intros w. Qed.

Lemma keeps_put_attrs d : keeps_api (put_attrs d).
Proof. by intros w. Qed.

Lemma keeps_bind {A B} (m : M A) (f : A -> M B) :
  keeps_api m -> (∀ a, keeps_api (f a)) -> keeps_api (m ≫= f).
Proof.
  intros Hm Hf w. unfold mbind, M_bind. specialize (Hm w).
  destruct (m w) as [[a | e] w1]; simpl in *; [|done].
  by rewrite Hf.
Qed.

Lemma keeps_try_except {A} (body : M A) handler :
  keeps_api body -> (∀ e, keeps_api (handler e)) -> keeps_api (try_except body handler).
Proof.
  intros Hm Hh w. unfold try_except. specialize (Hm w).
  destruct (body w) as [[a | e] w1]; simpl in *; [done|].
  by rewrite Hh.
Qed.

Lemma keeps_for_each {A} (xs : list A) body :
  (∀ x, keeps_api (body x)) -> keeps_api (for_each xs body).
Proof.
  intros Hb. induction xs as [|x xs IH]; simpl.
  - apply keeps_ret.
  - apply keeps_bind; [apply Hb | intros _; apply IH].
Qed.

Lemma keeps_call_api net method function params data :
  keeps_api (call_api py_repr net method function params data).
Proof.
  intros w.
  destruct (call_api_frame net method function params data w) as (r & evs & -> & _).
  reflexivity.
Qed.

Create HintDb frame.
#[local] Hint Resolve keeps_ret keeps_raise keeps_lift keeps_emit keeps_get_attrs
  keeps_put_attrs keeps_call_api : frame.

Lemma keeps_attr_set key v : keeps_api (attr_set key v).
Proof. unfold attr_set. apply keeps_bind; auto with frame. Qed.

Lemma keeps_attr_get key : keeps_api (attr_get key).
Proof.
  unfold attr_get. apply keeps_bind; [auto with frame|].
  intros d. destruct (dict_get d key); auto with frame.
Qed.

Lemma keeps_write_file disk path content :
  keeps_api (write_file disk path content).
Proof. intros w. by rewrite write_file_run. Qed.

#[local] Hint Resolve keeps_attr_set keeps_attr_get keeps_write_file : frame.

Lemma keeps_parse_data disk self now image ret_json :
  keeps_api (parse_data py_repr disk self now image ret_json).
Proof.
  unfold parse_data.
  apply keeps_bind; [auto with frame | intros d].
  apply keeps_bind; [apply keeps_for_each; auto with frame | intros _].
  apply keeps_bind; [| intros; auto with frame].
  destruct (truthy ret_json); [| auto with frame].
  apply keeps_bind; [auto with frame | intros confidence].
  apply keeps_bind; [auto with frame | intros d'].
  apply keeps_bind.
  { apply keeps_for_each. intros key. apply keeps_bind; auto with frame. }
  intros _. apply keeps_bind; [auto with frame | intros above].
  apply keeps_bind.
  { destruct above; [| auto with frame]. apply keeps_bind; auto with frame. }
  intros _. apply keeps_bind; auto with frame.
Qed.

(** C10: whatever the outcome of a frame, the client object -- its
    group/person store and its token -- is what it was before. *)
Theorem process_keeps_client net disk self now image w :
  let w' := snd (async_process_image py_repr net disk self now image w) in
  api w' = api w ∧
  _store (api w') = _store (api w) ∧
  _token (api w') = _token (api w).
Proof.
  assert (H : keeps_api (async_process_image py_repr net disk self now image)).
  { unfold async_process_image. apply keeps_bind.
    - apply keeps_try_except.
      + apply keeps_bind; [auto with frame | intros answer].
        apply keeps_bind; auto with frame.
      + intros []; auto with frame.
    - intros [ret_json|]; [apply keeps_parse_data | auto with frame]. }
  simpl. by rewrite (H w).
Qed.

(** ** The keys of the scratch dictionary are an invariant *)

Lemma dict_keys_dict_set {V} (d : list (string * V)) key v :
  key ∈ dict_keys d -> dict_keys (dict_set d key v) = dict_keys d.
Proof.
  induction d as [|[k v0] d IH]; simpl; intros Hin.
  - by apply not_elem_of_nil in Hin.
  - destruct (String.eqb k key) eqn:E; simpl; [done|].
    apply elem_of_cons in Hin as [-> | Hin].
    + by rewrite String.eqb_refl in E.
    + by rewrite IH.
Qed.

Lemma kk_ret {A} (a : A) : keeps_keys (mret a).
Proof. by intros w. Qed.

Lemma kk_raise {A} e : keeps_keys (@raise A e).
Proof. by intros w. Qed.

Lemma kk_lift {A} (r : result A) : keeps_keys (lift r).
Proof. by intros w. Qed.

Lemma kk_emit e : keeps_keys (emit e).
Proof. by intros w. Qed.

Lemma kk_bind {A B} (m : M A) (f : A -> M B) :
  keeps_keys m -> (∀ a, keeps_keys (f a)) -> keeps_keys (m ≫= f).
Proof.
  intros Hm Hf w Hwf. unfold mbind, M_bind. specialize (Hm w Hwf).
  destruct (m w) as [[a | e] w1]; simpl in *; [|done].
  by apply Hf.
Qed.

(** What [get_attrs] hands to the rest has the keys of the world. *)
Lemma kk_get_attrs {B} (f : list (string * json) -> M B) :
  (∀ d, dict_keys d = dict_keys ATTR_LIST_init -> keeps_keys (f d)) ->
  keeps_keys (get_attrs ≫= f).
Proof. intros Hf w Hwf. by apply (Hf (ATTR_LIST w) Hwf w). Qed.

Lemma kk_try_except {A} (body : M A) handler :
  keeps_keys body -> (∀ e, keeps_keys (handler e)) -> keeps_keys (try_except body handler).
Proof.
  intros Hm Hh w Hwf. unfold try_except. specialize (Hm w Hwf).
  destruct (body w) as [[a | e] w1]; simpl in *; [done|].
  by apply Hh.
Qed.

Lemma kk_for_each {A} (xs : list A) body :
  (∀ x, x ∈ xs -> keeps_keys (body x)) -> keeps_keys (for_each xs body).
Proof.
  induction xs as [|x xs IH]; intros Hb; simpl.
  - apply kk_ret.
  - apply kk_bind; [apply Hb; by left | intros _; apply IH].
    intros y Hy. apply Hb. by right.
Qed.

Lemma kk_attr_set key v :
  key ∈ dict_keys ATTR_LIST_init -> keeps_keys (attr_set key v).
Proof.
  intros Hin w Hwf. unfold attr_set, attrs_wf in *. unfold_m. simpl.
  rewrite dict_keys_dict_set; [done | by rewrite Hwf].
Qed.

Lemma kk_attr_get key : keeps_keys (attr_get key).
Proof.
  intros w Hwf. unfold attr_get. unfold_m. simpl.
  by destruct (dict_get (ATTR_LIST w) key).
Qed.

Lemma kk_call_api net method function params data :
  keeps_keys (call_api py_repr net method function params data).
Proof.
  intros w Hwf.
  destruct (call_api_frame net method function params data w) as (r & evs & -> & _).
  exact Hwf.
Qed.

Lemma kk_write_file disk path content :
  keeps_keys (write_file disk path content).
Proof. intros w Hwf. by rewrite write_file_run. Qed.

#[local] Hint Resolve kk_ret kk_raise kk_lift kk_emit kk_attr_get kk_call_api
  kk_write_file : frame.

(** From the module's initial dictionary on, every frame finds and
    leaves the four keys, whatever its outcome. *)
Lemma process_keeps_keys net disk self now image :
  keeps_keys (async_process_image py_repr net disk self now image).
Proof.
  unfold async_process_image. apply kk_bind.
  - apply kk_try_except.
    + apply kk_bind; [auto with frame | intros answer].
      apply kk_bind; auto with frame.
    + intros []; auto with frame. apply kk_bind; [apply kk_emit | auto with frame].
  - intros [ret_json|]; [| auto with frame].
    unfold parse_data. apply kk_get_attrs. intros d Hd.
    apply kk_bind.
    { apply kk_for_each. intros key Hkey. apply kk_attr_set. by rewrite <- Hd. }
    intros _. apply kk_bind; [| intros; auto with frame].
    destruct (truthy ret_json); [| auto with frame].
    apply kk_bind; [auto with frame | intros confidence].
    apply kk_get_attrs. intros d' Hd'.
    apply kk_bind.
    { apply kk_for_each. intros key Hkey.
      apply kk_bind; [auto with frame | intros v].
      apply kk_attr_set. by rewrite <- Hd'. }
    intros _. apply kk_bind; [auto with frame | intros above].
    apply kk_bind.
    { destruct above; [| auto with frame]. apply kk_bind; auto with frame. }
    intros _. apply kk_bind; auto with frame.
Qed.

Lemma fresh_attrs_wf a t :
  attrs_wf {| api := a; ATTR_LIST := ATTR_LIST_init; trace := t |}.
Proof. reflexivity. Qed.

(** ** Frames without a match, twice *)

Lemma reset_total keys v w :
  ∃ d, for_each keys (fun key => attr_set key v) w =
       (Ok tt, {| api := api w; ATTR_LIST := d; trace := trace w |}).
Proof.
  revert w. induction keys as [|key keys IH]; intros w; cbn [for_each].
  - exists (ATTR_LIST w). by destruct w.
  - set (w1 := {| api := api w; ATTR_LIST := dict_set (ATTR_LIST w) key v;
                  trace := trace w |}).
    rewrite (bind_run (attr_set key v) _ w tt w1 eq_refl).
    destruct (IH w1) as (d & Hd). exists d. exact Hd.
Qed.

(** C7 (amended): two frames in succession whose search calls return
    with no match: after each of them every key of the scratch
    dictionary holds the null sentinel, whatever a prior match had left
    there.  The reset follows the search call: a frame whose search
    call raises [HomeAssistantError] returns before it, hands nothing
    to the host and leaves the dictionary as it found it. *)
Theorem process_twice_no_match net1 net2 disk1 disk2 self now1 now2 image1 image2 w :
  attrs_wf w ->
  let run1 := async_process_image py_repr net1 disk1 self now1 image1 w in
  let run2 := async_process_image py_repr net2 disk2 self now2 image2 (snd run1) in
  (∀ ret1 ret2,
     search_returns py_repr net1 self image1 w ret1 ->
     truthy ret1 = false ->
     search_returns py_repr net2 self image2 (snd run1) ret2 ->
     truthy ret2 = false ->
     ATTR_LIST (snd run1) = ATTR_LIST_init ∧
     ATTR_LIST (snd run2) = ATTR_LIST_init ∧
     ∀ key, key ∈ dict_keys (ATTR_LIST w) ->
       dict_get (ATTR_LIST (snd run1)) key = Some (JStr "null") ∧
       dict_get (ATTR_LIST (snd run2)) key = Some (JStr "null")) ∧
  (∀ msg,
     fst (search_call py_repr net1 self image1 w) = Raise (HomeAssistantError msg) ->
     fst run1 = Ok tt ∧
     ATTR_LIST (snd run1) = ATTR_LIST w ∧
     ∃ evs, trace (snd run1) = trace w ++ evs ∧ reported evs = []).
Proof.
  intros Hwf run1 run2. split.
  - intros ret1 ret2 Hret1 Hno1 Hret2 Hno2.
    destruct (process_no_match net1 disk1 self now1 image1 w ret1 Hwf Hret1 Hno1)
      as (w1 & evs1 & Hrun1 & _ & Hattr1 & _).
    fold run1 in Hrun1.
    assert (Hw1 : snd run1 = w1) by (by rewrite Hrun1).
    assert (Hwf1 : attrs_wf (snd run1)) by (unfold attrs_wf; by rewrite Hw1, Hattr1).
    destruct (process_no_match net2 disk2 self now2 image2 (snd run1) ret2 Hwf1 Hret2 Hno2)
      as (w2 & evs2 & Hrun2 & _ & Hattr2 & _).
    fold run2 in Hrun2.
    assert (Hw2 : snd run2 = w2) by (by rewrite Hrun2).
    rewrite Hw1, Hw2, Hattr1, Hattr2.
    repeat split; try done.
    all: rewrite Hwf in H.
    all: simpl in H; set_unfold; destruct H as [-> | [-> | [-> | [-> | []]]]]; reflexivity.
  - intros msg Hcall.
    destruct (process_search_caught net1 disk1 self now1 image1 w msg Hcall)
      as (evs & (_ & Hr & _) & Hrun).
    fold run1 in Hrun. rewrite Hrun. simpl. repeat split.
    eexists. split; [reflexivity|].
    unfold reported in *. by rewrite omap_app, Hr.
Qed.

(** ** Results without a first user *)

(** C9: when the search call succeeds with a non-empty result object
    whose [user_list] is absent or empty, indexing [user_list][0]
    raises ([KeyError] when absent, [IndexError] when empty) and
    nothing catches it: the frame ends by that exception, with nothing
    handed to the host. *)
Theorem process_without_first_user net disk self now image w items :
  search_returns py_repr net self image w (JObj items) ->
  items ≠ [] ->
  dict_get items "user_list" = None ∨ dict_get items "user_list" = Some (JList []) ->
  ∃ w' (evs : list event),
    async_process_image py_repr net disk self now image w =
      (Raise (match dict_get items "user_list" with
              | None => KeyError "user_list"
              | Some _ => IndexError
              end), w') ∧
    trace w' = trace w ++ evs ∧
    reported evs = [] ∧
    files_written evs = [].
Proof.
  intros Hret Hne Hlist.
  destruct (process_search_ok net disk self now image w (JObj items) Hret)
    as (evs & (Hf & Hr & _) & ->).
  set (w0 := with_trace w evs).
  destruct (reset_total (dict_keys (ATTR_LIST w0)) (JStr "null") w0) as (d & Hreset).
  unfold parse_data.
  rewrite (bind_run get_attrs _ w0 _ w0 eq_refl).
  rewrite (bind_run _ _ _ _ _ Hreset).
  assert (Ht : truthy (JObj items) = true) by (by destruct items).
  rewrite Ht.
  set (e := match dict_get items "user_list" with
            | None => KeyError "user_list" | Some _ => IndexError end).
  assert (Hfirst : result_bind (first_user (JObj items))
                     (fun u => getitem u ATTR_SCORE) = Raise e).
  { unfold first_user, getitem, e. by destruct Hlist as [-> | ->]. }
  rewrite Hfirst.
  erewrite bind_run_raise; [| by apply bind_run_raise].
  exists {| api := api w0; ATTR_LIST := d; trace := trace w0 |}, evs.
  by repeat split.
Qed.

(** ** Timeouts *)

Lemma get_token_request_timeout net w :
  net (token_request (api w)) = Raise TimeoutError ->
  get_token net w =
  (Raise (UnboundLocalError "response"), with_trace w [Request (token_request (api w))]).
Proof.
  intros H. unfold get_token, get_token_except. unfold_m. simpl.
  fold (token_request (api w)). by rewrite H.
Qed.

(** A timeout once the response is there (while the body is read) is
    logged and becomes the generic network error, as a transport
    failure does at either point. *)
Lemma get_token_network_error net w :
  (net (token_request (api w)) = Raise ClientError ∨
   ∃ resp, net (token_request (api w)) = Ok resp ∧
           (json_body resp = Raise ClientError ∨ json_body resp = Raise TimeoutError)) ->
  fst (get_token net w) =
  Raise (HomeAssistantError (JStr "Network error on baidu token api.")).
Proof.
  intros H. unfold get_token, get_token_except. unfold_m. simpl.
  fold (token_request (api w)).
  destruct H as [-> | (resp & -> & [Hb | Hb])]; simpl; [done|..]; by rewrite Hb.
Qed.

(** C5 (the code at the failing input): when the configured timeout
    elapses while the request is awaited, neither [get_token] nor
    [call_api] raises the network error: the handler reads
    [response.url] with [response] unbound, and [UnboundLocalError]
    escapes. *)
Theorem request_timeout_escapes net w method function params data :
  net (token_request (api w)) = Raise TimeoutError ->
  net (api_request py_repr (_token (api w)) method function params data)
    = Raise TimeoutError ->
  fst (get_token net w) = Raise (UnboundLocalError "response") ∧
  fst (call_api py_repr net method function params data w)
    = Raise (UnboundLocalError "response").
Proof.
  intros Ht Hc.
  by rewrite (get_token_request_timeout net w Ht),
             (call_api_request_timeout net method function params data w Hc).
Qed.

(** C2 (the code at the failing input): when the search request times
    out, the exception that leaves [call_api] is not a
    [HomeAssistantError]; [async_process_image] does not catch it, logs
    nothing and ends by it. *)
Theorem process_search_timeout_escapes net disk self now image w :
  net (search_request py_repr (_token (api w)) self image) = Raise TimeoutError ->
  async_process_image py_repr net disk self now image w =
  (Raise (UnboundLocalError "response"),
   with_trace w [Request (search_request py_repr (_token (api w)) self image)]).
Proof.
  intros H. unfold search_request in H.
  pose proof (call_api_request_timeout net _ _ _ _ w H) as Hcall.
  unfold async_process_image, try_except.
  unfold mbind at 1, M_bind at 1.
  by rewrite (bind_run_raise _ _ _ _ _ Hcall).
Qed.

End Properties.

(** ** Token acquisition *)

Arguments error_message : simpl never.

Lemma get_token_accepts net w resp items t :
  net (token_request (api w)) = Ok resp ->
  json_body resp = Ok (JObj items) ->
  status resp < 300 ->
  dict_get items "access_token" = Some t ->
  get_token net w =
  (Ok tt,
   {| api := set_token (api w) t;
      ATTR_LIST := ATTR_LIST w;
      trace := trace w ++ [Request (token_request (api w));
                           Log "debug" "Read from baidu token api: %s";
                           Log "debug" "Baidu token is %s"] |}).
Proof.
  intros Hnet Hbody Hst Ht. unfold get_token, get_token_except. unfold_m. simpl.
  fold (token_request (api w)). rewrite Hnet. simpl. rewrite Hbody. simpl.
  apply Z.ltb_lt in Hst. rewrite Hst. simpl. rewrite Ht. simpl.
  by rewrite <- !app_assoc.
Qed.

Lemma get_token_rejects net w resp items msg :
  net (token_request (api w)) = Ok resp ->
  json_body resp = Ok (JObj items) ->
  300 <= status resp ∨ dict_get items "access_token" = None ->
  error_message (JObj items) = Ok msg ->
  get_token net w =
  (Raise (HomeAssistantError msg),
   with_trace w [Request (token_request (api w));
                 Log "debug" "Read from baidu token api: %s";
                 Log "warning" "Error %d baidu token api %s"]).
Proof.
  intros Hnet Hbody Hno Hmsg. unfold get_token, get_token_except. unfold_m. simpl.
  fold (token_request (api w)). rewrite Hnet. simpl. rewrite Hbody. simpl.
  destruct (Z.ltb (status resp) 300) eqn:E; simpl.
  - destruct Hno as [Hge | Hnone]; [apply Z.ltb_lt in E; lia|].
    rewrite Hnone. simpl. rewrite Hmsg. simpl.
    unfold with_trace. by rewrite <- !app_assoc.
  - rewrite Hmsg. simpl. unfold with_trace. by rewrite <- !app_assoc.
Qed.

(** C3 (amended): when the server answers the token request with a
    status below 300 and a payload object that has an [access_token]
    field, [get_token] returns and the client holds exactly that
    field's value as its token; when the status is 300 or more, or the
    field is absent, and the payload reports [error.message],
    [get_token] raises [HomeAssistantError] with that message and the
    client is unchanged. *)
Theorem get_token_outcome net w resp items :
  net (token_request (api w)) = Ok resp ->
  json_body resp = Ok (JObj items) ->
  (∀ t, status resp < 300 -> dict_get items "access_token" = Some t ->
     ∃ w', get_token net w = (Ok tt, w') ∧
           _token (api w') = t ∧
           (truthy t = true -> truthy (_token (api w')) = true)) ∧
  (∀ msg, 300 <= status resp ∨ dict_get items "access_token" = None ->
     error_message (JObj items) = Ok msg ->
     ∃ w', get_token net w = (Raise (HomeAssistantError msg), w') ∧
           api w' = api w).
Proof.
  intros Hnet Hbody. split.
  - intros t Hst Ht. eexists. split; [by eapply get_token_accepts|]. by simpl.
  - intros msg Hno Hmsg. eexists. split; [by eapply get_token_rejects|]. by simpl.
Qed.

(** ** Loading the store *)

Section Store.

Variable py_repr : json -> string.
Variable net : network.

Lemma add_persons_run g P w m :
  _store (api w) !! g = Some m ->
  for_each (map JStr P)
    (fun person => p ← lift (as_key person); store_add_person g p) w =
  (Ok tt, with_store w (<[g := add_persons m P]> (_store (api w)))
            (_entities (api w)) []).
Proof.
  revert w m. induction P as [|p P IH]; intros w m Hm; cbn [for_each map].
  - unfold with_store, add_persons. simpl. rewrite insert_id by done.
    rewrite app_nil_r. by destruct w as [[] ? ?].
  - set (w1 := with_store w (<[g := <[p := p]> m]> (_store (api w)))
                 (_entities (api w)) []).
    assert (Hstep : (p' ← lift (as_key (JStr p)); store_add_person g p') w
                    = (Ok tt, w1)).
    { unfold store_add_person. unfold_m. simpl. rewrite Hm.
      unfold w1, with_store. rewrite app_nil_r. by destruct w as [[] ? ?]. }
    rewrite (bind_run _ _ _ _ _ Hstep).
    rewrite (IH w1 (<[p := p]> m)) by (simpl; apply lookup_insert_eq).
    unfold with_store, w1. simpl. rewrite insert_insert_eq, !app_nil_r. done.
Qed.

Lemma getitem_truthy x key v : getitem x key = Ok v -> truthy x = true.
Proof.
  unfold getitem. destruct x as [| | | | | |[|]]; simpl; try discriminate. done.
Qed.

(** One group whose persons are listed: the group is entered with
    exactly those persons, its entity is created, one request is sent
    and its state refresh is queued. *)
Lemma update_group_ok w0 g P tasks w :
  _token (api w) = _token (api w0) ->
  lists_persons py_repr net w0 g P ->
  ∃ evs,
    requests evs = [persons_request py_repr (_token (api w0)) g] ∧
    quiet evs ∧
    update_group py_repr net (JStr g) tasks w =
    (Ok (tasks ++ [g]),
     with_store w (<[g := add_persons ∅ P]> (_store (api w)))
       (<[g := {| _id := g; _name := g |}]> (_entities (api w))) evs).
Proof.
  intros Htok (answer & persons & Hcall & Hres & Hlist).
  unfold update_group.
  rewrite (bind_run (lift (as_key (JStr g))) _ w g w eq_refl). cbv beta.
  set (w1 := {| api := set_store (api w) (<[g := ∅]> (_store (api w)));
                ATTR_LIST := ATTR_LIST w; trace := trace w |}).
  rewrite (bind_run (store_new_group g) _ w tt w1 eq_refl).
  set (w2 := {| api := set_entities (api w1)
                         (<[g := {| _id := g; _name := g |}]> (_entities (api w1)));
                ATTR_LIST := ATTR_LIST w; trace := trace w |}).
  rewrite (bind_run (entities_new_group g) _ w1 tt w2 eq_refl). cbv beta zeta.
  assert (Htok2 : _token (api w2) = _token (api w0)) by (simpl; exact Htok).
  destruct (call_api_local py_repr net "get" "faceset/group/getusers"
              (Some [("group_id", g)]) None w2 w0 Htok2)
    as (r & evs & Hrun2 & Hrun0 & Hreq & Hq).
  unfold persons_call in Hcall. rewrite Hrun0 in Hcall. simpl in Hcall. subst r.
  exists evs. split; [by rewrite Hreq, Htok2|]. split; [done|].
  rewrite (bind_run _ _ _ _ _ Hrun2).
  rewrite (bind_run (lift (getitem answer "result")) _ _ persons (with_trace w2 evs))
    by (unfold lift; by rewrite Hres).
  rewrite (getitem_truthy _ _ _ Hlist).
  rewrite (bind_run (lift (result_bind (getitem persons "user_id_list") iterate)) _ _
             (map JStr P) (with_trace w2 evs))
    by (unfold lift; by rewrite Hlist).
  rewrite (bind_run _ _ _ _ _
             (add_persons_run g P (with_trace w2 evs) ∅ (lookup_insert_eq _ _ _))).
  unfold with_store, with_trace, w2, w1. simpl.
  by rewrite insert_insert_eq, app_nil_r.
Qed.

(** The loop over groups all of whose persons are listed. *)
Lemma update_groups_ok w0 U G :
  (∀ g, g ∈ G -> lists_persons py_repr net w0 g (U g)) ->
  ∀ tasks w,
    _token (api w) = _token (api w0) ->
    ∃ evs,
      requests evs = map (persons_request py_repr (_token (api w0))) G ∧
      quiet evs ∧
      update_groups py_repr net (map JStr G) tasks w =
      (Ok (tasks ++ G),
       with_store w (add_groups U (_store (api w)) G)
         (add_entities (_entities (api w)) G) evs).
Proof.
  induction G as [|g G IH]; intros HU tasks w Htok; cbn [update_groups map].
  - exists []. split; [done|]. split; [by repeat split|].
    unfold with_store. simpl. rewrite !app_nil_r. by destruct w as [[] ? ?].
  - destruct (update_group_ok w0 g (U g) tasks w Htok) as (evs1 & Hreq1 & Hq1 & Hrun1).
    { apply HU. by left. }
    rewrite (bind_run _ _ _ _ _ Hrun1).
    destruct (IH (fun g' Hg' => HU g' (list_elem_of_further _ _ _ Hg'))
                (tasks ++ [g])
                (with_store w (<[g := add_persons ∅ (U g)]> (_store (api w)))
                   (<[g := {| _id := g; _name := g |}]> (_entities (api w))) evs1))
      as (evs2 & Hreq2 & Hq2 & Hrun2); [exact Htok|].
    rewrite Hrun2. exists (evs1 ++ evs2). split; [|split].
    + unfold requests in *. by rewrite omap_app, Hreq1, Hreq2.
    + by apply quiet_app.
    + unfold with_store. simpl. by rewrite <- !app_assoc.
Qed.

(** One group whose person-list call raises: the group has been
    entered, empty, and the exception leaves the loop body. *)
Lemma update_group_raises w0 g e tasks w :
  _token (api w) = _token (api w0) ->
  fst (persons_call py_repr net g w0) = Raise e ->
  ∃ evs,
    requests evs = [persons_request py_repr (_token (api w0)) g] ∧
    quiet evs ∧
    update_group py_repr net (JStr g) tasks w =
    (Raise e,
     with_store w (<[g := ∅]> (_store (api w)))
       (<[g := {| _id := g; _name := g |}]> (_entities (api w))) evs).
Proof.
  intros Htok Hcall.
  unfold update_group.
  rewrite (bind_run (lift (as_key (JStr g))) _ w g w eq_refl). cbv beta.
  set (w1 := {| api := set_store (api w) (<[g := ∅]> (_store (api w)));
                ATTR_LIST := ATTR_LIST w; trace := trace w |}).
  rewrite (bind_run (store_new_group g) _ w tt w1 eq_refl).
  set (w2 := {| api := set_entities (api w1)
                         (<[g := {| _id := g; _name := g |}]> (_entities (api w1)));
                ATTR_LIST := ATTR_LIST w; trace := trace w |}).
  rewrite (bind_run (entities_new_group g) _ w1 tt w2 eq_refl). cbv beta zeta.
  assert (Htok2 : _token (api w2) = _token (api w0)) by (simpl; exact Htok).
  destruct (call_api_local py_repr net "get" "faceset/group/getusers"
              (Some [("group_id", g)]) None w2 w0 Htok2)
    as (r & evs & Hrun2 & Hrun0 & Hreq & Hq).
  unfold persons_call in Hcall. rewrite Hrun0 in Hcall. simpl in Hcall. subst r.
  exists evs. split; [by rewrite Hreq, Htok2|]. split; [done|].
  by rewrite (bind_run_raise _ _ _ _ _ Hrun2).
Qed.

(** The loop stops at the first group whose person-list call raises. *)
Lemma update_groups_raises w0 U G1 g G2 e :
  (∀ g', g' ∈ G1 -> lists_persons py_repr net w0 g' (U g')) ->
  fst (persons_call py_repr net g w0) = Raise e ->
  ∀ tasks w,
    _token (api w) = _token (api w0) ->
    ∃ evs,
      requests evs = map (persons_request py_repr (_token (api w0))) (G1 ++ [g]) ∧
      quiet evs ∧
      update_groups py_repr net (map JStr (G1 ++ g :: G2)) tasks w =
      (Raise e,
       with_store w (<[g := ∅]> (add_groups U (_store (api w)) G1))
         (<[g := {| _id := g; _name := g |}]> (add_entities (_entities (api w)) G1))
         evs).
Proof.
  intros HU Hfail. induction G1 as [|g1 G1 IH]; intros tasks w Htok;
    cbn [update_groups map app].
  - destruct (update_group_raises w0 g e tasks w Htok Hfail) as (evs & Hreq & Hq & Hrun).
    exists evs. by rewrite (bind_run_raise _ _ _ _ _ Hrun).
  - destruct (update_group_ok w0 g1 (U g1) tasks w Htok) as (evs1 & Hreq1 & Hq1 & Hrun1).
    { apply HU. by left. }
    rewrite (bind_run _ _ _ _ _ Hrun1).
    destruct (IH (fun g' Hg' => HU g' (list_elem_of_further _ _ _ Hg'))
                (tasks ++ [g1])
                (with_store w (<[g1 := add_persons ∅ (U g1)]> (_store (api w)))
                   (<[g1 := {| _id := g1; _name := g1 |}]> (_entities (api w))) evs1))
      as (evs2 & Hreq2 & Hq2 & Hrun2); [exact Htok|].
    rewrite Hrun2. exists (evs1 ++ evs2). split; [|split].
    + unfold requests in *. by rewrite omap_app, Hreq1, Hreq2.
    + by apply quiet_app.
    + unfold with_store. simpl. by rewrite <- !app_assoc.
Qed.

(** What the finite maps built by the two loops hold. *)
Lemma add_persons_lookup m P p :
  add_persons m P !! p = if decide (p ∈ P) then Some p else m !! p.
Proof.
  revert m. induction P as [|q P IH]; intros m.
  - rewrite decide_False; [done | apply not_elem_of_nil].
  - unfold add_persons in *. cbn [foldl]. rewrite IH.
    destruct (decide (p ∈ P)) as [Hin | Hnin].
    + rewrite decide_True; [done | by right].
    + destruct (decide (p = q)) as [-> | Hne].
      * rewrite decide_True; [apply lookup_insert_eq | by left].
      * rewrite decide_False; [by apply lookup_insert_ne |].
        intros [? | ?]%elem_of_cons; done.
Qed.

Lemma add_persons_dom m P : dom (add_persons m P) = dom m ∪ list_to_set P.
Proof.
  apply set_eq. intros p. rewrite elem_of_dom, add_persons_lookup.
  rewrite elem_of_union, elem_of_dom, elem_of_list_to_set.
  destruct (decide (p ∈ P)); [|tauto]. split; [by right | by eauto].
Qed.

Lemma add_groups_lookup U s G g :
  add_groups U s G !! g =
  if decide (g ∈ G) then Some (add_persons ∅ (U g)) else s !! g.
Proof.
  revert s. induction G as [|h G IH]; intros s.
  - rewrite decide_False; [done | apply not_elem_of_nil].
  - unfold add_groups in *. cbn [foldl]. rewrite IH.
    destruct (decide (g ∈ G)) as [Hin | Hnin].
    + rewrite decide_True; [done | by right].
    + destruct (decide (g = h)) as [-> | Hne].
      * rewrite decide_True; [apply lookup_insert_eq | by left].
      * rewrite decide_False; [by apply lookup_insert_ne |].
        intros [? | ?]%elem_of_cons; done.
Qed.

Lemma add_groups_dom U s G : dom (add_groups U s G) = dom s ∪ list_to_set G.
Proof.
  apply set_eq. intros g. rewrite elem_of_dom, add_groups_lookup.
  rewrite elem_of_union, elem_of_dom, elem_of_list_to_set.
  destruct (decide (g ∈ G)); [|tauto]. split; [by right | by eauto].
Qed.

(** The whole synchronisation when every call succeeds. *)
Lemma update_store_ok w G U :
  lists_groups py_repr net w G ->
  (∀ g, g ∈ G -> lists_persons py_repr net w g (U g)) ->
  ∃ evs,
    requests evs = groups_request py_repr (_token (api w)) ::
                   map (persons_request py_repr (_token (api w))) G ∧
    update_store py_repr net w =
    (Ok tt,
     with_store w (add_groups U (_store (api w)) G)
       (add_entities (_entities (api w)) G) evs).
Proof.
  intros (answer & groups & Hcall & Hres & Hlist) HU.
  destruct (call_api_frame py_repr net "post" "faceset/group/getlist" None None w)
    as (r & evs0 & Hrun0 & Hreq0 & Hq0).
  unfold groups_call in Hcall. rewrite Hrun0 in Hcall. simpl in Hcall. subst r.
  destruct (update_groups_ok w U G HU [] (with_trace w evs0) eq_refl)
    as (evs1 & Hreq1 & Hq1 & Hrun1).
  unfold update_store.
  rewrite (bind_run _ _ _ _ _ Hrun0).
  rewrite (bind_run (lift (getitem answer "result")) _ _ groups (with_trace w evs0))
    by (unfold lift; by rewrite Hres).
  rewrite (getitem_truthy _ _ _ Hlist).
  rewrite (bind_run (lift (result_bind (getitem groups "group_id_list") iterate)) _ _
             (map JStr G) (with_trace w evs0))
    by (unfold lift; by rewrite Hlist).
  rewrite (bind_run _ _ _ _ _ Hrun1). simpl app.
  exists (evs0 ++ evs1 ++ match G with [] => [] | _ => [UpdateHaState G] end).
  split.
  - unfold requests in *. rewrite !omap_app, Hreq0, Hreq1. unfold groups_request.
    simpl. destruct G; simpl; by rewrite ?app_nil_r.
  - destruct G; unfold_m; unfold with_store; simpl; by rewrite <- ?app_assoc, ?app_nil_r.
Qed.

(** C4: starting from the empty store of a fresh client, when every
    call succeeds the store's group keys are exactly the reported
    [group_id_list], each group's person keys are exactly that group's
    reported [user_id_list], and every person id is mapped to itself. *)
Theorem update_store_mirrors w G U :
  _store (api w) = ∅ ->
  lists_groups py_repr net w G ->
  (∀ g, g ∈ G -> lists_persons py_repr net w g (U g)) ->
  ∃ w',
    update_store py_repr net w = (Ok tt, w') ∧
    dom (_store (api w')) = list_to_set G ∧
    ∀ g, g ∈ G ->
      ∃ m, _store (api w') !! g = Some m ∧
           dom m = list_to_set (U g) ∧
           ∀ p, p ∈ U g -> m !! p = Some p.
Proof.
  intros Hempty HG HU.
  destruct (update_store_ok w G U HG HU) as (evs & _ & Hrun).
  eexists. split; [exact Hrun|]. simpl. rewrite Hempty. split.
  - rewrite add_groups_dom, dom_empty_L. set_solver.
  - intros g Hg. exists (add_persons ∅ (U g)). split; [|split].
    + rewrite add_groups_lookup. by rewrite decide_True.
    + rewrite add_persons_dom, dom_empty_L. set_solver.
    + intros p Hp. rewrite add_persons_lookup. by rewrite decide_True.
Qed.

(** C8: when the list-groups call raises, [update_store] ends by that
    exception after that one request; when the person-list call of a
    group raises, [update_store] ends by that exception, the requests
    sent are those up to and including the failing group, and the
    groups entered into the store are those up to and including it. *)
Theorem update_store_propagates w :
  (∀ e, fst (groups_call py_repr net w) = Raise e ->
     ∃ (evs : list event),
       update_store py_repr net w = (Raise e, with_trace w evs) ∧
       requests evs = [groups_request py_repr (_token (api w))]) ∧
  (∀ G1 g G2 U e,
     lists_groups py_repr net w (G1 ++ g :: G2) ->
     (∀ g', g' ∈ G1 -> lists_persons py_repr net w g' (U g')) ->
     fst (persons_call py_repr net g w) = Raise e ->
     ∃ w' (evs : list event),
       update_store py_repr net w = (Raise e, w') ∧
       trace w' = trace w ++ evs ∧
       requests evs = groups_request py_repr (_token (api w)) ::
                      map (persons_request py_repr (_token (api w))) (G1 ++ [g]) ∧
       dom (_store (api w')) = dom (_store (api w)) ∪ list_to_set (G1 ++ [g]) ∧
       ∀ g2, g2 ∈ G2 -> g2 ∉ G1 ++ [g] -> g2 ∉ dom (_store (api w)) ->
             g2 ∉ dom (_store (api w'))).
Proof.
  split.
  - intros e Hcall.
    destruct (call_api_frame py_repr net "post" "faceset/group/getlist" None None w)
      as (r & evs0 & Hrun0 & Hreq0 & Hq0).
    unfold groups_call in Hcall. rewrite Hrun0 in Hcall. simpl in Hcall. subst r.
    exists evs0. split; [|exact Hreq0].
    unfold update_store. by rewrite (bind_run_raise _ _ _ _ _ Hrun0).
  - intros G1 g G2 U e (answer & groups & Hcall & Hres & Hlist) HU Hfail.
    destruct (call_api_frame py_repr net "post" "faceset/group/getlist" None None w)
      as (r & evs0 & Hrun0 & Hreq0 & Hq0).
    unfold groups_call in Hcall. rewrite Hrun0 in Hcall. simpl in Hcall. subst r.
    destruct (update_groups_raises w U G1 g G2 e HU Hfail [] (with_trace w evs0) eq_refl)
      as (evs1 & Hreq1 & Hq1 & Hrun1).
    unfold update_store.
    rewrite (bind_run _ _ _ _ _ Hrun0).
    rewrite (bind_run (lift (getitem answer "result")) _ _ groups (with_trace w evs0))
      by (unfold lift; by rewrite Hres).
    rewrite (getitem_truthy _ _ _ Hlist).
    rewrite (bind_run (lift (result_bind (getitem groups "group_id_list") iterate)) _ _
               (map JStr (G1 ++ g :: G2)) (with_trace w evs0))
      by (unfold lift; by rewrite Hlist).
    rewrite (bind_run_raise _ _ _ _ _ Hrun1).
    eexists _, (evs0 ++ evs1).
    assert (Hdom : dom (<[g := ∅]> (add_groups U (_store (api w)) G1) : gmap string (gmap string string))
                   = dom (_store (api w)) ∪ list_to_set (G1 ++ [g])).
    { rewrite dom_insert_L, add_groups_dom, list_to_set_app_L. set_solver. }
    split; [reflexivity|]. simpl. split; [by rewrite <- app_assoc|]. split; [|split].
    + unfold requests in *. by rewrite omap_app, Hreq0, Hreq1.
    + exact Hdom.
    + intros g2 _ Hnot Hold. rewrite Hdom. set_solver.
Qed.

End Store.

(** * The statements on concrete frames *)

Example save_file_name_example :
  save_file_name no_repr door_camera (JStr "u1") morning (JInt 92)
  = "/config/www/face/u1_20240131_090559_92.jpg".
Proof. reflexivity. Qed.

Lemma door_camera_returns score :
  search_returns no_repr (respond 200 (search_answer score)) door_camera frame
    fresh_world (JObj [("user_list", JList [one_match score])]).
Proof. exists (search_answer score). split; reflexivity. Qed.

Lemma one_match_is_match score :
  is_match (JObj [("user_list", JList [one_match score])]) (JStr "u1") score.
Proof. exists (one_match score). repeat split; reflexivity. Qed.

(** C1, as worded, fails at the threshold itself: score 80 against
    threshold 80 is a match at or above the threshold, the frame ends
    normally with its one detection, and no file is written. *)
Lemma process_at_threshold_writes_nothing :
  let run := async_process_image no_repr (respond 200 (search_answer (JInt 80)))
               face_disk door_camera morning frame fresh_world in
  search_returns no_repr (respond 200 (search_answer (JInt 80))) door_camera frame
    fresh_world (JObj [("user_list", JList [one_match (JInt 80)])]) ∧
  is_match (JObj [("user_list", JList [one_match (JInt 80)])]) (JStr "u1") (JInt 80) ∧
  number_value (JInt 80) = Some (inject_Z 80) ∧
  (_confidence door_camera <= inject_Z 80)%Q ∧
  fst run = Ok tt ∧
  reported (trace (snd run)) =
    [[ {| det_name := JStr "u1"; det_confidence := JInt 80 |} ]] ∧
  files_written (trace (snd run)) = [].
Proof.
  split; [apply door_camera_returns|]. split; [apply one_match_is_match|].
  split; [reflexivity|]. split; [by vm_compute|]. by vm_compute.
Qed.

Lemma process_above_threshold_witness :
  (let run := async_process_image no_repr (respond 200 (search_answer (JInt 92)))
                face_disk door_camera morning frame fresh_world in
   ∃ evs : list event,
     trace (snd run) = trace fresh_world ++ evs ∧
     (fst run = Ok tt ∧
      files_written evs = [("/config/www/face/u1_20240131_090559_92.jpg", frame)] ∧
      reported evs = [[ {| det_name := JStr "u1"; det_confidence := JInt 92 |} ]]) ∧
     directory_of "/config/www/face/u1_20240131_090559_92.jpg"
       = _save_path door_camera) ∧
  (let run := async_process_image no_repr (respond 200 slash_match_answer)
                face_disk door_camera morning frame fresh_world in
   ∃ evs : list event,
     trace (snd run) = trace fresh_world ++ evs ∧
     fst run = Raise (OSError "No such file or directory") ∧
     files_written evs = [] ∧
     reported evs = []) ∧
  (let run := async_process_image no_repr (respond 200 (search_answer (JInt 92)))
                full_disk door_camera morning frame fresh_world in
   ∃ evs : list event,
     trace (snd run) = trace fresh_world ++ evs ∧
     fst run = Raise (OSError "No space left on device") ∧
     files_written evs = [("/config/www/face/u1_20240131_090559_92.jpg", [])] ∧
     reported evs = []).
Proof.
  split; [|split]; intros run.
  - destruct (process_above_threshold no_repr (respond 200 (search_answer (JInt 92)))
                face_disk door_camera morning frame fresh_world
                (JObj [("user_list", JList [one_match (JInt 92)])])
                (JStr "u1") (JInt 92) (inject_Z 92)
                eq_refl (door_camera_returns (JInt 92)) (one_match_is_match (JInt 92))
                eq_refl eq_refl) as (evs & Ht & Hcase & Hdir).
    exists evs. split; [exact Ht|]. split; [exact Hcase|].
    exact (Hdir eq_refl eq_refl eq_refl).
  - destruct (process_above_threshold no_repr (respond 200 slash_match_answer)
                face_disk door_camera morning frame fresh_world
                (JObj [("user_list", JList [slash_match])])
                (JStr "a/b") (JInt 92) (inject_Z 92)
                eq_refl
                (ex_intro _ slash_match_answer (conj eq_refl eq_refl))
                (ex_intro _ slash_match
                   (conj eq_refl (conj eq_refl (conj eq_refl (conj eq_refl eq_refl)))))
                eq_refl eq_refl) as (evs & Ht & Hcase & _).
    exists evs. split; [exact Ht | exact Hcase].
  - destruct (process_above_threshold no_repr (respond 200 (search_answer (JInt 92)))
                full_disk door_camera morning frame fresh_world
                (JObj [("user_list", JList [one_match (JInt 92)])])
                (JStr "u1") (JInt 92) (inject_Z 92)
                eq_refl (door_camera_returns (JInt 92)) (one_match_is_match (JInt 92))
                eq_refl eq_refl) as (evs & Ht & Hcase & _).
    exists evs. split; [exact Ht | exact Hcase].
Defined.

Lemma process_writes_no_file_witness :
  (∃ w' (evs : list event),
     async_process_image no_repr (respond 200 no_match_answer)
       face_disk door_camera morning frame stale_world = (Ok tt, w') ∧
     trace w' = trace stale_world ++ evs ∧
     reported evs = [[]] ∧
     files_written evs = []) ∧
  (∃ w' (evs : list event),
     async_process_image no_repr (respond 200 (search_answer (JInt 50)))
       face_disk door_camera morning frame fresh_world = (Ok tt, w') ∧
     trace w' = trace fresh_world ++ evs ∧
     reported evs = [[ {| det_name := JStr "u1"; det_confidence := JInt 50 |} ]] ∧
     files_written evs = []).
Proof.
  split.
  - apply (proj1 (process_writes_no_file no_repr (respond 200 no_match_answer)
                    face_disk door_camera morning frame stale_world JNull eq_refl
                    (ex_intro _ no_match_answer (conj eq_refl eq_refl)))).
    reflexivity.
  - apply (proj2 (process_writes_no_file no_repr (respond 200 (search_answer (JInt 50)))
                    face_disk door_camera morning frame fresh_world _ eq_refl
                    (door_camera_returns (JInt 50)))
             (JStr "u1") (JInt 50) (inject_Z 50)).
    + apply one_match_is_match.
    + reflexivity.
    + reflexivity.
Defined.

(** C7, as worded, fails for frames whose search call fails: the
    error is caught and the frame returns before the reset, so after
    two such frames in succession, neither of which produced a match,
    the dictionary still holds what an earlier match left there. *)
Lemma process_failed_search_keeps_attributes :
  let run1 := async_process_image no_repr unreachable face_disk door_camera morning
                frame stale_world in
  let run2 := async_process_image no_repr unreachable face_disk door_camera morning
                frame (snd run1) in
  fst run1 = Ok tt ∧
  fst run2 = Ok tt ∧
  reported (trace (snd run2)) = [] ∧
  ATTR_LIST (snd run1) = ATTR_LIST stale_world ∧
  ATTR_LIST (snd run2) = ATTR_LIST stale_world ∧
  dict_get (ATTR_LIST (snd run2)) ATTR_UID = Some (JStr "u1") ∧
  dict_get (ATTR_LIST (snd run2)) ATTR_SCORE = Some (JInt 92).
Proof. by vm_compute. Qed.

Lemma process_twice_no_match_witness :
  (let net := respond 200 no_match_answer in
   let run1 := async_process_image no_repr net face_disk door_camera morning frame
                 stale_world in
   let run2 := async_process_image no_repr net face_disk door_camera morning frame
                 (snd run1) in
   ATTR_LIST (snd run1) = ATTR_LIST_init ∧
   ATTR_LIST (snd run2) = ATTR_LIST_init ∧
   ∀ key, key ∈ dict_keys (ATTR_LIST stale_world) ->
     dict_get (ATTR_LIST (snd run1)) key = Some (JStr "null") ∧
     dict_get (ATTR_LIST (snd run2)) key = Some (JStr "null")) ∧
  (let run1 := async_process_image no_repr unreachable face_disk door_camera morning
                 frame stale_world in
   fst run1 = Ok tt ∧
   ATTR_LIST (snd run1) = ATTR_LIST stale_world ∧
   ∃ evs, trace (snd run1) = trace stale_world ++ evs ∧ reported evs = []).
Proof.
  split.
  - intros net run1 run2.
    apply (proj1 (process_twice_no_match no_repr net net face_disk face_disk door_camera
                    morning morning frame frame stale_world eq_refl) JNull JNull).
    + exists no_match_answer. split; reflexivity.
    + reflexivity.
    + exists no_match_answer. split; reflexivity.
    + reflexivity.
  - intros run1.
    apply (proj2 (process_twice_no_match no_repr unreachable unreachable face_disk
                    face_disk door_camera morning morning frame frame stale_world
                    eq_refl) (JStr "Network error on baidu face api.")).
    reflexivity.
Defined.

Lemma process_without_first_user_witness :
  ∃ w' (evs : list event),
    async_process_image no_repr (respond 200 empty_list_answer)
      face_disk door_camera morning frame fresh_world = (Raise IndexError, w') ∧
    trace w' = trace fresh_world ++ evs ∧
    reported evs = [] ∧
    files_written evs = [].
Proof.
  apply (process_without_first_user no_repr (respond 200 empty_list_answer)
           face_disk door_camera morning frame fresh_world [("user_list", JList [])]).
  - exists empty_list_answer. split; reflexivity.
  - discriminate.
  - right. reflexivity.
Defined.

Lemma request_timeout_escapes_witness :
  fst (get_token timing_out fresh_world) = Raise (UnboundLocalError "response") ∧
  fst (call_api no_repr timing_out "post" "search" None None fresh_world)
    = Raise (UnboundLocalError "response").
Proof.
  apply (request_timeout_escapes no_repr timing_out fresh_world "post" "search" None None).
  - reflexivity.
  - reflexivity.
Defined.

Lemma process_search_timeout_escapes_witness :
  async_process_image no_repr timing_out face_disk door_camera morning frame fresh_world =
  (Raise (UnboundLocalError "response"),
   with_trace fresh_world
     [Request (search_request no_repr (_token (api fresh_world)) door_camera frame)]).
Proof.
  apply (process_search_timeout_escapes no_repr timing_out face_disk door_camera morning frame
           fresh_world).
  reflexivity.
Defined.

(** A connection failure, by contrast, is caught: the frame ends
    normally, two lines are logged and nothing reaches the host. *)
Example process_unreachable :
  let run := async_process_image no_repr unreachable face_disk door_camera morning frame
               fresh_world in
  fst run = Ok tt ∧
  logged (trace (snd run)) =
    [("warning", "Can't connect to baidu face api");
     ("error", "Can't process image on Baidu face: %s")] ∧
  reported (trace (snd run)) = [].
Proof. by vm_compute. Qed.

(** C3, as worded, fails in both of its halves: a token field that is
    present but empty is returned as it is, and a status other than 200
    below 300 is accepted rather than rejected. *)
Lemma get_token_counterexample :
  (let run := get_token (respond 200 (JObj [("access_token", JStr "")])) fresh_world in
   fst run = Ok tt ∧ truthy (_token (api (snd run))) = false) ∧
  (let run := get_token (respond 201 (JObj [("access_token", JStr "T1")])) fresh_world in
   fst run = Ok tt ∧ _token (api (snd run)) = JStr "T1").
Proof. by vm_compute. Qed.

Lemma get_token_outcome_witness :
  (∃ w', get_token (respond 200 (JObj [("access_token", JStr "T1")])) fresh_world
           = (Ok tt, w') ∧
         _token (api w') = JStr "T1" ∧
         (truthy (JStr "T1") = true -> truthy (_token (api w')) = true)) ∧
  (∃ w', get_token (respond 401 (JObj [("error", JObj [("message", JStr "denied")])]))
           fresh_world = (Raise (HomeAssistantError (JStr "denied")), w') ∧
         api w' = api fresh_world).
Proof.
  split.
  - apply (proj1 (get_token_outcome (respond 200 (JObj [("access_token", JStr "T1")]))
                    fresh_world _ _ eq_refl eq_refl) (JStr "T1")).
    + reflexivity.
    + reflexivity.
  - apply (proj2 (get_token_outcome
                    (respond 401 (JObj [("error", JObj [("message", JStr "denied")])]))
                    fresh_world _ _ eq_refl eq_refl) (JStr "denied")).
    + left. discriminate.
    + reflexivity.
Defined.

Lemma one_group_server_groups :
  lists_groups no_repr one_group_server fresh_world ["g1"].
Proof. eexists _, _. repeat split; reflexivity. Qed.

Lemma one_group_server_persons g :
  lists_persons no_repr one_group_server fresh_world g ["p1"].
Proof. eexists _, _. repeat split; reflexivity. Qed.

Lemma update_store_mirrors_witness :
  ∃ w',
    update_store no_repr one_group_server fresh_world = (Ok tt, w') ∧
    dom (_store (api w')) = list_to_set ["g1"] ∧
    ∀ g, g ∈ ["g1"] ->
      ∃ m, _store (api w') !! g = Some m ∧
           dom m = list_to_set ["p1"] ∧
           ∀ p, p ∈ ["p1"] -> m !! p = Some p.
Proof.
  apply (update_store_mirrors no_repr one_group_server fresh_world ["g1"]
           (fun _ => ["p1"])).
  - reflexivity.
  - apply one_group_server_groups.
  - intros g _. apply one_group_server_persons.
Defined.

(** The scenario of the specification: one group [g1] with one person
    [p1] gives the store [{"g1": {"p1": "p1"}}]. *)
Example update_store_one_group :
  _store (api (snd (update_store no_repr one_group_server fresh_world)))
  = {[ "g1" := {[ "p1" := "p1" ]} ]}.
Proof. by vm_compute. Qed.

Lemma broken_group_server_groups :
  lists_groups no_repr broken_group_server fresh_world (["g1"] ++ "g2" :: ["g3"]).
Proof. eexists _, _. repeat split; reflexivity. Qed.

Lemma update_store_propagates_witness :
  (∃ (evs : list event),
     update_store no_repr unreachable fresh_world =
       (Raise (HomeAssistantError (JStr "Network error on baidu face api.")),
        with_trace fresh_world evs) ∧
     requests evs = [groups_request no_repr (_token (api fresh_world))]) ∧
  (∃ w' (evs : list event),
     update_store no_repr broken_group_server fresh_world =
       (Raise (HomeAssistantError (JStr "Network error on baidu face api.")), w') ∧
     trace w' = trace fresh_world ++ evs ∧
     requests evs = groups_request no_repr (_token (api fresh_world)) ::
                    map (persons_request no_repr (_token (api fresh_world)))
                      (["g1"] ++ ["g2"]) ∧
     dom (_store (api w')) = dom (_store (api fresh_world)) ∪ list_to_set (["g1"] ++ ["g2"]) ∧
     ∀ g2, g2 ∈ ["g3"] -> g2 ∉ ["g1"] ++ ["g2"] -> g2 ∉ dom (_store (api fresh_world)) ->
           g2 ∉ dom (_store (api w'))).
Proof.
  split.
  - apply (proj1 (update_store_propagates no_repr unreachable fresh_world)).
    reflexivity.
  - apply (proj2 (update_store_propagates no_repr broken_group_server fresh_world)
             ["g1"] "g2" ["g3"] (fun _ => ["p1"])).
    + apply broken_group_server_groups.
    + intros g Hg. apply list_elem_of_singleton in Hg. subst g.
      eexists _, _. repeat split; reflexivity.
    + reflexivity.
Defined.

(** On that server the third group is never asked for and never entered. *)
Example update_store_broken_group :
  let run := update_store no_repr broken_group_server fresh_world in
  dom (_store (api (snd run))) = {[ "g1"; "g2" ]} ∧
  _store (api (snd run)) !! "g1" = Some {[ "p1" := "p1" ]} ∧
  _store (api (snd run)) !! "g2" = Some ∅ ∧
  _store (api (snd run)) !! "g3" = None ∧
  length (requests (trace (snd run))) = 3%nat.
Proof. by vm_compute. Qed.

(** * Beyond the frozen statements: the client *)

Lemma getitem_raises x key e :
  getitem x key = Raise e -> e = TypeError ∨ e = KeyError key.
Proof.
  unfold getitem. destruct x; try (intros [= <-]; by left).
  destruct (dict_get items key); [discriminate|]. intros [= <-]. by right.
Qed.

Lemma error_message_raises answer e :
  error_message answer = Raise e ->
  e = TypeError ∨ e = KeyError "error" ∨ e = KeyError "message".
Proof.
  unfold error_message, result_bind.
  destruct (getitem answer "error") as [v|e0] eqn:E.
  - intros H. apply getitem_raises in H as [-> | ->]; auto.
  - intros [= <-]. apply getitem_raises in E as [-> | ->]; auto.
Qed.

Lemma contains_raises key x e : contains key x = Raise e -> e = TypeError.
Proof. destruct x; simpl; congruence. Qed.

(** X1: [call_api] sends exactly one request and changes nothing of
    the world but the trace -- no file, no detection, no state refresh;
    its outcome and its events are the same in any two worlds whose
    clients hold the same token. *)
Theorem call_api_sends_one_request py_repr net method function params data w1 w2 :
  _token (api w1) = _token (api w2) ->
  ∃ r evs,
    call_api py_repr net method function params data w1 = (r, with_trace w1 evs) ∧
    call_api py_repr net method function params data w2 = (r, with_trace w2 evs) ∧
    requests evs =
      [api_request py_repr (_token (api w1)) method function params data] ∧
    files_written evs = [] ∧ reported evs = [] ∧ refreshed evs = [].
Proof.
  intros Htok.
  destruct (call_api_local py_repr net method function params data w1 w2 Htok)
    as (r & evs & H1 & H2 & Hreq & Hf & Hr & Hu).
  exists r, evs. repeat split; try done.
  clear -Hu. induction Hu as [|e evs He _ IH]; [done|].
  destruct e; simpl; try done.
Qed.

(** X2: [call_api] returns normally exactly when the request and the
    body of its response come back and the status is below 300; what
    it returns is then the decoded body as it is. *)
Theorem call_api_returns_iff py_repr net method function params data w answer :
  fst (call_api py_repr net method function params data w) = Ok answer ↔
  ∃ resp,
    net (api_request py_repr (_token (api w)) method function params data) = Ok resp ∧
    json_body resp = Ok answer ∧
    status resp < 300.
Proof.
  split.
  - unfold call_api, call_api_except. unfold_m. simpl.
    fold (api_request py_repr (_token (api w)) method function params data).
    destruct (net _) as [resp | e]; simpl; [| by destruct e].
    destruct (json_body resp) as [answer' | e] eqn:Hb; simpl; [| by destruct e].
    destruct (Z.ltb (status resp) 300) eqn:Hs; simpl.
    + intros [= <-]. exists resp. repeat split; [done|]. by apply Z.ltb_lt.
    + destruct (error_message answer') as [msg | e]; simpl; [done | by destruct e].
  - intros (resp & Hnet & Hb & Hs). by eapply call_api_accepts.
Qed.

(** X3: neither [aiohttp.ClientError] nor [asyncio.TimeoutError] ever
    leaves [call_api], whatever the network and the server do. *)
Theorem call_api_hides_transport_errors py_repr net method function params data w :
  fst (call_api py_repr net method function params data w) ≠ Raise ClientError ∧
  fst (call_api py_repr net method function params data w) ≠ Raise TimeoutError.
Proof.
  unfold call_api, call_api_except. unfold_m. simpl.
  destruct (net _) as [resp | e]; simpl; [| by destruct e].
  destruct (json_body resp) as [answer' | e]; simpl; [| by destruct e].
  destruct (Z.ltb (status resp) 300); simpl; [done|].
  destruct (error_message answer') as [msg | e] eqn:E; simpl; [done|].
  apply error_message_raises in E as [-> | [-> | ->]]; done.
Qed.

(** How [get_token] runs, in every case. *)
Ltac close_run :=
  eexists _, _, _; rewrite <- ?app_assoc; simpl;
  (split; [reflexivity|]); repeat split; repeat constructor; try done.

Lemma get_token_run net w :
  ∃ r evs a',
    get_token net w =
      (r, {| api := a'; ATTR_LIST := ATTR_LIST w; trace := trace w ++ evs |}) ∧
    requests evs = [token_request (api w)] ∧
    quiet evs ∧
    match r with
    | Ok _ =>
        ∃ resp items t,
          net (token_request (api w)) = Ok resp ∧
          json_body resp = Ok (JObj items) ∧
          status resp < 300 ∧
          dict_get items "access_token" = Some t ∧
          a' = set_token (api w) t
    | Raise e => a' = api w ∧ e ≠ ClientError ∧ e ≠ TimeoutError
    end.
Proof.
  unfold get_token, get_token_except, quiet. unfold_m. simpl.
  fold (token_request (api w)).
  destruct (net _) as [resp | e] eqn:Hnet; simpl; [| destruct e; simpl; close_run].
  destruct (json_body resp) as [answer | e] eqn:Hb; simpl;
    [| destruct e; simpl; close_run].
  assert (Hrej :
    ∀ e, error_message answer = Raise e -> e ≠ ClientError ∧ e ≠ TimeoutError).
  { intros e [-> | [-> | ->]]%error_message_raises; done. }
  destruct (Z.ltb (status resp) 300) eqn:Hs; simpl.
  - destruct (contains "access_token" answer) as [[|] | e] eqn:Hc; simpl.
    + destruct (getitem answer "access_token") as [t | e] eqn:Hg; simpl.
      * eexists _, _, _. rewrite <- ?app_assoc. simpl. split; [reflexivity|].
        split; [done|]. split; [repeat split; repeat constructor|].
        destruct answer; try discriminate. unfold getitem in Hg.
        destruct (dict_get items "access_token") as [t'|] eqn:Ht; [|discriminate].
        injection Hg as ->. exists resp, items, t. repeat split; try done.
        by apply Z.ltb_lt.
      * apply getitem_raises in Hg as [-> | ->]; simpl; close_run.
    + destruct (error_message answer) as [msg | e] eqn:E; simpl.
      * close_run.
      * destruct (Hrej e eq_refl). destruct e; simpl; close_run.
    + apply contains_raises in Hc as ->. simpl. close_run.
  - destruct (error_message answer) as [msg | e] eqn:E; simpl.
    + close_run.
    + destruct (Hrej e eq_refl). destruct e; simpl; close_run.
Qed.

(** X4: [get_token] sends exactly one request and touches neither the
    store, the entities, the credentials nor the scratch dictionary;
    it writes no file and reports no detection; when it raises, the
    client is exactly what it was (the old token is kept). *)
Theorem get_token_changes_only_token net w :
  let r := fst (get_token net w) in
  let w' := snd (get_token net w) in
  _store (api w') = _store (api w) ∧
  _entities (api w') = _entities (api w) ∧
  client_frame w w' ∧
  requests (drop (length (trace w)) (trace w')) = [token_request (api w)] ∧
  (is_raise r = true -> api w' = api w).
Proof.
  destruct (get_token_run net w) as (r & evs & a' & Hrun & Hreq & (Hf & Hr & _) & Hcase).
  rewrite Hrun. simpl.
  assert (Ha : _store a' = _store (api w) ∧ _entities a' = _entities (api w) ∧
               _api_key a' = _api_key (api w) ∧ _secret_key a' = _secret_key (api w)).
  { destruct r as [[] | e].
    - destruct Hcase as (resp & items & t & _ & _ & _ & _ & ->). done.
    - destruct Hcase as (-> & _). done. }
  destruct Ha as (Hs & He & Hk & Hsk).
  repeat split; try done.
  - by exists evs.
  - by rewrite drop_app_length.
  - intros Hraise. destruct r as [|e]; [done|]. by destruct Hcase.
Qed.

(** X5: [get_token] returns normally exactly when the server answers
    with a status below 300 and a payload object that has an
    [access_token] field. *)
Theorem get_token_returns_iff net w :
  fst (get_token net w) = Ok tt ↔
  ∃ resp items,
    net (token_request (api w)) = Ok resp ∧
    json_body resp = Ok (JObj items) ∧
    status resp < 300 ∧
    is_Some (dict_get items "access_token").
Proof.
  split.
  - destruct (get_token_run net w) as (r & evs & a' & Hrun & _ & _ & Hcase).
    rewrite Hrun. simpl. intros ->.
    destruct Hcase as (resp & items & t & ? & ? & ? & ? & _).
    exists resp, items. by repeat split.
  - intros (resp & items & Hnet & Hb & Hs & [t Ht]).
    by rewrite (get_token_accepts net w resp items t).
Qed.

(** X6: neither [aiohttp.ClientError] nor [asyncio.TimeoutError] ever
    leaves [get_token]. *)
Theorem get_token_hides_transport_errors net w :
  fst (get_token net w) ≠ Raise ClientError ∧
  fst (get_token net w) ≠ Raise TimeoutError.
Proof.
  destruct (get_token_run net w) as (r & evs & a' & Hrun & _ & _ & Hcase).
  rewrite Hrun. simpl. destruct r as [|e]; [done|].
  destruct Hcase as (_ & H1 & H2). split; congruence.
Qed.

(** * Beyond the frozen statements: setting up the integration *)

(** The world [async_setup] hands to [get_token]: a fresh client. *)
Lemma async_setup_unfold py_repr net api_key secret_key w :
  async_setup py_repr net api_key secret_key w =
  try_except
    (get_token net ;; update_store py_repr net ;; mret true)
    (fun err =>
       match err with
       | HomeAssistantError _ =>
           log "error" "Can't load data from face api: %s" ;; mret false
       | _ => raise err
       end)
    {| api := BaiduFace_init api_key secret_key ∅;
       ATTR_LIST := ATTR_LIST w; trace := trace w |}.
Proof. reflexivity. Qed.

(** X7: [async_setup] never ends by [HomeAssistantError]: such an
    error of [get_token] or [update_store] is logged and turned into
    the result [False], and [False] is returned in no other case. *)
Theorem async_setup_reports_failure py_repr net api_key secret_key w :
  let w0 := {| api := BaiduFace_init api_key secret_key ∅;
               ATTR_LIST := ATTR_LIST w; trace := trace w |} in
  let run := async_setup py_repr net api_key secret_key w in
  (∀ msg, fst run ≠ Raise (HomeAssistantError msg)) ∧
  (fst run = Ok false ↔
     ∃ msg,
       fst (get_token net w0) = Raise (HomeAssistantError msg) ∨
       (fst (get_token net w0) = Ok tt ∧
        fst (update_store py_repr net (snd (get_token net w0)))
          = Raise (HomeAssistantError msg))) ∧
  (fst run = Ok false ->
     last (logged (trace (snd run)))
       = Some ("error", "Can't load data from face api: %s")).
Proof.
  intros w0 run. unfold run. rewrite async_setup_unfold. fold w0.
  unfold try_except, mbind, M_bind.
  assert (Hlast : ∀ t, last (logged (t ++ [Log "error" "Can't load data from face api: %s"]))
                       = Some ("error", "Can't load data from face api: %s")).
  { intros t. unfold logged. rewrite omap_app. simpl. apply last_snoc. }
  destruct (get_token net w0) as [[[] | e] w1]; simpl.
  - destruct (update_store py_repr net w1) as [[[] | e] w2]; simpl.
    + split; [done|]. split; [|done].
      split; [done|]. intros (msg & [? | [_ ?]]); done.
    + destruct e; simpl; (split; [done|]); split; try done;
        try (split; [done | intros (? & [? | [_ ?]]); done]).
      split; [intros _; exists msg; by right | done].
  - destruct e; simpl; (split; [done|]); split; try done;
      try (split; [done | intros (? & [? | [? _]]); done]).
    split; [intros _; exists msg; by left | done].
Qed.

(** X8: when [get_token] raises, [async_setup] makes no API call: the
    token request is the only request sent, and the fresh client's
    store stays empty. *)
Theorem async_setup_stops_without_token py_repr net api_key secret_key w e :
  let w0 := {| api := BaiduFace_init api_key secret_key ∅;
               ATTR_LIST := ATTR_LIST w; trace := trace w |} in
  let run := async_setup py_repr net api_key secret_key w in
  fst (get_token net w0) = Raise e ->
  requests (drop (length (trace w)) (trace (snd run))) = [token_request (api w0)] ∧
  _store (api (snd run)) = ∅ ∧
  fst run = match e with HomeAssistantError _ => Ok false | _ => Raise e end.
Proof.
  intros w0 run He. unfold run. rewrite async_setup_unfold. fold w0.
  destruct (get_token_run net w0) as (r & evs & a' & Hrun & Hreq & _ & Hcase).
  rewrite Hrun in He. simpl in He. subst r. destruct Hcase as (-> & _).
  unfold try_except, mbind, M_bind. rewrite Hrun. simpl.
  destruct e; simpl; rewrite ?drop_app_length; try done.
  rewrite <- app_assoc, drop_app_length. unfold requests in *.
  by rewrite omap_app, Hreq.
Qed.

Lemma get_token_malformed_rejection net w resp items e :
  net (token_request (api w)) = Ok resp ->
  json_body resp = Ok (JObj items) ->
  300 <= status resp ∨ dict_get items "access_token" = None ->
  error_message (JObj items) = Raise e ->
  fst (get_token net w) = Raise e.
Proof.
  intros Hnet Hbody Hno Hmsg. unfold get_token, get_token_except. unfold_m. simpl.
  fold (token_request (api w)). rewrite Hnet. simpl. rewrite Hbody. simpl.
  assert (He : e = TypeError ∨ e = KeyError "error" ∨ e = KeyError "message")
    by (by apply (error_message_raises (JObj items))).
  destruct (Z.ltb (status resp) 300) eqn:E; simpl.
  - destruct Hno as [Hge | Hnone]; [apply Z.ltb_lt in E; lia|].
    rewrite Hnone. simpl. rewrite Hmsg. by destruct He as [-> | [-> | ->]].
  - rewrite Hmsg. by destruct He as [-> | [-> | ->]].
Qed.

(** X9: when the token request is rejected (status 300 or more, or no
    [access_token]) and the payload's [error] field is absent or is not
    an object -- a plain string, say -- [get_token] raises [KeyError]
    or [TypeError] instead of [HomeAssistantError], and [async_setup]
    ends by that exception instead of returning [False]. *)
Theorem async_setup_malformed_rejection py_repr net api_key secret_key w resp items :
  let w0 := {| api := BaiduFace_init api_key secret_key ∅;
               ATTR_LIST := ATTR_LIST w; trace := trace w |} in
  net (token_request (api w0)) = Ok resp ->
  json_body resp = Ok (JObj items) ->
  300 <= status resp ∨ dict_get items "access_token" = None ->
  (∀ fields, dict_get items "error" ≠ Some (JObj fields)) ->
  let e := match dict_get items "error" with
           | None => KeyError "error"
           | Some _ => TypeError
           end in
  fst (get_token net w0) = Raise e ∧
  fst (async_setup py_repr net api_key secret_key w) = Raise e.
Proof.
  intros w0 Hnet Hbody Hno Hplain e.
  assert (Hmsg : error_message (JObj items) = Raise e).
  { unfold error_message, e. simpl.
    destruct (dict_get items "error") as [[| | | | | |fields]|] eqn:E; simpl; try done.
    by destruct (Hplain fields). }
  pose proof (get_token_malformed_rejection net w0 resp items e Hnet Hbody Hno Hmsg)
    as Htok.
  split; [exact Htok|].
  rewrite async_setup_unfold. fold w0. unfold try_except, mbind, M_bind.
  destruct (get_token net w0) as [r w1]. simpl in Htok. subst r.
  unfold e. by destruct (dict_get items "error").
Qed.

Lemma lists_groups_token py_repr net w1 w2 G :
  _token (api w1) = _token (api w2) ->
  lists_groups py_repr net w1 G -> lists_groups py_repr net w2 G.
Proof.
  intros Htok (answer & groups & Hcall & Hrest).
  exists answer, groups. split; [|done]. unfold groups_call in *.
  destruct (call_api_local py_repr net "post" "faceset/group/getlist" None None
              w1 w2 Htok) as (r & evs & H1 & H2 & _).
  rewrite H1 in Hcall. by rewrite H2.
Qed.

Lemma lists_persons_token py_repr net w1 w2 g P :
  _token (api w1) = _token (api w2) ->
  lists_persons py_repr net w1 g P -> lists_persons py_repr net w2 g P.
Proof.
  intros Htok (answer & persons & Hcall & Hrest).
  exists answer, persons. split; [|done]. unfold persons_call in *.
  destruct (call_api_local py_repr net "get" "faceset/group/getusers"
              (Some [("group_id", g)]) None w1 w2 Htok) as (r & evs & H1 & H2 & _).
  rewrite H1 in Hcall. by rewrite H2.
Qed.

Lemma add_entities_lookup es G g :
  add_entities es G !! g =
  if decide (g ∈ G) then Some {| _id := g; _name := g |} else es !! g.
Proof.
  revert es. induction G as [|h G IH]; intros es.
  - rewrite decide_False; [done | apply not_elem_of_nil].
  - unfold add_entities in *. cbn [foldl]. rewrite IH.
    destruct (decide (g ∈ G)) as [Hin | Hnin].
    + rewrite decide_True; [done | by right].
    + destruct (decide (g = h)) as [-> | Hne].
      * rewrite decide_True; [apply lookup_insert_eq | by left].
      * rewrite decide_False; [by apply lookup_insert_ne |].
        intros [? | ?]%elem_of_cons; done.
Qed.

(** X10: whatever client the world held before, when the token
    request is accepted with token [t] and every listing call made
    with [t] succeeds, [async_setup] returns [True] with a client that
    holds [t], whose store has exactly the reported groups, each with
    exactly its reported persons mapped to themselves, and that has one
    entity per reported group. *)
Theorem async_setup_loads_store py_repr net api_key secret_key w resp items t wt G U :
  let w0 := {| api := BaiduFace_init api_key secret_key ∅;
               ATTR_LIST := ATTR_LIST w; trace := trace w |} in
  net (token_request (api w0)) = Ok resp ->
  json_body resp = Ok (JObj items) ->
  status resp < 300 ->
  dict_get items "access_token" = Some t ->
  _token (api wt) = t ->
  lists_groups py_repr net wt G ->
  (∀ g, g ∈ G -> lists_persons py_repr net wt g (U g)) ->
  ∃ w',
    async_setup py_repr net api_key secret_key w = (Ok true, w') ∧
    _token (api w') = t ∧
    dom (_store (api w')) = list_to_set G ∧
    dom (_entities (api w')) = list_to_set G ∧
    ∀ g, g ∈ G ->
      _entities (api w') !! g = Some {| _id := g; _name := g |} ∧
      ∃ m, _store (api w') !! g = Some m ∧
           dom m = list_to_set (U g) ∧
           ∀ p, p ∈ U g -> m !! p = Some p.
Proof.
  intros w0 Hnet Hbody Hst Ht Htok HG HU.
  pose proof (get_token_accepts net w0 resp items t Hnet Hbody Hst Ht) as Hrun1.
  set (w1 := {| api := set_token (api w0) t; ATTR_LIST := ATTR_LIST w0;
                trace := trace w0 ++ [Request (token_request (api w0));
                                      Log "debug" "Read from baidu token api: %s";
                                      Log "debug" "Baidu token is %s"] |}) in *.
  assert (Htok1 : _token (api wt) = _token (api w1)) by (by rewrite Htok).
  destruct (update_store_ok py_repr net w1 G U) as (evs & _ & Hrun2).
  { by apply (lists_groups_token py_repr net wt). }
  { intros g Hg. apply (lists_persons_token py_repr net wt); auto. }
  eexists. split.
  { rewrite async_setup_unfold. fold w0. unfold try_except.
    rewrite (bind_run _ _ _ _ _ Hrun1).
    rewrite (bind_run _ _ _ _ _ Hrun2). reflexivity. }
  simpl. split; [done|]. split; [|split].
  - rewrite add_groups_dom, dom_empty_L. set_solver.
  - apply set_eq. intros g. rewrite elem_of_dom, add_entities_lookup.
    rewrite elem_of_list_to_set. destruct (decide (g ∈ G)); [by eauto|].
    rewrite lookup_empty. split; [by intros [] | done].
  - intros g Hg. split.
    + rewrite add_entities_lookup. by rewrite decide_True.
    + exists (add_persons ∅ (U g)). split; [|split].
      * rewrite add_groups_lookup. by rewrite decide_True.
      * rewrite add_persons_dom, dom_empty_L. set_solver.
      * intros p Hp. rewrite add_persons_lookup. by rewrite decide_True.
Qed.

(** * Beyond the frozen statements: what every run respects *)

Section Steps.

Context (R : world -> world -> Prop).
Hypothesis R_refl : ∀ w, R w w.
Hypothesis R_trans : ∀ w1 w2 w3, R w1 w2 -> R w2 w3 -> R w1 w3.

Lemma steps_ret {A} (a : A) : steps R (mret a).
Proof. intros w. apply R_refl. Qed.

Lemma steps_raise {A} e : steps R (@raise A e).
Proof. intros w. apply R_refl. Qed.

Lemma steps_lift {A} (r : result A) : steps R (lift r).
Proof. intros w. apply R_refl. Qed.

Lemma steps_get_api : steps R get_api.
Proof. intros w. apply R_refl. Qed.

Lemma steps_get_attrs : steps R get_attrs.
Proof. intros w. apply R_refl. Qed.

Lemma steps_bind {A B} (m : M A) (f : A -> M B) :
  steps R m -> (∀ a, steps R (f a)) -> steps R (m ≫= f).
Proof.
  intros Hm Hf w. unfold mbind, M_bind. specialize (Hm w).
  destruct (m w) as [[a | e] w1]; simpl in *; [|done].
  eapply R_trans; [exact Hm | apply Hf].
Qed.

Lemma steps_try_except {A} (body : M A) handler :
  steps R body -> (∀ e, steps R (handler e)) -> steps R (try_except body handler).
Proof.
  intros Hm Hh w. unfold try_except. specialize (Hm w).
  destruct (body w) as [[a | e] w1]; simpl in *; [done|].
  eapply R_trans; [exact Hm | apply Hh].
Qed.

Lemma steps_for_each {A} (xs : list A) body :
  (∀ x, steps R (body x)) -> steps R (for_each xs body).
Proof.
  intros Hb. induction xs as [|x xs IH]; simpl.
  - apply steps_ret.
  - apply steps_bind; [apply Hb | intros _; apply IH].
Qed.

(** A step that one world-to-world function describes. *)
Lemma steps_run {A} (m : M A) :
  (∀ w, R w (snd (m w))) -> steps R m.
Proof. done. Qed.

(** [call_api] is covered as soon as [R] admits quiet events. *)
Lemma steps_call_api py_repr net method function params data :
  (∀ w evs, quiet evs -> R w (with_trace w evs)) ->
  steps R (call_api py_repr net method function params data).
Proof.
  intros Hq w.
  destruct (call_api_frame py_repr net method function params data w)
    as (r & evs & -> & _ & Hquiet).
  by apply Hq.
Qed.

End Steps.

(** ** The frame of [update_store] *)

Lemma client_frame_refl w : client_frame w w.
Proof. repeat split. exists []. by rewrite app_nil_r. Qed.

Lemma client_frame_trans w1 w2 w3 :
  client_frame w1 w2 -> client_frame w2 w3 -> client_frame w1 w3.
Proof.
  intros (Hk & Hs & Ha & evs & Ht & Hf & Hr) (Hk' & Hs' & Ha' & evs' & Ht' & Hf' & Hr').
  repeat split; try congruence.
  exists (evs ++ evs'). unfold files_written, reported in *.
  rewrite !omap_app, Hf, Hf', Hr, Hr', Ht', Ht. by rewrite app_assoc.
Qed.

Lemma sync_frame_refl w : sync_frame w w.
Proof. split; [done | apply client_frame_refl]. Qed.

Lemma sync_frame_trans w1 w2 w3 :
  sync_frame w1 w2 -> sync_frame w2 w3 -> sync_frame w1 w3.
Proof.
  intros [Ht H] [Ht' H']. split; [congruence|]. by eapply client_frame_trans.
Qed.

Lemma sync_frame_quiet w evs : quiet evs -> sync_frame w (with_trace w evs).
Proof. intros (Hf & Hr & _). repeat split. by exists evs. Qed.

Lemma sync_frame_store w f :
  (∀ a, _token (f a) = _token a ∧ _api_key (f a) = _api_key a ∧
        _secret_key (f a) = _secret_key a) ->
  sync_frame w (snd (modify_api f w)).
Proof.
  intros Hf. destruct (Hf (api w)) as (? & ? & ?).
  repeat split; try done. exists []. by rewrite app_nil_r.
Qed.

Create HintDb sync.
#[local] Hint Resolve sync_frame_refl sync_frame_trans sync_frame_quiet : sync.

Lemma update_group_sync_frame py_repr net group tasks :
  steps sync_frame (update_group py_repr net group tasks).
Proof.
  unfold update_group.
  apply steps_bind; eauto with sync; [by apply steps_lift; eauto with sync | intros g].
  apply steps_bind; eauto with sync.
  { intros w. by apply sync_frame_store. }
  intros _. apply steps_bind; eauto with sync.
  { intros w. by apply sync_frame_store. }
  intros _. apply steps_bind; eauto with sync.
  { apply steps_call_api. eauto with sync. }
  intros answer. apply steps_bind; eauto with sync; [by apply steps_lift; eauto with sync|].
  intros persons. destruct (truthy persons); [| apply steps_ret; eauto with sync].
  apply steps_bind; eauto with sync; [by apply steps_lift; eauto with sync|].
  intros ids. apply steps_bind; eauto with sync; [| intros; apply steps_ret; eauto with sync].
  apply steps_for_each; eauto with sync.
  intros person. apply steps_bind; eauto with sync; [by apply steps_lift; eauto with sync|].
  intros p. unfold store_add_person. apply steps_bind; eauto with sync.
  { apply steps_get_api; eauto with sync. }
  intros self. destruct (_store self !! g); [| apply steps_raise; eauto with sync].
  intros w. by apply sync_frame_store.
Qed.

(** X11: whatever its outcome, [update_store] leaves the token, the
    credentials and the scratch dictionary as they were, writes no
    file and reports no detection. *)
Theorem update_store_frame py_repr net w :
  let w' := snd (update_store py_repr net w) in
  _token (api w') = _token (api w) ∧
  _api_key (api w') = _api_key (api w) ∧
  _secret_key (api w') = _secret_key (api w) ∧
  ATTR_LIST w' = ATTR_LIST w ∧
  ∃ evs, trace w' = trace w ++ evs ∧ files_written evs = [] ∧ reported evs = [].
Proof.
  assert (H : steps sync_frame (update_store py_repr net)).
  { unfold update_store.
    apply steps_bind; eauto with sync.
    { apply steps_call_api. eauto with sync. }
    intros answer. apply steps_bind; eauto with sync; [by apply steps_lift; eauto with sync|].
    intros groups. destruct (truthy groups); [| apply steps_ret; eauto with sync].
    apply steps_bind; eauto with sync; [by apply steps_lift; eauto with sync|].
    intros ids. apply steps_bind; eauto with sync.
    - generalize (@nil string). induction ids as [|group ids IH]; intros tasks; simpl.
      + apply steps_ret; eauto with sync.
      + apply steps_bind; eauto with sync. apply update_group_sync_frame.
    - intros [|g tasks]; [apply steps_ret; eauto with sync|].
      intros w0. repeat split. by exists [UpdateHaState (g :: tasks)]. }
  destruct (H w) as (? & ? & ? & ? & ?). by repeat split.
Qed.

(** ** Entities and store stay in step *)

Lemma keeps_backed_refl w : keeps_backed w w.
Proof. by intros H. Qed.

Lemma keeps_backed_trans w1 w2 w3 :
  keeps_backed w1 w2 -> keeps_backed w2 w3 -> keeps_backed w1 w3.
Proof. intros H1 H2 H. auto. Qed.

Lemma keeps_backed_quiet w evs : quiet evs -> keeps_backed w (with_trace w evs).
Proof. by intros _ H. Qed.

Lemma backed_new_group a g :
  backed a ->
  backed (set_entities (set_store a (<[g := ∅]> (_store a)))
            (<[g := {| _id := g; _name := g |}]> (_entities a))).
Proof.
  intros Hb g' e. simpl. destruct (decide (g = g')) as [<- | Hne].
  - rewrite !lookup_insert_eq. intros [= <-]. split; [done | by eexists].
  - rewrite !lookup_insert_ne by done. apply Hb.
Qed.

Lemma backed_add_person a g persons :
  backed a -> backed (set_store a (<[g := persons]> (_store a))).
Proof.
  intros Hb g' e He. simpl in *. destruct (Hb g' e He) as [Hid Hs]. split; [done|].
  destruct (decide (g = g')) as [<- | Hne].
  - rewrite lookup_insert_eq. by eexists.
  - by rewrite lookup_insert_ne.
Qed.

#[local] Hint Resolve keeps_backed_refl keeps_backed_trans keeps_backed_quiet : sync.

Lemma update_group_keeps_backed py_repr net group tasks :
  steps keeps_backed (update_group py_repr net group tasks).
Proof.
  unfold update_group.
  apply steps_bind; eauto with sync; [by apply steps_lift; eauto with sync | intros g].
  assert (Hrest : steps keeps_backed
    (answer ← call_api py_repr net "get" "faceset/group/getusers"
                (Some [("group_id", g)]) None;
     persons ← lift (getitem answer "result");
     if truthy persons then
       ids ← lift (result_bind (getitem persons "user_id_list") iterate);
       for_each ids (fun person => p ← lift (as_key person); store_add_person g p) ;;
       mret (tasks ++ [g])
     else mret tasks)).
  { apply steps_bind; eauto with sync.
    { apply steps_call_api. eauto with sync. }
    intros answer. apply steps_bind; eauto with sync; [by apply steps_lift; eauto with sync|].
    intros persons. destruct (truthy persons); [| apply steps_ret; eauto with sync].
    apply steps_bind; eauto with sync; [by apply steps_lift; eauto with sync|].
    intros ids. apply steps_bind; eauto with sync; [| intros; apply steps_ret; eauto with sync].
    apply steps_for_each; eauto with sync.
    intros person. apply steps_bind; eauto with sync; [by apply steps_lift; eauto with sync|].
    intros p. unfold store_add_person. apply steps_bind; eauto with sync.
    { apply steps_get_api; eauto with sync. }
    intros self. destruct (_store self !! g); [| apply steps_raise; eauto with sync].
    intros w Hb. by apply backed_add_person. }
  intros w.
  set (w1 := {| api := set_store (api w) (<[g := ∅]> (_store (api w)));
                ATTR_LIST := ATTR_LIST w; trace := trace w |}).
  rewrite (bind_run (store_new_group g) _ w tt w1 eq_refl).
  set (w2 := {| api := set_entities (api w1)
                         (<[g := {| _id := g; _name := g |}]> (_entities (api w1)));
                ATTR_LIST := ATTR_LIST w; trace := trace w |}).
  rewrite (bind_run (entities_new_group g) _ w1 tt w2 eq_refl). cbv beta zeta.
  apply (keeps_backed_trans w w2); [intros Hb; exact (backed_new_group (api w) g Hb)|].
  apply Hrest.
Qed.

(** X12: whatever its outcome -- also when a listing call fails half
    way -- [update_store] keeps every group entity filed under its own
    identifier and backed by an entry of the store, so that neither
    [state] nor [device_state_attributes] of an entity can raise. *)
Theorem update_store_keeps_entities_backed py_repr net w :
  backed (api w) ->
  let a' := api (snd (update_store py_repr net w)) in
  backed a' ∧
  ∀ g e, _entities a' !! g = Some e ->
    is_raise (state a' e) = false ∧
    is_raise (device_state_attributes a' e) = false.
Proof.
  intros Hb.
  assert (H : steps keeps_backed (update_store py_repr net)).
  { unfold update_store.
    apply steps_bind; eauto with sync.
    { apply steps_call_api. eauto with sync. }
    intros answer. apply steps_bind; eauto with sync; [by apply steps_lift; eauto with sync|].
    intros groups. destruct (truthy groups); [| apply steps_ret; eauto with sync].
    apply steps_bind; eauto with sync; [by apply steps_lift; eauto with sync|].
    intros ids. apply steps_bind; eauto with sync.
    - generalize (@nil string). induction ids as [|group ids IH]; intros tasks; simpl.
      + apply steps_ret; eauto with sync.
      + apply steps_bind; eauto with sync. apply update_group_keeps_backed.
    - intros [|g tasks]; [apply steps_ret; eauto with sync|]. by intros w0 H0. }
  specialize (H w Hb). simpl. split; [exact H|].
  intros g e He. destruct (H g e He) as [Hid [m Hm]].
  unfold state, device_state_attributes. rewrite Hid, Hm. done.
Qed.

(** ** A synchronisation that succeeds *)

Lemma quiet_refreshed evs : quiet evs -> refreshed evs = [].
Proof.
  intros (_ & _ & Hu). induction Hu as [|e evs He _ IH]; [done|].
  destruct e; simpl; try done.
Qed.

(** X13: a synchronisation that succeeds leaves the groups the server
    did not report as they were (nothing is ever removed from the
    store), and gives every reported group exactly its reported
    persons: what the store held for that group before is dropped. *)
Theorem update_store_overwrites_listed_groups py_repr net w G U :
  lists_groups py_repr net w G ->
  (∀ g, g ∈ G -> lists_persons py_repr net w g (U g)) ->
  let a' := api (snd (update_store py_repr net w)) in
  (∀ g, g ∉ G ->
     _store a' !! g = _store (api w) !! g ∧
     _entities a' !! g = _entities (api w) !! g) ∧
  (∀ g p, g ∈ G ->
     match _store a' !! g with
     | Some persons => persons !! p
     | None => None
     end = if decide (p ∈ U g) then Some p else None).
Proof.
  intros HG HU.
  destruct (update_store_ok py_repr net w G U HG HU) as (evs & _ & ->). simpl.
  split.
  - intros g Hg. rewrite add_groups_lookup, add_entities_lookup.
    by rewrite !decide_False.
  - intros g p Hg. rewrite add_groups_lookup, decide_True by done.
    rewrite add_persons_lookup. by rewrite lookup_empty.
Qed.

Lemma add_groups_idem U s G : add_groups U (add_groups U s G) G = add_groups U s G.
Proof.
  apply map_eq. intros g. rewrite !add_groups_lookup.
  by destruct (decide (g ∈ G)).
Qed.

Lemma add_entities_idem es G : add_entities (add_entities es G) G = add_entities es G.
Proof.
  apply map_eq. intros g. rewrite !add_entities_lookup.
  by destruct (decide (g ∈ G)).
Qed.

(** X14: synchronising twice against a server that gives the same
    answers changes nothing the second time: both runs succeed and the
    store and the entities after the second are those after the first. *)
Theorem update_store_twice py_repr net w G U :
  lists_groups py_repr net w G ->
  (∀ g, g ∈ G -> lists_persons py_repr net w g (U g)) ->
  let run1 := update_store py_repr net w in
  let run2 := update_store py_repr net (snd run1) in
  fst run1 = Ok tt ∧ fst run2 = Ok tt ∧
  _store (api (snd run2)) = _store (api (snd run1)) ∧
  _entities (api (snd run2)) = _entities (api (snd run1)).
Proof.
  intros HG HU.
  destruct (update_store_ok py_repr net w G U HG HU) as (evs & _ & Hrun1).
  set (w1 := with_store w (add_groups U (_store (api w)) G)
               (add_entities (_entities (api w)) G) evs) in *.
  assert (Htok : _token (api w) = _token (api w1)) by done.
  destruct (update_store_ok py_repr net w1 G U) as (evs' & _ & Hrun2).
  { by apply (lists_groups_token py_repr net w). }
  { intros g Hg. apply (lists_persons_token py_repr net w); auto. }
  simpl. rewrite Hrun1. simpl. rewrite Hrun2. simpl.
  by rewrite add_groups_idem, add_entities_idem.
Qed.

(** X15: when the list-groups call succeeds but its result is null or
    empty, [update_store] returns at once: one request, the client
    unchanged, no state refresh. *)
Theorem update_store_without_groups py_repr net w answer groups :
  fst (groups_call py_repr net w) = Ok answer ->
  getitem answer "result" = Ok groups ->
  truthy groups = false ->
  ∃ evs,
    update_store py_repr net w = (Ok tt, with_trace w evs) ∧
    requests evs = [groups_request py_repr (_token (api w))] ∧
    refreshed evs = [].
Proof.
  intros Hcall Hres Hno.
  destruct (call_api_frame py_repr net "post" "faceset/group/getlist" None None w)
    as (r & evs0 & Hrun0 & Hreq0 & Hq0).
  unfold groups_call in Hcall. rewrite Hrun0 in Hcall. simpl in Hcall. subst r.
  exists evs0. split; [|split; [exact Hreq0 | by apply quiet_refreshed]].
  unfold update_store.
  rewrite (bind_run _ _ _ _ _ Hrun0).
  rewrite (bind_run (lift (getitem answer "result")) _ _ groups (with_trace w evs0))
    by (unfold lift; by rewrite Hres).
  by rewrite Hno.
Qed.

(** X16: a synchronisation that succeeds awaits the state refreshes
    once, as the last thing it does and for exactly the reported groups
    in the reported order; with no group reported it awaits nothing. *)
Theorem update_store_refreshes_listed_groups py_repr net w G U :
  lists_groups py_repr net w G ->
  (∀ g, g ∈ G -> lists_persons py_repr net w g (U g)) ->
  ∃ evs,
    trace (snd (update_store py_repr net w)) = trace w ++ evs ∧
    refreshed evs = match G with [] => [] | _ => [G] end ∧
    (G ≠ [] -> last evs = Some (UpdateHaState G)).
Proof.
  intros (answer & groups & Hcall & Hres & Hlist) HU.
  destruct (call_api_frame py_repr net "post" "faceset/group/getlist" None None w)
    as (r & evs0 & Hrun0 & Hreq0 & Hq0).
  unfold groups_call in Hcall. rewrite Hrun0 in Hcall. simpl in Hcall. subst r.
  destruct (update_groups_ok py_repr net w U G HU [] (with_trace w evs0) eq_refl)
    as (evs1 & Hreq1 & Hq1 & Hrun1).
  unfold update_store.
  rewrite (bind_run _ _ _ _ _ Hrun0).
  rewrite (bind_run (lift (getitem answer "result")) _ _ groups (with_trace w evs0))
    by (unfold lift; by rewrite Hres).
  rewrite (getitem_truthy _ _ _ Hlist).
  rewrite (bind_run (lift (result_bind (getitem groups "group_id_list") iterate)) _ _
             (map JStr G) (with_trace w evs0))
    by (unfold lift; by rewrite Hlist).
  rewrite (bind_run _ _ _ _ _ Hrun1). simpl app.
  pose proof (quiet_refreshed _ Hq0) as Hr0. pose proof (quiet_refreshed _ Hq1) as Hr1.
  exists (evs0 ++ evs1 ++ match G with [] => [] | _ => [UpdateHaState G] end).
  destruct G as [|g G]; unfold_m; simpl.
  - rewrite app_nil_r. split; [by rewrite <- app_assoc|].
    split; [|done]. unfold refreshed in *. by rewrite omap_app, Hr0, Hr1.
  - split; [by rewrite <- !app_assoc|]. split.
    + unfold refreshed in *. by rewrite !omap_app, Hr0, Hr1.
    + intros _. by rewrite !app_assoc, last_snoc.
Qed.

(** ** Groups without persons *)

Lemma update_group_no_persons py_repr net w0 g tasks w :
  _token (api w) = _token (api w0) ->
  no_persons py_repr net w0 g ->
  ∃ evs,
    quiet evs ∧
    update_group py_repr net (JStr g) tasks w =
    (Ok tasks,
     with_store w (<[g := ∅]> (_store (api w)))
       (<[g := {| _id := g; _name := g |}]> (_entities (api w))) evs).
Proof.
  intros Htok (answer & persons & Hcall & Hres & Hno).
  unfold update_group.
  rewrite (bind_run (lift (as_key (JStr g))) _ w g w eq_refl). cbv beta.
  set (w1 := {| api := set_store (api w) (<[g := ∅]> (_store (api w)));
                ATTR_LIST := ATTR_LIST w; trace := trace w |}).
  rewrite (bind_run (store_new_group g) _ w tt w1 eq_refl).
  set (w2 := {| api := set_entities (api w1)
                         (<[g := {| _id := g; _name := g |}]> (_entities (api w1)));
                ATTR_LIST := ATTR_LIST w; trace := trace w |}).
  rewrite (bind_run (entities_new_group g) _ w1 tt w2 eq_refl). cbv beta zeta.
  assert (Htok2 : _token (api w2) = _token (api w0)) by (simpl; exact Htok).
  destruct (call_api_local py_repr net "get" "faceset/group/getusers"
              (Some [("group_id", g)]) None w2 w0 Htok2)
    as (r & evs & Hrun2 & Hrun0 & Hreq & Hq).
  unfold persons_call in Hcall. rewrite Hrun0 in Hcall. simpl in Hcall. subst r.
  exists evs. split; [done|].
  rewrite (bind_run _ _ _ _ _ Hrun2).
  rewrite (bind_run (lift (getitem answer "result")) _ _ persons (with_trace w2 evs))
    by (unfold lift; by rewrite Hres).
  by rewrite Hno.
Qed.

Lemma update_groups_mixed py_repr net w0 (listed : string -> bool) U G :
  (∀ g, g ∈ G ->
     if listed g then lists_persons py_repr net w0 g (U g)
     else no_persons py_repr net w0 g) ->
  ∀ tasks w,
    _token (api w) = _token (api w0) ->
    ∃ evs,
      quiet evs ∧
      update_groups py_repr net (map JStr G) tasks w =
      (Ok (tasks ++ filter (fun g => listed g = true) G),
       with_store w
         (add_groups (fun g => if listed g then U g else []) (_store (api w)) G)
         (add_entities (_entities (api w)) G) evs).
Proof.
  induction G as [|g G IH]; intros HU tasks w Htok; cbn [update_groups map].
  - exists []. split; [by repeat split|].
    unfold with_store. simpl. rewrite !app_nil_r. by destruct w as [[] ? ?].
  - assert (HUg := HU g (list_elem_of_here _ _)).
    assert (Hstep : ∃ evs1, quiet evs1 ∧
      update_group py_repr net (JStr g) tasks w =
      (Ok (tasks ++ filter (fun g => listed g = true) [g]),
       with_store w
         (<[g := add_persons ∅ (if listed g then U g else [])]> (_store (api w)))
         (<[g := {| _id := g; _name := g |}]> (_entities (api w))) evs1)).
    { rewrite filter_cons, filter_nil. destruct (listed g) eqn:El.
      - destruct (update_group_ok py_repr net w0 g (U g) tasks w Htok HUg)
          as (evs1 & _ & Hq1 & Hrun1).
        exists evs1. rewrite decide_True by done. by split.
      - destruct (update_group_no_persons py_repr net w0 g tasks w Htok HUg)
          as (evs1 & Hq1 & Hrun1).
        exists evs1. rewrite decide_False by done. rewrite app_nil_r. by split. }
    destruct Hstep as (evs1 & Hq1 & Hrun1).
    rewrite (bind_run _ _ _ _ _ Hrun1).
    destruct (IH (fun g' Hg' => HU g' (list_elem_of_further _ _ _ Hg'))
                (tasks ++ filter (fun g => listed g = true) [g])
                (with_store w
                   (<[g := add_persons ∅ (if listed g then U g else [])]> (_store (api w)))
                   (<[g := {| _id := g; _name := g |}]> (_entities (api w))) evs1))
      as (evs2 & Hq2 & Hrun2); [exact Htok|].
    rewrite Hrun2. exists (evs1 ++ evs2). split; [by apply quiet_app|].
    unfold with_store. simpl. rewrite <- !app_assoc.
    by rewrite (filter_app _ [g] G).
Qed.

(** X17: a group whose person list comes back null or empty is still
    entered into the store, with no person, and gets its entity, but
    its state refresh is not awaited: the refreshes awaited are those
    of the groups with a non-empty result, in order. *)
Theorem update_store_skips_empty_groups py_repr net w (listed : string -> bool) U G :
  lists_groups py_repr net w G ->
  (∀ g, g ∈ G ->
     if listed g then lists_persons py_repr net w g (U g)
     else no_persons py_repr net w g) ->
  ∃ w' (evs : list event),
    update_store py_repr net w = (Ok tt, w') ∧
    trace w' = trace w ++ evs ∧
    refreshed evs =
      match filter (fun g => listed g = true) G with [] => [] | gs => [gs] end ∧
    ∀ g, g ∈ G ->
      _entities (api w') !! g = Some {| _id := g; _name := g |} ∧
      ∃ persons, _store (api w') !! g = Some persons ∧
        ∀ p, persons !! p =
             if listed g then (if decide (p ∈ U g) then Some p else None) else None.
Proof.
  intros (answer & groups & Hcall & Hres & Hlist) HU.
  destruct (call_api_frame py_repr net "post" "faceset/group/getlist" None None w)
    as (r & evs0 & Hrun0 & Hreq0 & Hq0).
  unfold groups_call in Hcall. rewrite Hrun0 in Hcall. simpl in Hcall. subst r.
  destruct (update_groups_mixed py_repr net w listed U G HU [] (with_trace w evs0) eq_refl)
    as (evs1 & Hq1 & Hrun1).
  pose proof (quiet_refreshed _ Hq0) as Hr0. pose proof (quiet_refreshed _ Hq1) as Hr1.
  set (gs := filter (fun g => listed g = true) G) in *.
  eexists _, (evs0 ++ evs1 ++ match gs with [] => [] | _ => [UpdateHaState gs] end).
  split.
  { unfold update_store.
    rewrite (bind_run _ _ _ _ _ Hrun0).
    rewrite (bind_run (lift (getitem answer "result")) _ _ groups (with_trace w evs0))
      by (unfold lift; by rewrite Hres).
    rewrite (getitem_truthy _ _ _ Hlist).
    rewrite (bind_run (lift (result_bind (getitem groups "group_id_list") iterate)) _ _
               (map JStr G) (with_trace w evs0))
      by (unfold lift; by rewrite Hlist).
    rewrite (bind_run _ _ _ _ _ Hrun1). simpl app. fold gs.
    instantiate (1 := with_store w
       (add_groups (fun g => if listed g then U g else []) (_store (api w)) G)
       (add_entities (_entities (api w)) G)
       (evs0 ++ evs1 ++ match gs with [] => [] | _ => [UpdateHaState gs] end)).
    destruct gs; unfold_m; unfold with_store; simpl;
      by rewrite <- ?app_assoc, ?app_nil_r. }
  simpl. split; [done|]. split.
  - unfold refreshed in *. rewrite !omap_app, Hr0, Hr1. by destruct gs.
  - intros g Hg. split.
    + rewrite add_entities_lookup. by rewrite decide_True.
    + eexists. split.
      * rewrite add_groups_lookup. by rewrite decide_True.
      * intros p. rewrite add_persons_lookup, lookup_empty.
        destruct (listed g); [done|]. rewrite decide_False; [done | apply not_elem_of_nil].
Qed.

(** * Beyond the frozen statements: the group entities *)

Lemma map_fold_insert_id (m : gmap string string) :
  map_fold (fun name p_id attr => <[name := p_id]> attr) ∅ m = m.
Proof.
  apply (map_fold_weak_ind (fun r m => r = m)); [done|].
  intros i x m' r _ ->. done.
Qed.

(** X18: after a synchronisation that succeeds, the entity of every
    reported group is defined: its state is the number of distinct
    reported persons (their number, when the list has no duplicate)
    and its attributes map exactly the reported persons, each to
    itself. *)
Theorem group_entity_after_sync py_repr net w G U :
  lists_groups py_repr net w G ->
  (∀ g, g ∈ G -> lists_persons py_repr net w g (U g)) ->
  let a' := api (snd (update_store py_repr net w)) in
  ∀ g, g ∈ G ->
    let e := {| _id := g; _name := g |} in
    _entities a' !! g = Some e ∧
    state a' e = Ok (size (list_to_set (U g) : gset string)) ∧
    (NoDup (U g) -> state a' e = Ok (length (U g))) ∧
    ∃ attrs, device_state_attributes a' e = Ok attrs ∧
      ∀ p, attrs !! p = if decide (p ∈ U g) then Some p else None.
Proof.
  intros HG HU a' g Hg e. unfold a'.
  destruct (update_store_ok py_repr net w G U HG HU) as (evs & _ & ->). simpl.
  assert (Hs : add_groups U (_store (api w)) G !! g = Some (add_persons ∅ (U g))).
  { rewrite add_groups_lookup. by rewrite decide_True. }
  assert (Hsize : size (add_persons ∅ (U g)) = size (list_to_set (U g) : gset string)).
  { rewrite <- size_dom. rewrite add_persons_dom, dom_empty_L.
    by rewrite (left_id_L ∅ (∪)). }
  split; [rewrite add_entities_lookup; by rewrite decide_True|].
  unfold state, device_state_attributes. simpl. rewrite Hs.
  split; [by rewrite Hsize|]. split.
  - intros Hnd. rewrite Hsize. by rewrite size_list_to_set.
  - eexists. split; [reflexivity|]. intros p.
    rewrite map_fold_insert_id, add_persons_lookup. by rewrite lookup_empty.
Qed.

Lemma append_inj_l (s t1 t2 : string) : s +:+ t1 = s +:+ t2 -> t1 = t2.
Proof. induction s as [|c s IH]; simpl; [done|]. intros [= H]. by apply IH. Qed.

(** X19: two group entities filed under different groups of a client
    whose entities are backed have different entity ids. *)
Theorem entity_ids_distinct a g1 g2 e1 e2 :
  backed a ->
  _entities a !! g1 = Some e1 ->
  _entities a !! g2 = Some e2 ->
  g1 ≠ g2 ->
  String.eqb (entity_id e1) (entity_id e2) = false.
Proof.
  intros Hb H1 H2 Hne. apply String.eqb_neq. intros Heq.
  destruct (Hb g1 e1 H1) as [<- _].
  destruct (Hb g2 e2 H2) as [<- _]. apply Hne.
  unfold entity_id in Heq. by do 2 apply append_inj_l in Heq.
Qed.

(** * Beyond the frozen statements: frames *)

Lemma scratch_only_refl w : scratch_only w w.
Proof. done. Qed.

Lemma scratch_only_trans w1 w2 w3 :
  scratch_only w1 w2 -> scratch_only w2 w3 -> scratch_only w1 w3.
Proof. intros [? ?] [? ?]. split; congruence. Qed.

Lemma fill_scratch_only ret_json keys :
  steps scratch_only
    (for_each keys (fun key =>
       v ← lift (result_bind (first_user ret_json) (fun u => getitem u key));
       attr_set key v)).
Proof.
  apply steps_for_each; [apply scratch_only_refl | apply scratch_only_trans |].
  intros key. apply steps_bind; [apply scratch_only_trans | |].
  - apply steps_lift. apply scratch_only_refl.
  - intros v w. done.
Qed.

(** What [parse_data] adds to the trace, in every case. *)
Lemma parse_data_events py_repr disk self now image ret_json w :
  ∃ r w' evs,
    parse_data py_repr disk self now image ret_json w = (r, w') ∧
    api w' = api w ∧
    trace w' = trace w ++ evs ∧
    frame_events image r evs.
Proof.
  unfold parse_data.
  rewrite (bind_run get_attrs _ w _ w eq_refl).
  destruct (reset_total (dict_keys (ATTR_LIST w)) (JStr "null") w) as (d0 & Hreset).
  rewrite (bind_run _ _ _ _ _ Hreset).
  set (w1 := {| api := api w; ATTR_LIST := d0; trace := trace w |}).
  match goal with
  | |- ∃ r w' evs, (?known ≫= _) w1 = _ ∧ _ =>
      assert (Hk : ∃ rk w2 (evs : list event),
        known w1 = (rk, w2) ∧ api w2 = api w ∧ trace w2 = trace w ++ evs ∧
        ((is_raise rk = true ∧ evs = []) ∨
         (rk = Ok [] ∧ evs = []) ∨
         (∃ d, rk = Ok [d] ∧ (evs = [] ∨ ∃ path, evs = [WriteFile path image])) ∨
         (is_raise rk = true ∧ ∃ path kept, evs = [WriteFile path kept])))
  end.
  { destruct (truthy ret_json).
    2:{ exists (Ok []), w1, []. rewrite app_nil_r. repeat split. right. by left. }
    destruct (result_bind (first_user ret_json) (fun u => getitem u ATTR_SCORE))
      as [confidence | e] eqn:Hc.
    2:{ exists (Raise e), w1, []. rewrite app_nil_r. repeat split. by left. }
    rewrite (bind_run (lift (Ok confidence)) _ w1 _ w1 eq_refl). cbv beta.
    rewrite (bind_run get_attrs _ w1 _ w1 eq_refl). cbv beta.
    pose proof (fill_scratch_only ret_json (dict_keys (ATTR_LIST w1)) w1) as Hfill.
    destruct (for_each (dict_keys (ATTR_LIST w1)) _ w1) as [[[] | e] w2] eqn:Efill;
      destruct Hfill as [Ha2 Ht2]; simpl in Ha2, Ht2.
    2:{ rewrite (bind_run_raise _ _ _ _ _ Efill).
        exists (Raise e), w2, []. rewrite app_nil_r. repeat split; try done. by left. }
    rewrite (bind_run _ _ _ _ _ Efill).
    destruct (gt_float confidence (_confidence self)) as [above | e].
    2:{ exists (Raise e), w2, []. rewrite app_nil_r. repeat split; try done. by left. }
    rewrite (bind_run (lift (Ok above)) _ w2 _ w2 eq_refl).
    assert (Hget : ∀ evs,
      attr_get ATTR_UID (with_trace w2 evs) =
      (match dict_get (ATTR_LIST w2) ATTR_UID with
       | Some v => Ok v
       | None => Raise (KeyError ATTR_UID)
       end, with_trace w2 evs)).
    { intros evs. unfold attr_get. unfold_m. simpl.
      by destruct (dict_get (ATTR_LIST w2) ATTR_UID). }
    assert (Hget0 : attr_get ATTR_UID w2 =
      (match dict_get (ATTR_LIST w2) ATTR_UID with
       | Some v => Ok v
       | None => Raise (KeyError ATTR_UID)
       end, w2)).
    { unfold attr_get. unfold_m. simpl.
      by destruct (dict_get (ATTR_LIST w2) ATTR_UID). }
    destruct (dict_get (ATTR_LIST w2) ATTR_UID) as [uid|] eqn:Euid.
    2:{ exists (Raise (KeyError ATTR_UID)), w2, []. rewrite app_nil_r.
        split; [|repeat split; try done; by left].
        destruct above.
        - apply bind_run_raise. by apply bind_run_raise.
        - rewrite (bind_run (mret tt) _ w2 tt w2 eq_refl). by apply bind_run_raise. }
    destruct above.
    - match goal with
      | |- ∃ rk w3 evs, ((?m ≫= _) w2 = _) ∧ _ =>
          assert (Hsave : ∃ path, m w2 = (write_result disk path image,
                                  with_trace w2 (write_events disk path image)))
      end.
      { eexists. rewrite (bind_run _ _ _ _ _ Hget0). apply write_file_run. }
      destruct Hsave as (path & Hsave).
      unfold write_result, write_events in Hsave.
      destruct (disk path image) as [|e|e kept].
      + rewrite (bind_run _ _ _ _ _ Hsave).
        rewrite (bind_run _ _ _ _ _ (Hget _)).
        eexists _, _, [_]. split; [reflexivity|]. simpl. rewrite Ht2.
        repeat split; try done.
        right. right. left. eexists. split; [done|]. right. by eexists.
      + rewrite (bind_run_raise _ _ _ _ _ Hsave).
        eexists _, _, []. split; [reflexivity|]. simpl. rewrite Ht2.
        repeat split; try done. by left.
      + rewrite (bind_run_raise _ _ _ _ _ Hsave).
        eexists _, _, [_]. split; [reflexivity|]. simpl. rewrite Ht2.
        repeat split; try done. right. right. right. split; [done|]. by eexists _, _.
    - rewrite (bind_run (mret tt) _ w2 tt w2 eq_refl).
      rewrite (bind_run _ _ _ _ _ Hget0).
      eexists _, _, []. split; [reflexivity|]. rewrite app_nil_r.
      repeat split; try done.
      right. right. left. eexists. split; [done|]. by left. }
  destruct Hk as (rk & w2 & evs & Hk & Ha & Ht & Hcase).
  destruct Hcase as [[Hr ->] | [[-> ->] | [(d & -> & [-> | [path ->]]) | [Hr (path & kept & ->)]]]].
  - destruct rk as [|e]; [done|]. rewrite (bind_run_raise _ _ _ _ _ Hk).
    exists (Raise e), w2, []. repeat split; try done. by left.
  - rewrite (bind_run _ _ _ _ _ Hk). unfold_m. simpl.
    eexists _, _, [_]. rewrite Ht, app_nil_r. repeat split; try done.
    right. by left.
  - rewrite (bind_run _ _ _ _ _ Hk). unfold_m. simpl.
    eexists _, _, [_]. rewrite Ht, app_nil_r. repeat split; try done.
    right. right. left. split; [done|]. by eexists.
  - rewrite (bind_run _ _ _ _ _ Hk). unfold_m. simpl.
    eexists _, _, [_; _]. rewrite Ht, <- app_assoc. repeat split; try done.
    right. right. right. left. split; [done|]. by eexists _, _.
  - destruct rk as [|e]; [done|]. rewrite (bind_run_raise _ _ _ _ _ Hk).
    exists (Raise e), w2, [WriteFile path kept]. repeat split; try done.
    right. right. right. right. split; [done|]. by eexists _, _.
Qed.

Lemma only_logs_snoc logs level format :
  only_logs logs -> only_logs (logs ++ [Log level format]).
Proof. intros H. apply Forall_app. split; [exact H | by repeat constructor]. Qed.

(** The events of [call_api], in their order: the request, then log
    lines. *)
Lemma call_api_events py_repr net method function params data w :
  ∃ r logs,
    call_api py_repr net method function params data w =
      (r, with_trace w
            (Request (api_request py_repr (_token (api w)) method function params data)
             :: logs)) ∧
    only_logs logs.
Proof.
  unfold call_api, call_api_except, with_trace, only_logs. unfold_m. simpl.
  fold (api_request py_repr (_token (api w)) method function params data).
  destruct (net _) as [resp | e].
  - destruct (json_body resp) as [answer | e]; simpl.
    + destruct (Z.ltb (status resp) 300); simpl.
      * eexists _, _; rewrite <- ?app_assoc; simpl; split;
          [reflexivity | repeat constructor].
      * destruct (error_message answer) as [msg | e]; simpl;
          [| destruct e; simpl];
          (eexists _, _; rewrite <- ?app_assoc; simpl; split;
             [reflexivity | repeat constructor]).
    + destruct e; simpl;
        (eexists _, _; rewrite <- ?app_assoc; simpl; split;
           [reflexivity | repeat constructor]).
  - destruct e; simpl;
      (eexists _, _; rewrite <- ?app_assoc; simpl; split;
         [reflexivity | repeat constructor]).
Qed.

(** The events of a frame, in their order. *)
Lemma process_run_events py_repr net disk self now image w :
  ∃ r w' logs tail,
    async_process_image py_repr net disk self now image w = (r, w') ∧
    trace w' =
      trace w ++
      Request (search_request py_repr (_token (api w)) self image) :: logs ++ tail ∧
    only_logs logs ∧
    (frame_events image r tail ∨
     (r = Ok tt ∧ tail = [] ∧
      last logs = Some (Log "error" "Can't process image on Baidu face: %s"))).
Proof.
  unfold async_process_image, try_except.
  destruct (call_api_events py_repr net "post" "search"
              (Some [("image_type", "BASE64"); ("group_id_list", _face_group self)])
              (Some [("image", b64encode image)]) w) as (r0 & logs & Hrun & Hlogs).
  fold (search_request py_repr (_token (api w)) self image) in Hrun.
  set (req := search_request py_repr (_token (api w)) self image) in *.
  set (w0 := with_trace w (Request req :: logs)) in *.
  assert (Hexn : ∀ e,
    ∃ r w' logs' tail,
      match e with
      | HomeAssistantError _ =>
          (log "error" "Can't process image on Baidu face: %s" ;; mret None)
          ≫= (fun r0 : option json =>
                match r0 with
                | Some ret_json0 => parse_data py_repr disk self now image ret_json0
                | None => mret tt
                end)
      | _ => raise e
      end w0 = (r, w') ∧
      trace w' = trace w ++ Request req :: logs' ++ tail ∧
      only_logs logs' ∧
      (frame_events image r tail ∨
       (r = Ok tt ∧ tail = [] ∧
        last logs' = Some (Log "error" "Can't process image on Baidu face: %s")))).
  { intros e.
    assert (Hraise : ∃ r w' logs' tail,
      (raise e : M unit) w0 = (r, w') ∧
      trace w' = trace w ++ Request req :: logs' ++ tail ∧
      only_logs logs' ∧
      (frame_events image r tail ∨
       (r = Ok tt ∧ tail = [] ∧
        last logs' = Some (Log "error" "Can't process image on Baidu face: %s")))).
    { exists (Raise e), w0, logs, []. split; [reflexivity|]. simpl.
      rewrite app_nil_r. repeat split; [done|]. left. by left. }
    destruct e; try exact Hraise.
    exists (Ok tt), (with_trace w0 [Log "error" "Can't process image on Baidu face: %s"]),
      (logs ++ [Log "error" "Can't process image on Baidu face: %s"]), [].
    split; [reflexivity|]. simpl. rewrite app_nil_r, <- app_assoc. simpl.
    repeat split; [by apply only_logs_snoc|]. right. repeat split. apply last_snoc. }
  unfold mbind at 1, M_bind at 1.
  destruct r0 as [answer | e].
  - rewrite (bind_run _ _ _ _ _ Hrun).
    destruct (getitem answer "result") as [ret_json | e] eqn:Hres.
    + rewrite (bind_run (lift (Ok ret_json)) _ _ ret_json w0 eq_refl).
      change ((mret (Some ret_json) : M (option json)) w0)
        with (Ok (Some ret_json), w0).
      cbv beta iota.
      destruct (parse_data_events py_repr disk self now image ret_json w0)
        as (r & w' & evs1 & -> & _ & Ht & Hshape).
      exists r, w', logs, evs1. split; [done|].
      split; [rewrite Ht; simpl; by rewrite <- app_assoc|].
      split; [done | by left].
    + rewrite (bind_run_raise (lift (Raise e)) _ _ e w0 eq_refl).
      destruct (Hexn e) as (r & w' & logs' & tail & Hrun' & H').
      exists r, w', logs', tail. split; [|exact H']. rewrite <- Hrun'. by destruct e.
  - rewrite (bind_run_raise _ _ _ _ _ Hrun).
    destruct (Hexn e) as (r & w' & logs' & tail & Hrun' & H').
    exists r, w', logs', tail. split; [|exact H']. rewrite <- Hrun'. by destruct e.
Qed.

(** X20: every frame, whatever the network, the server's answer, the
    disk and the state it starts from, first sends one request -- the
    search for its image in its group --, then logs, and then ends in
    one of six ways: by an exception, with nothing more; normally
    after a search error that was caught, whose line is the last one
    logged; with a report of no face; with a report of one face; with
    one file holding the image followed by a report of one face; or by
    the exception of a write that failed, with the file it left and no
    report.  So the trace holds no other request and no state refresh,
    a report comes last, a file written to its end is followed by the
    report of its detection, and a frame that ends by an exception has
    reported nothing. *)
Theorem process_events py_repr net disk self now image w :
  let r := fst (async_process_image py_repr net disk self now image w) in
  let w' := snd (async_process_image py_repr net disk self now image w) in
  ∃ logs tail,
    trace w' =
      trace w ++
      Request (search_request py_repr (_token (api w)) self image) :: logs ++ tail ∧
    only_logs logs ∧
    (frame_events image r tail ∨
     (r = Ok tt ∧ tail = [] ∧
      last logs = Some (Log "error" "Can't process image on Baidu face: %s"))).
Proof.
  destruct (process_run_events py_repr net disk self now image w)
    as (r & w' & logs & tail & -> & H).
  by exists logs, tail.
Qed.

(** X21: when the search call raises [HomeAssistantError] -- the
    server rejected it, or the connection failed -- the frame ends
    normally after logging the error: [async_process_faces] is not
    called, no file is written, and neither the client nor the scratch
    dictionary changes (what an earlier frame left there stays). *)
Theorem process_caught_error py_repr net disk self now image w msg :
  fst (search_call py_repr net self image w) = Raise (HomeAssistantError msg) ->
  ∃ w' (evs : list event),
    async_process_image py_repr net disk self now image w = (Ok tt, w') ∧
    api w' = api w ∧
    ATTR_LIST w' = ATTR_LIST w ∧
    trace w' = trace w ++ evs ∧
    reported evs = [] ∧
    files_written evs = [] ∧
    last (logged evs) = Some ("error", "Can't process image on Baidu face: %s").
Proof.
  intros Hcall.
  destruct (process_search_caught py_repr net disk self now image w msg Hcall)
    as (evs & (Hf & Hr & _) & ->).
  eexists _, _. split; [reflexivity|]. simpl. repeat split.
  - unfold reported in *. by rewrite omap_app, Hr.
  - unfold files_written in *. by rewrite omap_app, Hf.
  - unfold logged. rewrite omap_app. simpl. apply last_snoc.
Qed.

(** X22: the keys of the scratch dictionary survive every frame,
    whatever its outcome: a frame that starts with the four attribute
    keys ends with the four attribute keys. *)
Theorem process_keeps_scratch_keys py_repr net disk self now image w :
  attrs_wf w ->
  attrs_wf (snd (async_process_image py_repr net disk self now image w)).
Proof. apply process_keeps_keys. Qed.

(** X23: when the search call succeeds but its answer has no [result]
    (or is not an object), the subscript raises inside the [try]
    statement, whose only clause does not match: the frame ends by
    [KeyError] or [TypeError], with the scratch dictionary untouched
    and nothing reported. *)
Theorem process_missing_result py_repr net disk self now image w answer e :
  fst (search_call py_repr net self image w) = Ok answer ->
  getitem answer "result" = Raise e ->
  (e = TypeError ∨ e = KeyError "result") ∧
  ∃ (evs : list event),
    async_process_image py_repr net disk self now image w = (Raise e, with_trace w evs) ∧
    reported evs = [] ∧
    files_written evs = [].
Proof.
  intros Hcall Hres. split; [by apply (getitem_raises answer)|].
  unfold search_call in Hcall.
  destruct (call_api_frame py_repr net "post" "search"
              (Some [("image_type", "BASE64"); ("group_id_list", _face_group self)])
              (Some [("image", b64encode image)]) w) as (r & evs & Hrun & _ & Hq).
  rewrite Hrun in Hcall. simpl in Hcall. subst r.
  destruct Hq as (Hf & Hr & _). exists evs. split; [|done].
  unfold async_process_image, try_except.
  unfold mbind at 1, M_bind at 1.
  rewrite (bind_run _ _ _ _ _ Hrun).
  rewrite (bind_run_raise (lift (getitem answer "result")) _ _ e (with_trace w evs))
    by (unfold lift; by rewrite Hres).
  by apply getitem_raises in Hres as [-> | ->].
Qed.

Lemma gt_float_not_number x threshold :
  number_value x = None -> gt_float x threshold = Raise TypeError.
Proof. by destruct x. Qed.

(** X24: a match whose score is not a number (a string, say) ends the
    frame by [TypeError] at the comparison with the threshold: nothing
    is saved and nothing is reported, although the scratch dictionary
    already holds the attributes of the match. *)
Theorem process_non_numeric_score py_repr net disk self now image w ret_json uid score :
  attrs_wf w ->
  search_returns py_repr net self image w ret_json ->
  is_match ret_json uid score ->
  number_value score = None ->
  ∃ w' (evs : list event),
    async_process_image py_repr net disk self now image w = (Raise TypeError, w') ∧
    trace w' = trace w ++ evs ∧
    reported evs = [] ∧
    files_written evs = [] ∧
    dict_get (ATTR_LIST w') ATTR_UID = Some uid ∧
    dict_get (ATTR_LIST w') ATTR_SCORE = Some score.
Proof.
  intros Hwf Hret (u & Hu & Hi & Hs & Hg & Hinfo) Hnan.
  destruct (process_search_ok py_repr net disk self now image w ret_json Hret)
    as (evs & (Hf & Hr & _) & ->).
  destruct (getitem u ATTR_GROUP_ID) as [gid|] eqn:Eg; [|done].
  destruct (getitem u ATTR_USER_INFO) as [info|] eqn:Einfo; [|done].
  set (w0 := with_trace w evs).
  assert (Hwf0 : attrs_wf w0) by exact Hwf.
  unfold parse_data.
  rewrite (bind_run get_attrs _ w0 _ w0 eq_refl).
  rewrite (bind_run _ _ _ _ _ (reset_run w0 Hwf0)), (first_user_truthy _ _ Hu).
  set (w1 := {| api := api w0; ATTR_LIST := ATTR_LIST_init; trace := trace w0 |}).
  assert (Hwf1 : attrs_wf w1) by reflexivity.
  assert (Hc : result_bind (first_user ret_json) (fun u => getitem u ATTR_SCORE)
               = Ok score) by (rewrite Hu; exact Hs).
  rewrite Hc.
  erewrite bind_run_raise; cycle 1.
  { rewrite (bind_run (lift (Ok score)) _ w1 _ w1 eq_refl). cbv beta.
    rewrite (bind_run get_attrs _ w1 _ w1 eq_refl). cbv beta.
    rewrite (bind_run _ _ _ _ _
               (fill_run ret_json u gid score uid info w1 Hwf1 Hu Eg Hs Hi Einfo)).
    rewrite (gt_float_not_number _ _ Hnan). reflexivity. }
  eexists _, evs. by repeat split.
Qed.

(** X25: a match that lacks one of the four attributes cannot be
    reported, even when the name and the score are there: the frame
    ends by [KeyError] (or [TypeError], when the entry is not an
    object), with nothing saved and nothing reported. *)
Theorem process_incomplete_match py_repr net disk self now image w ret_json u key :
  attrs_wf w ->
  search_returns py_repr net self image w ret_json ->
  first_user ret_json = Ok u ->
  key ∈ dict_keys ATTR_LIST_init ->
  is_raise (getitem u key) = true ->
  ∃ e w' (evs : list event),
    async_process_image py_repr net disk self now image w = (Raise e, w') ∧
    (e = TypeError ∨ ∃ k, k ∈ dict_keys ATTR_LIST_init ∧ e = KeyError k) ∧
    trace w' = trace w ++ evs ∧
    reported evs = [] ∧
    files_written evs = [].
Proof.
  intros Hwf Hret Hu Hkey Hmiss.
  destruct (process_search_ok py_repr net disk self now image w ret_json Hret)
    as (evs & (Hf & Hr & _) & ->).
  set (w0 := with_trace w evs).
  assert (Hwf0 : attrs_wf w0) by exact Hwf.
  unfold parse_data.
  rewrite (bind_run get_attrs _ w0 _ w0 eq_refl).
  rewrite (bind_run _ _ _ _ _ (reset_run w0 Hwf0)), (first_user_truthy _ _ Hu).
  set (w1 := {| api := api w0; ATTR_LIST := ATTR_LIST_init; trace := trace w0 |}).
  assert (Hraises : ∀ k e, k ∈ dict_keys ATTR_LIST_init -> getitem u k = Raise e ->
            e = TypeError ∨ ∃ k, k ∈ dict_keys ATTR_LIST_init ∧ e = KeyError k).
  { intros k e Hk [-> | ->]%getitem_raises; [by left | right; eauto]. }
  assert (Hk : ∃ e d,
    (confidence ← lift (result_bind (first_user ret_json)
                          (fun u => getitem u ATTR_SCORE));
     d ← get_attrs;
     for_each (dict_keys d) (fun key =>
       v ← lift (result_bind (first_user ret_json) (fun u => getitem u key));
       attr_set key v) ;;
     above ← lift (gt_float confidence (_confidence self));
     (if (above : bool) then
        uid ← attr_get ATTR_UID;
        write_file disk
          (_save_path self +:+ py_str py_repr uid +:+ "_" +:+
           strftime_Ymd_HMS now +:+ "_" +:+ py_str py_repr confidence +:+ ".jpg")
          image
      else mret tt) ;;
     uid ← attr_get ATTR_UID;
     mret [ {| det_name := uid; det_confidence := confidence |} ]) w1
    = (Raise e, {| api := api w0; ATTR_LIST := d; trace := trace w0 |}) ∧
    (e = TypeError ∨ ∃ k, k ∈ dict_keys ATTR_LIST_init ∧ e = KeyError k)).
  { unfold attr_set. unfold_m. simpl. rewrite Hu. simpl.
    unfold ATTR_GROUP_ID, ATTR_SCORE, ATTR_UID, ATTR_USER_INFO in *. simpl in Hkey.
    destruct (getitem u "score") as [score|e2] eqn:E2; simpl.
    2:{ eexists _, _. split; [reflexivity|]. apply (Hraises "score"); [set_solver | done]. }
    destruct (getitem u "group_id") as [gid|e1] eqn:E1; simpl.
    2:{ eexists _, _. split; [reflexivity|]. apply (Hraises "group_id"); [set_solver | done]. }
    destruct (getitem u "user_id") as [uid|e3] eqn:E3; simpl.
    2:{ eexists _, _. split; [reflexivity|]. apply (Hraises "user_id"); [set_solver | done]. }
    destruct (getitem u "user_info") as [info|e4] eqn:E4; simpl.
    2:{ eexists _, _. split; [reflexivity|]. apply (Hraises "user_info"); [set_solver | done]. }
    exfalso. set_unfold.
    destruct Hkey as [-> | [-> | [-> | [-> | []]]]];
      unfold ATTR_GROUP_ID, ATTR_SCORE, ATTR_UID, ATTR_USER_INFO in Hmiss;
      rewrite ?E1, ?E2, ?E3, ?E4 in Hmiss; done. }
  destruct Hk as (e & d & Hk & He).
  rewrite (bind_run_raise _ _ _ _ _ Hk).
  eexists e, _, evs. by repeat split.
Qed.

(** * Beyond the frozen statements: setting up the platform *)

Lemma endswith_slash_cons c s :
  s ≠ EmptyString -> endswith_slash (String c s) = endswith_slash s.
Proof. by destruct s. Qed.

Lemma endswith_slash_nonempty s : endswith_slash s = true -> s ≠ EmptyString.
Proof. by destruct s. Qed.

Lemma endswith_slash_append s t :
  t ≠ EmptyString -> endswith_slash (s +:+ t) = endswith_slash t.
Proof.
  intros Ht. induction s as [|c s IH]; [done|].
  change (String c s +:+ t) with (String c (s +:+ t)).
  rewrite endswith_slash_cons; [done|].
  destruct s; [by destruct t | done].
Qed.

Lemma prefix_split p s :
  String.prefix p s = true -> ∃ rest, s = p +:+ rest.
Proof.
  revert s. induction p as [|c p IH]; intros s.
  - intros _. by exists s.
  - destruct s as [|c' s]; [done|]. simpl.
    destruct (Ascii.ascii_dec c c') as [<- | ?]; [|done].
    intros [rest ->]%IH. by exists rest.
Qed.

Lemma replace_local_keeps_slash s k :
  endswith_slash s = true ->
  (k < String.length s)%nat ->
  endswith_slash (replace_from "local" "www" k s) = true.
Proof.
  revert k. induction s as [|c s IH]; intros k Hend Hk; [done|].
  destruct k as [|k].
  - cbn [replace_from].
    destruct (String.prefix "local" (String c s)) eqn:Hp.
    + apply prefix_split in Hp as [rest Hrest].
      simpl in Hrest. injection Hrest as -> ->.
      assert (Hne : rest ≠ EmptyString) by (by intros ->).
      rewrite endswith_slash_append.
      2:{ apply endswith_slash_nonempty, IH.
          - by rewrite endswith_slash_cons in Hend by done.
          - destruct rest; [done | simpl; lia]. }
      apply IH.
      * by rewrite endswith_slash_cons in Hend by done.
      * destruct rest; [done | simpl; lia].
    + destruct s as [|c' s]; [done|].
      rewrite endswith_slash_cons in Hend by done.
      rewrite endswith_slash_cons.
      * apply IH; [done | simpl; lia].
      * apply endswith_slash_nonempty, IH; [done | simpl; lia].
  - cbn [replace_from]. simpl in Hk.
    destruct s as [|c' s]; [simpl in Hk; lia|].
    rewrite endswith_slash_cons in Hend by done.
    apply IH; [done | simpl in *; lia].
Qed.

Lemma normalized_endswith_slash local_path :
  endswith_slash
    (if endswith_slash local_path then local_path else local_path +:+ "/") = true.
Proof.
  destruct (endswith_slash local_path) eqn:E; [done|].
  by rewrite endswith_slash_append.
Qed.

(** X26: [async_setup_platform] builds one entity per configured
    camera, in order; all of them share the group and the threshold,
    and the save path of each starts with the configuration directory
    and ends with a slash, whether or not the configured [local_path]
    did -- so that a saved file, whose name is appended to it, lies in
    that directory. *)
Theorem async_setup_platform_entities config_dir face_group confidence local_path
    sources :
  let entities :=
    async_setup_platform config_dir face_group confidence local_path sources in
  map _camera entities = map source_entity_id sources ∧
  ∀ e, e ∈ entities ->
    _face_group e = face_group ∧
    _confidence e = confidence ∧
    String.prefix config_dir (_save_path e) = true ∧
    endswith_slash (_save_path e) = true.
Proof.
  simpl. unfold async_setup_platform. split.
  - rewrite map_map. by apply map_ext.
  - intros e [camera [-> _]]%list_elem_of_fmap. simpl.
    repeat split; [apply prefix_append|].
    unfold save_path_of, str_replace.
    set (lp := if endswith_slash local_path then local_path else local_path +:+ "/").
    assert (Hlp : endswith_slash lp = true) by apply normalized_endswith_slash.
    assert (Hr : endswith_slash (replace_from "local" "www" 0 lp) = true).
    { apply replace_local_keeps_slash; [done|]. destruct lp; [done | simpl; lia]. }
    rewrite endswith_slash_append; [done | by apply endswith_slash_nonempty].
Qed.

Lemma replace_without_occurrence old new s :
  is_substring old s = false -> replace_from old new 0 s = s.
Proof.
  induction s as [|c s IH]; [done|].
  cbn [is_substring replace_from]. intros [Hp Hs]%orb_false_elim.
  rewrite Hp. by rewrite IH.
Qed.

(** X27: a [local_path] in which ["local"] does not occur is used as
    it is: the save path is the configuration directory followed by
    that path. *)
Theorem save_path_without_local config_dir local_path :
  is_substring "local" local_path = false ->
  save_path_of config_dir local_path = config_dir +:+ local_path.
Proof.
  intros H. unfold save_path_of, str_replace.
  by rewrite replace_without_occurrence.
Qed.

(** * Beyond the frozen statements: failures of the transport *)

(** X28: a connection failure, at the request or while the body is
    read, and a timeout while the body is read, leave [get_token] as
    the one generic network error of [get_token]; and, independently,
    the same failures of its own request leave [call_api] as the one
    generic network error of [call_api]. *)
Theorem transport_failure_is_network_error py_repr net w method function params data :
  ((net (token_request (api w)) = Raise ClientError ∨
    ∃ resp, net (token_request (api w)) = Ok resp ∧
            (json_body resp = Raise ClientError ∨ json_body resp = Raise TimeoutError)) ->
   fst (get_token net w) =
     Raise (HomeAssistantError (JStr "Network error on baidu token api."))) ∧
  ((net (api_request py_repr (_token (api w)) method function params data)
      = Raise ClientError ∨
    ∃ resp, net (api_request py_repr (_token (api w)) method function params data)
              = Ok resp ∧
            (json_body resp = Raise ClientError ∨ json_body resp = Raise TimeoutError)) ->
   fst (call_api py_repr net method function params data w) =
     Raise (HomeAssistantError (JStr "Network error on baidu face api."))).
Proof.
  split; [by apply get_token_network_error|]. intros Hcall.
  unfold call_api, call_api_except. unfold_m. simpl.
  fold (api_request py_repr (_token (api w)) method function params data).
  destruct Hcall as [-> | (resp & -> & [Hb | Hb])]; simpl; [done|..]; by rewrite Hb.
Qed.

(** X29: a call answered with a status of 300 or more never returns:
    it raises [HomeAssistantError] carrying the payload's
    [error.message] as it is when there is one, and the [KeyError] or
    [TypeError] of that subscript when there is none. *)
Theorem call_api_rejection py_repr net method function params data w resp answer :
  net (api_request py_repr (_token (api w)) method function params data) = Ok resp ->
  json_body resp = Ok answer ->
  300 <= status resp ->
  fst (call_api py_repr net method function params data w) =
    match error_message answer with
    | Ok msg => Raise (HomeAssistantError msg)
    | Raise e => Raise e
    end ∧
  (∀ e, error_message answer = Raise e ->
        e = TypeError ∨ e = KeyError "error" ∨ e = KeyError "message").
Proof.
  intros Hnet Hbody Hst. split; [| intros e; apply error_message_raises].
  unfold call_api, call_api_except. unfold_m. simpl.
  fold (api_request py_repr (_token (api w)) method function params data).
  rewrite Hnet. simpl. rewrite Hbody. simpl.
  apply Z.ltb_ge in Hst. rewrite Hst. simpl.
  destruct (error_message answer) as [msg | e] eqn:E; simpl; [done|].
  by apply error_message_raises in E as [-> | [-> | ->]].
Qed.

(** * The further statements on concrete runs *)

Lemma call_api_sends_one_request_witness :
  ∃ r evs,
    call_api no_repr unreachable "post" "search" None None fresh_world
      = (r, with_trace fresh_world evs) ∧
    call_api no_repr unreachable "post" "search" None None stale_world
      = (r, with_trace stale_world evs) ∧
    requests evs =
      [api_request no_repr (_token (api fresh_world)) "post" "search" None None] ∧
    files_written evs = [] ∧ reported evs = [] ∧ refreshed evs = [].
Proof.
  apply (call_api_sends_one_request no_repr unreachable "post" "search" None None
           fresh_world stale_world).
  reflexivity.
Defined.

Lemma async_setup_stops_without_token_witness :
  requests (drop (length (trace stale_world))
              (trace (snd (async_setup no_repr unreachable "key" "secret" stale_world))))
    = [token_request (BaiduFace_init "key" "secret" ∅)] ∧
  _store (api (snd (async_setup no_repr unreachable "key" "secret" stale_world))) = ∅ ∧
  fst (async_setup no_repr unreachable "key" "secret" stale_world) = Ok false.
Proof.
  apply (async_setup_stops_without_token no_repr unreachable "key" "secret" stale_world
           (HomeAssistantError (JStr "Network error on baidu token api."))).
  reflexivity.
Defined.

Lemma async_setup_malformed_rejection_witness :
  fst (get_token (respond 401 oauth_rejection)
         {| api := BaiduFace_init "key" "secret" ∅;
            ATTR_LIST := ATTR_LIST fresh_world; trace := trace fresh_world |})
    = Raise TypeError ∧
  fst (async_setup no_repr (respond 401 oauth_rejection) "key" "secret" fresh_world)
    = Raise TypeError.
Proof.
  apply (async_setup_malformed_rejection no_repr (respond 401 oauth_rejection)
           "key" "secret" fresh_world
           {| status := 401; url := BAIDU_TOKEN_API_URL; json_body := Ok oauth_rejection |}
           [("error", JStr "invalid_client");
            ("error_description", JStr "unknown client id")]).
  - reflexivity.
  - reflexivity.
  - left. discriminate.
  - intros fields. discriminate.
Defined.

Lemma token_then_one_group_groups :
  lists_groups no_repr token_then_one_group tokened_world ["g1"].
Proof. eexists _, _. repeat split; reflexivity. Qed.

Lemma token_then_one_group_persons g :
  lists_persons no_repr token_then_one_group tokened_world g ["p1"].
Proof. eexists _, _. repeat split; reflexivity. Qed.

Lemma async_setup_loads_store_witness :
  ∃ w',
    async_setup no_repr token_then_one_group "key" "secret" stale_world = (Ok true, w') ∧
    _token (api w') = JStr "T1" ∧
    dom (_store (api w')) = list_to_set ["g1"] ∧
    dom (_entities (api w')) = list_to_set ["g1"] ∧
    ∀ g, g ∈ ["g1"] ->
      _entities (api w') !! g = Some {| _id := g; _name := g |} ∧
      ∃ m, _store (api w') !! g = Some m ∧
           dom m = list_to_set ["p1"] ∧
           ∀ p, p ∈ ["p1"] -> m !! p = Some p.
Proof.
  apply (async_setup_loads_store no_repr token_then_one_group "key" "secret" stale_world
           {| status := 200; url := BAIDU_TOKEN_API_URL;
              json_body := Ok (JObj [("access_token", JStr "T1")]) |}
           [("access_token", JStr "T1")] (JStr "T1") tokened_world ["g1"]
           (fun _ => ["p1"])).
  - reflexivity.
  - reflexivity.
  - reflexivity.
  - reflexivity.
  - reflexivity.
  - apply token_then_one_group_groups.
  - intros g _. apply token_then_one_group_persons.
Defined.

Lemma fresh_world_backed : backed (api fresh_world).
Proof. intros g e H. simpl in H. by rewrite lookup_empty in H. Qed.

Lemma update_store_keeps_entities_backed_witness :
  backed (api (snd (update_store no_repr broken_group_server fresh_world))) ∧
  ∀ g e,
    _entities (api (snd (update_store no_repr broken_group_server fresh_world))) !! g
      = Some e ->
    is_raise (state (api (snd (update_store no_repr broken_group_server fresh_world))) e)
      = false ∧
    is_raise (device_state_attributes
                (api (snd (update_store no_repr broken_group_server fresh_world))) e)
      = false.
Proof.
  apply (update_store_keeps_entities_backed no_repr broken_group_server fresh_world).
  apply fresh_world_backed.
Defined.

Lemma update_store_overwrites_listed_groups_witness :
  (∀ g, g ∉ ["g1"] ->
     _store (api (snd (update_store no_repr one_group_server fresh_world))) !! g
       = _store (api fresh_world) !! g ∧
     _entities (api (snd (update_store no_repr one_group_server fresh_world))) !! g
       = _entities (api fresh_world) !! g) ∧
  (∀ g p, g ∈ ["g1"] ->
     match _store (api (snd (update_store no_repr one_group_server fresh_world))) !! g with
     | Some persons => persons !! p
     | None => None
     end = if decide (p ∈ ["p1"]) then Some p else None).
Proof.
  apply (update_store_overwrites_listed_groups no_repr one_group_server fresh_world
           ["g1"] (fun _ => ["p1"])).
  - apply one_group_server_groups.
  - intros g _. apply one_group_server_persons.
Defined.

Lemma update_store_twice_witness :
  fst (update_store no_repr one_group_server fresh_world) = Ok tt ∧
  fst (update_store no_repr one_group_server
         (snd (update_store no_repr one_group_server fresh_world))) = Ok tt ∧
  _store (api (snd (update_store no_repr one_group_server
                      (snd (update_store no_repr one_group_server fresh_world)))))
    = _store (api (snd (update_store no_repr one_group_server fresh_world))) ∧
  _entities (api (snd (update_store no_repr one_group_server
                         (snd (update_store no_repr one_group_server fresh_world)))))
    = _entities (api (snd (update_store no_repr one_group_server fresh_world))).
Proof.
  apply (update_store_twice no_repr one_group_server fresh_world ["g1"]
           (fun _ => ["p1"])).
  - apply one_group_server_groups.
  - intros g _. apply one_group_server_persons.
Defined.

Lemma update_store_without_groups_witness :
  ∃ evs,
    update_store no_repr (respond 200 no_match_answer) fresh_world
      = (Ok tt, with_trace fresh_world evs) ∧
    requests evs = [groups_request no_repr (_token (api fresh_world))] ∧
    refreshed evs = [].
Proof.
  apply (update_store_without_groups no_repr (respond 200 no_match_answer) fresh_world
           no_match_answer JNull).
  - reflexivity.
  - reflexivity.
  - reflexivity.
Defined.

Lemma update_store_refreshes_listed_groups_witness :
  ∃ evs,
    trace (snd (update_store no_repr one_group_server fresh_world))
      = trace fresh_world ++ evs ∧
    refreshed evs = [["g1"]] ∧
    (["g1"] ≠ [] -> last evs = Some (UpdateHaState ["g1"])).
Proof.
  apply (update_store_refreshes_listed_groups no_repr one_group_server fresh_world
           ["g1"] (fun _ => ["p1"])).
  - apply one_group_server_groups.
  - intros g _. apply one_group_server_persons.
Defined.

Lemma empty_group_server_groups :
  lists_groups no_repr empty_group_server fresh_world ["g1"; "g2"].
Proof. eexists _, _. repeat split; reflexivity. Qed.

Lemma update_store_skips_empty_groups_witness :
  ∃ w' (evs : list event),
    update_store no_repr empty_group_server fresh_world = (Ok tt, w') ∧
    trace w' = trace fresh_world ++ evs ∧
    refreshed evs = [["g1"]] ∧
    ∀ g, g ∈ ["g1"; "g2"] ->
      _entities (api w') !! g = Some {| _id := g; _name := g |} ∧
      ∃ persons, _store (api w') !! g = Some persons ∧
        ∀ p, persons !! p =
             if negb (String.eqb g "g2")
             then (if decide (p ∈ ["p1"; "p2"]) then Some p else None) else None.
Proof.
  apply (update_store_skips_empty_groups no_repr empty_group_server fresh_world
           (fun g => negb (String.eqb g "g2")) (fun _ => ["p1"; "p2"]) ["g1"; "g2"]).
  - apply empty_group_server_groups.
  - intros g Hg. apply elem_of_cons in Hg as [-> | Hg].
    + eexists _, _. repeat split; reflexivity.
    + apply list_elem_of_singleton in Hg as ->.
      eexists _, _. repeat split; reflexivity.
Defined.

Lemma group_entity_after_sync_witness :
  let a' := api (snd (update_store no_repr one_group_server fresh_world)) in
  let e := {| _id := "g1"; _name := "g1" |} in
  _entities a' !! "g1" = Some e ∧
  state a' e = Ok (size (list_to_set ["p1"] : gset string)) ∧
  (NoDup ["p1"] -> state a' e = Ok (length ["p1"])) ∧
  ∃ attrs, device_state_attributes a' e = Ok attrs ∧
    ∀ p, attrs !! p = if decide (p ∈ ["p1"]) then Some p else None.
Proof.
  apply (group_entity_after_sync no_repr one_group_server fresh_world ["g1"]
           (fun _ => ["p1"])).
  - apply one_group_server_groups.
  - intros g _. apply one_group_server_persons.
  - by left.
Defined.

Lemma two_group_client_backed : backed two_group_client.
Proof.
  unfold two_group_client. do 2 apply backed_new_group.
  intros g e H. simpl in H. by rewrite lookup_empty in H.
Qed.

Lemma entity_ids_distinct_witness :
  String.eqb (entity_id {| _id := "g1"; _name := "g1" |})
             (entity_id {| _id := "g2"; _name := "g2" |}) = false.
Proof.
  apply (entity_ids_distinct two_group_client "g1" "g2").
  - apply two_group_client_backed.
  - reflexivity.
  - reflexivity.
  - discriminate.
Defined.

Lemma process_caught_error_witness :
  ∃ w' (evs : list event),
    async_process_image no_repr unreachable face_disk door_camera morning frame stale_world
      = (Ok tt, w') ∧
    api w' = api stale_world ∧
    ATTR_LIST w' = ATTR_LIST stale_world ∧
    trace w' = trace stale_world ++ evs ∧
    reported evs = [] ∧
    files_written evs = [] ∧
    last (logged evs) = Some ("error", "Can't process image on Baidu face: %s").
Proof.
  apply (process_caught_error no_repr unreachable face_disk door_camera morning frame stale_world
           (JStr "Network error on baidu face api.")).
  reflexivity.
Defined.

Lemma process_keeps_scratch_keys_witness :
  attrs_wf (snd (async_process_image no_repr (respond 200 empty_list_answer)
                   face_disk door_camera morning frame stale_world)).
Proof.
  apply (process_keeps_scratch_keys no_repr (respond 200 empty_list_answer)
           face_disk door_camera morning frame stale_world).
  reflexivity.
Defined.

Lemma process_missing_result_witness :
  (KeyError "result" = TypeError ∨ KeyError "result" = KeyError "result") ∧
  ∃ (evs : list event),
    async_process_image no_repr (respond 200 error_only_answer)
      face_disk door_camera morning frame stale_world
      = (Raise (KeyError "result"), with_trace stale_world evs) ∧
    reported evs = [] ∧
    files_written evs = [].
Proof.
  apply (process_missing_result no_repr (respond 200 error_only_answer)
           face_disk door_camera morning frame stale_world error_only_answer).
  - reflexivity.
  - reflexivity.
Defined.

Lemma process_non_numeric_score_witness :
  ∃ w' (evs : list event),
    async_process_image no_repr (respond 200 (search_answer (JStr "92")))
      face_disk door_camera morning frame fresh_world = (Raise TypeError, w') ∧
    trace w' = trace fresh_world ++ evs ∧
    reported evs = [] ∧
    files_written evs = [] ∧
    dict_get (ATTR_LIST w') ATTR_UID = Some (JStr "u1") ∧
    dict_get (ATTR_LIST w') ATTR_SCORE = Some (JStr "92").
Proof.
  apply (process_non_numeric_score no_repr (respond 200 (search_answer (JStr "92")))
           face_disk door_camera morning frame fresh_world
           (JObj [("user_list", JList [one_match (JStr "92")])])).
  - reflexivity.
  - apply door_camera_returns.
  - apply one_match_is_match.
  - reflexivity.
Defined.

Lemma process_incomplete_match_witness :
  ∃ e w' (evs : list event),
    async_process_image no_repr (respond 200 partial_match_answer)
      face_disk door_camera morning frame fresh_world = (Raise e, w') ∧
    (e = TypeError ∨ ∃ k, k ∈ dict_keys ATTR_LIST_init ∧ e = KeyError k) ∧
    trace w' = trace fresh_world ++ evs ∧
    reported evs = [] ∧
    files_written evs = [].
Proof.
  apply (process_incomplete_match no_repr (respond 200 partial_match_answer)
           face_disk door_camera morning frame fresh_world
           (JObj [("user_list", JList [partial_match])]) partial_match ATTR_GROUP_ID).
  - reflexivity.
  - exists partial_match_answer. split; reflexivity.
  - reflexivity.
  - by left.
  - reflexivity.
Defined.

Lemma save_path_without_local_witness :
  save_path_of "/config" "/www/faces/" = "/config" +:+ "/www/faces/".
Proof.
  apply (save_path_without_local "/config" "/www/faces/").
  reflexivity.
Defined.

Lemma transport_failure_is_network_error_witness :
  fst (get_token token_endpoint_down fresh_world) =
    Raise (HomeAssistantError (JStr "Network error on baidu token api.")) ∧
  fst (get_token dropping_body fresh_world) =
    Raise (HomeAssistantError (JStr "Network error on baidu token api.")) ∧
  fst (call_api no_repr dropping_body "post" "search" None None fresh_world) =
    Raise (HomeAssistantError (JStr "Network error on baidu face api.")).
Proof.
  split; [|split].
  - apply (proj1 (transport_failure_is_network_error no_repr token_endpoint_down
                    fresh_world "post" "search" None None)).
    left. reflexivity.
  - apply (proj1 (transport_failure_is_network_error no_repr dropping_body
                    fresh_world "post" "search" None None)).
    right. eexists. split; [reflexivity|]. by left.
  - apply (proj2 (transport_failure_is_network_error no_repr dropping_body
                    fresh_world "post" "search" None None)).
    right. eexists. split; [reflexivity|]. by left.
Defined.

Lemma call_api_rejection_witness :
  fst (call_api no_repr
         (respond 403 (JObj [("error", JObj [("message", JStr "denied")])]))
         "post" "search" None None fresh_world) =
    match error_message (JObj [("error", JObj [("message", JStr "denied")])]) with
    | Ok msg => Raise (HomeAssistantError msg)
    | Raise e => Raise e
    end ∧
  (∀ e, error_message (JObj [("error", JObj [("message", JStr "denied")])]) = Raise e ->
        e = TypeError ∨ e = KeyError "error" ∨ e = KeyError "message").
Proof.
  apply (call_api_rejection no_repr
           (respond 403 (JObj [("error", JObj [("message", JStr "denied")])]))
           "post" "search" None None fresh_world
           {| status := 403;
              url := BAIDU_FACE_API_URL no_repr "search" (_token (api fresh_world));
              json_body := Ok (JObj [("error", JObj [("message", JStr "denied")])]) |}).
  - reflexivity.
  - reflexivity.
  - discriminate.
Defined.

(** Every occurrence of ["local"] is replaced, not only a leading one. *)
Example save_path_of_example :
  save_path_of "/config" "/local/face/" = "/config/www/face/" ∧
  save_path_of "/config" "/local/localhost/" = "/config/www/wwwhost/".
Proof. split; reflexivity. Qed.

(** A rejection in the way of an OAuth server is not reported as a
    failed setup: the setup ends by [TypeError]. *)
Example async_setup_oauth_rejection :
  fst (async_setup no_repr (respond 401 oauth_rejection) "key" "secret" fresh_world)
  = Raise TypeError.
Proof. reflexivity. Qed.
